(** * ContextFlowMCP: the shared-log subsystem of [server.mjs]

    A shallow embedding of the storage, cache, session-index and query code
    of [src/server.mjs], followed by the properties stated about it.

    Conventions.
    - A JavaScript value that comes out of [JSON.parse] or out of the tool
      arguments is a [jsval]; property access is [o.[k]] and yields
      [JUndefined] for a missing property, as in JavaScript.
    - Strings are [string]; [String.prototype.trim] removes the white space
      code units that fit in eight bits.
    - A function that can [throw] returns a [result]; an [async] function
      that talks to the file system, the clock or the environment is a
      program of the monad [M], a tree of requests threaded with the
      process-local caches.
    - Builtins whose behaviour is not part of this repository ([Date.parse],
      [JSON.parse], [String.prototype.localeCompare], ...) are section
      variables. *)

From Stdlib Require Import ZArith QArith Qround String Ascii List Bool Lia Permutation Sorted.
From stdpp Require Import base option list gmap strings pretty.

Open Scope string_scope.
Open Scope Z_scope.

(* ===================================================================== *)
(** * JavaScript values *)
(* ===================================================================== *)

(** JSON values plus [undefined]. Numbers are restricted to the integers:
    the code below inspects numbers only through [typeof],
    [Number.isInteger], truthiness and integer comparisons. *)
#[warnings="-register-all"]
Inductive jsval : Type :=
| JUndefined
| JNull
| JBool (b : bool)
| JNum (n : Z)
| JStr (s : string)
| JArr (items : list jsval)
| JObj (props : list (string * jsval)).

Fixpoint assoc (k : string) (ps : list (string * jsval)) : option jsval :=
  match ps with
  | [] => None
  | (k', v) :: ps' => if String.eqb k k' then Some v else assoc k ps'
  end.

(** [o.k]: own-property lookup, [undefined] when absent. *)
Definition getprop (o : jsval) (k : string) : jsval :=
  match o with
  | JObj ps => match assoc k ps with Some v => v | None => JUndefined end
  | _ => JUndefined
  end.

Notation "o .[ k ]" := (getprop o k) (at level 1, format "o .[ k ]").

(** JavaScript truthiness ([!!v]). *)
Definition truthy (v : jsval) : bool :=
  match v with
  | JUndefined | JNull => false
  | JBool b => b
  | JNum n => negb (n =? 0)
  | JStr s => negb (String.eqb s "")
  | JArr _ | JObj _ => true
  end.

(** [a || b] on values. *)
Definition js_or (a b : jsval) : jsval := if truthy a then a else b.

(** [value === "literal"] for a string literal. *)
Definition is_str (v : jsval) (lit : string) : bool :=
  match v with JStr s => String.eqb s lit | _ => false end.

(** server.mjs:553 *)
Definition isObject (value : jsval) : bool :=
  match value with JObj _ => true | _ => false end.

(** An optional string ([string | undefined]) seen as a value. *)
Definition of_opt (o : option string) : jsval :=
  match o with Some s => JStr s | None => JUndefined end.

(** Truthiness of an optional string: defined and not empty. *)
Definition nonempty (o : option string) : bool :=
  match o with Some s => negb (String.eqb s "") | None => false end.

(* --------------------------------------------------------------------- *)
(** ** Strings *)

(** White space removed by [trim], among the code units below 256:
    TAB, LF, VT, FF, CR, SPACE and NBSP. *)
Definition isWhiteSpace (c : ascii) : bool :=
  let n := nat_of_ascii c in
  ((9 <=? n)%nat && (n <=? 13)%nat) || (n =? 32)%nat || (n =? 160)%nat.

Fixpoint trimStart (s : string) : string :=
  match s with
  | String c s' => if isWhiteSpace c then trimStart s' else s
  | EmptyString => EmptyString
  end.

Fixpoint trimEnd (s : string) : string :=
  match s with
  | String c s' =>
      match trimEnd s' with
      | EmptyString => if isWhiteSpace c then EmptyString else String c EmptyString
      | t => String c t
      end
  | EmptyString => EmptyString
  end.

Definition trim (s : string) : string := trimEnd (trimStart s).

Definition strlen (s : string) : Z := Z.of_nat (String.length s).

(** [s.slice(0, n)] for [0 <= n]. *)
Fixpoint take_str (n : nat) (s : string) : string :=
  match n, s with
  | S n', String c s' => String c (take_str n' s')
  | _, _ => EmptyString
  end.

(** [Array.prototype.sort(compare)]: a stable sort, so for a consistent
    comparator its result is the one of any stable sorting algorithm; an
    insertion sort that places an element before the first one it does not
    exceed is such an algorithm. [compare x y <= 0] keeps [x] first. *)
Section ArraySort.
Context {A : Type} (compare : A -> A -> Z).

Fixpoint sort_insert (x : A) (l : list A) : list A :=
  match l with
  | [] => [x]
  | y :: l' => if compare x y <=? 0 then x :: y :: l' else y :: sort_insert x l'
  end.

Fixpoint array_sort (l : list A) : list A :=
  match l with
  | [] => []
  | x :: l' => sort_insert x (array_sort l')
  end.
End ArraySort.

(** The default comparator of [sort] on strings: by code units. *)
Definition compareStrings (a b : string) : Z :=
  match String.compare a b with
  | Lt => -1
  | Eq => 0
  | Gt => 1
  end.

(** [arr.sort()] on an array of strings. *)
Definition sort_strings (l : list string) : list string := array_sort compareStrings l.

(* ===================================================================== *)
(** * Exceptions and results *)
(* ===================================================================== *)

(** A thrown JavaScript error: [new Error(message)] has no [code]; a
    rejected [fs] call carries one ([ENOENT], [EEXIST], ...). *)
Record exn : Type := mkExn { code : option string; message : string }.

Definition Error (msg : string) : exn := {| code := None; message := msg |}.
Definition SystemError (c : string) : exn := {| code := Some c; message := c |}.

(** [error && error.code === c] *)
Definition has_code (e : exn) (c : string) : bool :=
  match code e with Some c' => String.eqb c' c | None => false end.

Inductive result (A : Type) : Type :=
| Ok (a : A)
| Throw (e : exn).
Arguments Ok {A} a.
Arguments Throw {A} e.

#[global] Instance result_ret : MRet result := fun A a => Ok a.
#[global] Instance result_bind : MBind result := fun A B f r =>
  match r with Ok a => f a | Throw e => Throw e end.

(* ===================================================================== *)
(** * Argument validation (server.mjs:557-676) *)
(* ===================================================================== *)

(** server.mjs:557 [asString(value, name, { required, trim })] *)
Definition asString (value : jsval) (name : string) (required trim_ : bool)
  : result (option string) :=
  match value with
  | JUndefined | JNull =>
      if required then Throw (Error ("Missing required string: " ++ name))
      else Ok None
  | JStr s =>
      let out := if trim_ then trim s else s in
      if required && (strlen out =? 0)
      then Throw (Error ("String cannot be empty: " ++ name))
      else Ok (Some out)
  | _ => Throw (Error ("Expected string for " ++ name))
  end.

(** server.mjs:630 [asPositiveInt(value, name, fallback, min, max)] *)
Definition asPositiveInt (value : jsval) (name : string)
    (fallback : option Z) (min max : Z) : result (option Z) :=
  match value with
  | JUndefined | JNull => Ok fallback
  | JNum n =>
      if (n <? min) || (max <? n)
      then Throw (Error (name ++ " must be between " ++ pretty min ++ " and " ++ pretty max))
      else Ok (Some n)
  | _ => Throw (Error ("Expected integer for " ++ name))
  end.

(** server.mjs:1221 *)
Definition asBoolean (value : jsval) (name : string) (fallback : bool) : result bool :=
  match value with
  | JUndefined | JNull => Ok fallback
  | JBool b => Ok b
  | _ => Throw (Error ("Expected boolean for " ++ name))
  end.

(** server.mjs:659 *)
Definition normalizeFormat (value : jsval) : result string :=
  match value with
  | JUndefined | JNull => Ok "text"
  | JStr s =>
      if negb (String.eqb s "text") && negb (String.eqb s "json")
      then Throw (Error "format must be 'text' or 'json'")
      else Ok s
  | _ => Throw (Error "format must be 'text' or 'json'")
  end.

(** server.mjs:667 *)
Definition normalizeSessionId (value : jsval) : result (option string) :=
  match value with
  | JUndefined | JNull => Ok None
  | JStr s =>
      let out := trim s in
      Ok (if String.eqb out "" then None else Some out)
  | _ => Throw (Error "Expected string for session_id")
  end.


(* ===================================================================== *)
(** * Record Log: parsing (server.mjs:907-927) *)
(* ===================================================================== *)

Definition LF : ascii := "010"%char.
Definition CR : ascii := "013"%char.

(** [rawText.split(/\r?\n/)]: a separator is a line feed together with the
    carriage return right before it, if there is one. *)
Fixpoint splitLines (s : string) : list string :=
  match s with
  | EmptyString => [EmptyString]
  | String c rest =>
      let keep :=
        match splitLines rest with
        | l :: ls => String c l :: ls
        | [] => [String c EmptyString]
        end in
      if Ascii.eqb c LF then EmptyString :: splitLines rest
      else if Ascii.eqb c CR then
        match rest with
        | String c' rest' =>
            if Ascii.eqb c' LF then EmptyString :: splitLines rest' else keep
        | EmptyString => keep
        end
      else keep
  end.

(** One element of [parseErrors]: [{ line, error }]. *)
Record parseError : Type := { line : Z; error : string }.

(** [!line || !line.trim()] *)
Definition isBlank (l : string) : bool :=
  String.eqb l "" || String.eqb (trim l) "".

Section Parse.
(** [JSON.parse]: the decoded value, or [String(error)] of the
    [SyntaxError] it throws. *)
Variable JSON_parse : string -> jsval + string.

(** The body of the [for] loop of [parseEntries], from line [i] on, with
    the two arrays built so far. *)
Fixpoint parseEntries_from (lines : list string) (i : Z)
    (entries : list jsval) (parseErrors : list parseError)
  : list jsval * list parseError :=
  match lines with
  | [] => (entries, parseErrors)
  | l :: rest =>
      if isBlank l then parseEntries_from rest (i + 1) entries parseErrors
      else
        match JSON_parse l with
        | inl parsed =>
            if isObject parsed
            then parseEntries_from rest (i + 1) (entries ++ [parsed]) parseErrors
            else parseEntries_from rest (i + 1) entries
                   (parseErrors ++
                      [{| line := i + 1; error := "Error: line is not a JSON object" |}])
        | inr err =>
            parseEntries_from rest (i + 1) entries
              (parseErrors ++ [{| line := i + 1; error := err |}])
        end
  end.

(** server.mjs:907 *)
Definition parseEntries (rawText : string) : list jsval * list parseError :=
  parseEntries_from (splitLines rawText) 0 [] [].

(** What the specification says of one line: it is blank, it is an entry,
    or it is a parse error. *)
Inductive lineClass : Type :=
| Blank
| IsEntry (v : jsval)
| IsError (err : string).

Definition classify (l : string) : lineClass :=
  if String.eqb (trim l) "" then Blank
  else match JSON_parse l with
       | inl parsed =>
           match parsed with
           | JObj _ => IsEntry parsed
           | _ => IsError "Error: line is not a JSON object"
           end
       | inr err => IsError err
       end.

Definition entry_of (l : string) : option jsval :=
  match classify l with IsEntry v => Some v | _ => None end.

Definition error_of (il : nat * string) : option parseError :=
  match classify il.2 with
  | IsError err => Some {| line := Z.of_nat il.1 + 1; error := err |}
  | _ => None
  end.
End Parse.

(* ===================================================================== *)
(** * Query engine: filtering (server.mjs:1192-1219) *)
(* ===================================================================== *)

(** The [filters] argument of [filterEntries]; every caller passes strings
    or [undefined]. *)
Record filters : Type := {
  f_project : option string;
  f_agent : option string;
  f_session_id : option string;
  f_kind : option string;
  f_since : option string;
}.

Section Filter.
(** [Date.parse(v)], with the conversion of [v] to a string that it
    performs; [None] is [NaN]. *)
Variable Date_parse : jsval -> option Z.

(** [if (f && entry.field !== f) return false] answers [true] here when
    the entry passes this test. *)
Definition field_ok (f : option string) (v : jsval) : bool :=
  match f with
  | Some s => if negb (String.eqb s "") then is_str v s else true
  | None => true
  end.

(** [since ? Date.parse(since) : null]: [None] for [null]. *)
Definition sinceMs_of (since : option string) : option (option Z) :=
  match since with
  | Some s => if negb (String.eqb s "") then Some (Date_parse (JStr s)) else None
  | None => None
  end.

(** The callback given to [entries.filter]. *)
Definition entryMatches (fl : filters) (entry : jsval) : bool :=
  let sinceMs := sinceMs_of (f_since fl) in
  if negb (field_ok (f_project fl) entry.["project"]) then false
  else if negb (field_ok (f_agent fl) entry.["agent"]) then false
  else if negb (field_ok (f_session_id fl) entry.["session_id"]) then false
  else if negb (field_ok (f_kind fl) entry.["kind"]) then false
  else
    match sinceMs with
    | Some since =>
        let entryMs := Date_parse (js_or entry.["ts"] (JStr "")) in
        match entryMs with
        | None => false
        | Some e =>
            match since with
            | Some s => if e <? s then false else true
            | None => true
            end
        end
    | None => true
    end.

(** server.mjs:1192 *)
Definition filterEntries (entries : list jsval) (fl : filters) : list jsval :=
  List.filter (entryMatches fl) entries.
End Filter.

(** server.mjs:1214 *)
Definition selectRecent {A} (entries : list A) (limit : Z) : list A :=
  if Z.of_nat (length entries) <=? limit then entries
  else drop (Z.to_nat (Z.of_nat (length entries) - limit)) entries.

(* ===================================================================== *)
(** * Session summaries (server.mjs:1231-1361) *)
(* ===================================================================== *)

(** The object made by [makeSessionSummary]. [project] and
    [last_entry_kind] are copied from entries unchecked, so they are
    values; [latest_ts_ms] is [null] ([None]) or a finite number. *)
Record sessionSummary : Type := {
  session_id : string;
  project : jsval;
  entry_count : Z;
  note_count : Z;
  handoff_count : Z;
  latest_ts : option string;
  latest_ts_ms : option Z;
  latest_file_index : Z;
  last_entry_kind : jsval;
  task : option string;
  agents : list string;
  latest_handoff_summary : option string;
}.

(** server.mjs:1245 *)
Definition makeSessionSummary (sessionId : string) (project : jsval) : sessionSummary :=
  {| session_id := sessionId;
     project := js_or project JUndefined;
     entry_count := 0;
     note_count := 0;
     handoff_count := 0;
     latest_ts := None;
     latest_ts_ms := None;
     latest_file_index := -1;
     last_entry_kind := JUndefined;
     task := None;
     agents := [];
     latest_handoff_summary := None |}.

(** server.mjs:1262; the array is returned instead of mutated. *)
Definition pushUniqueString (target : list string) (value : jsval) : list string :=
  match value with
  | JStr s =>
      let trimmed := trim s in
      if String.eqb trimmed "" then target
      else if existsb (String.eqb trimmed) target then target
      else target ++ [trimmed]
  | _ => target
  end.

(** [{ ...summary, agents: [...summary.agents].sort() }] *)
Definition with_sorted_agents (s : sessionSummary) : sessionSummary :=
  {| session_id := session_id s; project := project s;
     entry_count := entry_count s; note_count := note_count s;
     handoff_count := handoff_count s; latest_ts := latest_ts s;
     latest_ts_ms := latest_ts_ms s; latest_file_index := latest_file_index s;
     last_entry_kind := last_entry_kind s; task := task s;
     agents := sort_strings (agents s);
     latest_handoff_summary := latest_handoff_summary s |}.

Section Summaries.
Variable Date_parse : jsval -> option Z.
(** [new Date(ms).toISOString()] *)
Variable toISOString : Z -> string.
(** [sanitizeDisplayText(value, { singleLine: true })] of lib/common.mjs,
    whose regular expressions are not modelled. *)
Variable sanitizeDisplayText : string -> string.
(** [a.localeCompare(b)] *)
Variable localeCompare : string -> string -> Z.

(** server.mjs:1231 *)
Definition truncateText (value : jsval) (maxLength : Z) : option string :=
  match value with
  | JStr s =>
      let text := trim (sanitizeDisplayText s) in
      if String.eqb text "" then None
      else if strlen text <=? maxLength then Some text
      else Some (take_str (Z.to_nat (Z.max 0 (maxLength - 3))) text ++ "...")
  | _ => None
  end.

(** server.mjs:1275. [fileIndex] is an array position or a
    [next_file_index], so [Number.isInteger(fileIndex)] holds at every
    call and both guarded assignments of [latest_file_index] happen. *)
Definition applyEntryToSessionSummary (summary : sessionSummary) (entry : jsval)
    (fileIndex : Z) : sessionSummary :=
  let kind := entry.["kind"] in
  let entryTs := match entry.["ts"] with JStr s => Some s | _ => None end in
  let entryTsMs := if nonempty entryTs then Date_parse (of_opt entryTs) else None in
  let newer :=
    match entryTsMs with
    | Some ms =>
        match latest_ts_ms summary with
        | None => true
        | Some old => old <=? ms
        end
    | None => false
    end in
  {| session_id := session_id summary;
     project :=
       if negb (truthy (project summary)) && truthy entry.["project"]
       then entry.["project"] else project summary;
     entry_count := entry_count summary + 1;
     note_count :=
       if is_str kind "note" then note_count summary + 1 else note_count summary;
     handoff_count :=
       if is_str kind "handoff" then handoff_count summary + 1
       else handoff_count summary;
     latest_ts :=
       match entryTsMs with
       | Some ms => if newer then Some (toISOString ms) else latest_ts summary
       | None =>
           if negb (nonempty (latest_ts summary)) && nonempty entryTs
           then entryTs else latest_ts summary
       end;
     latest_ts_ms :=
       match entryTsMs with
       | Some ms => if newer then Some ms else latest_ts_ms summary
       | None => latest_ts_ms summary
       end;
     latest_file_index := fileIndex;
     last_entry_kind := js_or kind (last_entry_kind summary);
     task :=
       match entry.["task"] with
       | JStr t => if negb (String.eqb (trim t) "") then Some (trim t) else task summary
       | _ => task summary
       end;
     agents := pushUniqueString (agents summary) entry.["agent"];
     latest_handoff_summary :=
       if is_str kind "handoff" then
         match truncateText entry.["summary"] 180 with
         | Some handoffSummary => Some handoffSummary
         | None => latest_handoff_summary summary
         end
       else latest_handoff_summary summary |}.

(** A number that may be [Number.NEGATIVE_INFINITY]. *)
Inductive tsKey : Type :=
| NegInf
| Fin (ms : Z).

(** server.mjs:1312 *)
Definition getSummaryLatestTsMs (summary : sessionSummary) : tsKey :=
  match latest_ts_ms summary with
  | Some ms => Fin ms
  | None =>
      match latest_ts summary with
      | Some s =>
          if negb (String.eqb s "") then
            match Date_parse (JStr s) with
            | Some parsed => Fin parsed
            | None => NegInf
            end
          else NegInf
      | None => NegInf
      end
  end.

(** The comparator given to [summaries.sort] (server.mjs:1326). The
    result is the number the callback returns, with [1] and [-1] in
    place of the infinities; a negative result puts [a] first. *)
Definition compareSummaries (a b : sessionSummary) : Z :=
  let aTs := getSummaryLatestTsMs a in
  let bTs := getSummaryLatestTsMs b in
  let aIndex := latest_file_index a in
  let bIndex := latest_file_index b in
  match bTs, aTs with
  | Fin x, Fin y =>
      if negb (x =? y) then x - y
      else if negb (bIndex =? aIndex) then bIndex - aIndex
      else localeCompare (session_id a) (session_id b)
  | Fin _, NegInf => 1
  | NegInf, Fin _ => -1
  | NegInf, NegInf =>
      if negb (bIndex =? aIndex) then bIndex - aIndex
      else localeCompare (session_id a) (session_id b)
  end.

(** server.mjs:1325 *)
Definition sortSessionSummaries (summaries : list sessionSummary) : list sessionSummary :=
  array_sort compareSummaries summaries.

(** The [Map] of [buildSessionSummaries]: insertion-ordered, updated in
    place. *)
Fixpoint map_get (k : string) (m : list (string * sessionSummary)) : option sessionSummary :=
  match m with
  | [] => None
  | (k', v) :: m' => if String.eqb k k' then Some v else map_get k m'
  end.

Fixpoint map_set (k : string) (v : sessionSummary) (m : list (string * sessionSummary))
  : list (string * sessionSummary) :=
  match m with
  | [] => [(k, v)]
  | (k', v') :: m' => if String.eqb k k' then (k, v) :: m' else (k', v') :: map_set k v m'
  end.

Definition NO_SESSION_BUCKET : string := "(no-session-id)".

(** The [entries.forEach] callback of [buildSessionSummaries]. *)
Definition summaries_step (includeUnsessioned : bool)
    (sessions : list (string * sessionSummary)) (entry : jsval) (fileIndex : Z)
  : list (string * sessionSummary) :=
  let rawSessionId := match entry.["session_id"] with JStr s => trim s | _ => "" end in
  let sessionId :=
    if negb (String.eqb rawSessionId "") then rawSessionId
    else if includeUnsessioned then NO_SESSION_BUCKET else "" in
  if String.eqb sessionId "" then sessions
  else
    let summary :=
      match map_get sessionId sessions with
      | Some s => s
      | None => makeSessionSummary sessionId entry.["project"]
      end in
    map_set sessionId (applyEntryToSessionSummary summary entry fileIndex) sessions.

Fixpoint summaries_from (includeUnsessioned : bool) (entries : list jsval) (fileIndex : Z)
    (sessions : list (string * sessionSummary)) : list (string * sessionSummary) :=
  match entries with
  | [] => sessions
  | entry :: rest =>
      summaries_from includeUnsessioned rest (fileIndex + 1)
        (summaries_step includeUnsessioned sessions entry fileIndex)
  end.

(** server.mjs:1337 *)
Definition buildSessionSummaries (entries : list jsval) (includeUnsessioned : bool)
  : list sessionSummary :=
  sortSessionSummaries
    (map (fun kv => with_sorted_agents kv.2)
       (summaries_from includeUnsessioned entries 0 [])).
End Summaries.

(* ===================================================================== *)
(** * The process and its environment *)
(* ===================================================================== *)

(** What [fs.stat] returns, as far as the code reads it. [mtimeMs] is a
    number of milliseconds with a fractional part. *)
Record stat : Type := { size : Z; mtimeMs : Q }.

(** [Math.trunc] *)
Definition Math_trunc (q : Q) : Z := Z.quot (Qnum q) (Z.pos (Qden q)).

(** [Math.floor] *)
Definition Math_floor (q : Q) : Z := Qfloor q.

(** server.mjs:786 *)
Definition makeFileSignature (st : option stat) : option string :=
  match st with
  | None => None
  | Some st => Some (pretty (size st) ++ ":" ++ pretty (Math_trunc (mtimeMs st)))
  end.

Definition handle : Type := Z.

(** The calls through which the process reaches outside itself, each with
    the type of its answer. A [result] answer is a promise that resolves or
    rejects. *)
Inductive request : Type -> Type :=
| FsStat (path : string) : request (result stat)
| FsReadFile (path : string) : request (result string)
| FsAppendFile (path data : string) : request (result unit)
| FsWriteFile (path data : string) : request (result unit)
| FsRename (from to : string) : request (result unit)
| FsMkdir (path : string) : request (result unit)
| FsUnlink (path : string) : request (result unit)
| FsOpenWx (path : string) : request (result handle)
| HandleWriteFile (h : handle) (data : string) : request (result unit)
| HandleClose (h : handle) : request (result unit)
| DateNow : request Z
| MathRandom : request Q
| Sleep (ms : Z) : request unit
| GetEnv (name : string) : request (option string)
| ProcessPid : request Z
| OsHostname : request string
| RandomUUID : request string.

(** A program: it finishes, asks the environment something and goes on
    with the answer, or is a loop cut off by its fuel. *)
Inductive io (R : Type) : Type :=
| Done (r : R)
| Spin
| Vis {X : Type} (q : request X) (k : X -> io R).
Arguments Done {R} r.
Arguments Spin {R}.
Arguments Vis {R X} q k.

Fixpoint io_bind {A B} (t : io A) (f : A -> io B) : io B :=
  match t with
  | Done a => f a
  | Spin => Spin
  | Vis q k => Vis q (fun x => io_bind (k x) f)
  end.

(** One call and its answer. *)
Inductive event : Type :=
| Ev {X : Type} (q : request X) (x : X).

(** An environment: any state machine that answers the requests. Other
    processes act through it. *)
Definition handler (S : Type) : Type := forall X, request X -> S -> X * S.

(** Running a program in an environment: the value if it finishes, the
    final state of the environment, and the calls made, in order. *)
Fixpoint run {S R} (h : handler S) (t : io R) (s : S) : option R * S * list event :=
  match t with
  | Done r => (Some r, s, [])
  | Spin => (None, s, [])
  | Vis q k =>
      let '(x, s') := h _ q s in
      let '(r, s'', tr) := run h (k x) s' in
      (r, s'', Ev q x :: tr)
  end.

(* --------------------------------------------------------------------- *)
(** ** Session index (server.mjs:980-1148) *)

Definition SESSION_INDEX_VERSION : Z := 1.

(** The index object. [projects] is a dictionary from project name to a
    dictionary from session id to summary. (The prototype chain of a
    JavaScript object, which a key such as [__proto__] would reach, is
    outside this model.) *)
Record sessionIndex : Type := {
  version : Z;
  context_signature : option string;
  next_file_index : Z;
  projects : gmap string (gmap string sessionSummary);
}.

(** server.mjs:980 *)
Definition makeSessionIndexSkeleton (contextSignature : option string) : sessionIndex :=
  {| version := SESSION_INDEX_VERSION;
     context_signature := contextSignature;
     next_file_index := 0;
     projects := ∅ |}.

Definition set_context_signature (sg : option string) (i : sessionIndex) : sessionIndex :=
  {| version := version i; context_signature := sg;
     next_file_index := next_file_index i; projects := projects i |}.

Definition set_next_file_index (n : Z) (i : sessionIndex) : sessionIndex :=
  {| version := version i; context_signature := context_signature i;
     next_file_index := n; projects := projects i |}.

Definition set_projects (p : gmap string (gmap string sessionSummary)) (i : sessionIndex)
  : sessionIndex :=
  {| version := version i; context_signature := context_signature i;
     next_file_index := next_file_index i; projects := p |}.

(* --------------------------------------------------------------------- *)
(** ** Process-local caches (server.mjs:47-57) *)

Record contextCacheT : Type := {
  signature : option string;
  raw : string;
  entries : list jsval;
  parseErrors : list parseError;
}.

Record sessionIndexCacheT : Type := {
  contextSignature : option string;
  index : option sessionIndex;
}.

Record proc : Type := {
  contextCache : contextCacheT;
  sessionIndexCache : sessionIndexCacheT;
}.

Definition emptyContextCache : contextCacheT :=
  {| signature := None; raw := ""; entries := []; parseErrors := [] |}.

Definition emptySessionIndexCache : sessionIndexCacheT :=
  {| contextSignature := None; index := None |}.

(** The module state right after start-up. *)
Definition proc0 : proc :=
  {| contextCache := emptyContextCache; sessionIndexCache := emptySessionIndexCache |}.

(* --------------------------------------------------------------------- *)
(** ** The monad of [async] functions *)

(** An [async] function: from the module state, a program that ends with
    a value or a thrown error, and the module state then. *)
Definition M (A : Type) : Type := proc -> io (result A * proc).

#[global] Instance M_ret : MRet M := fun A a p => Done (Ok a, p).
#[global] Instance M_bind : MBind M := fun A B f m p =>
  io_bind (m p) (fun rp =>
    match rp.1 with
    | Ok a => f a rp.2
    | Throw e => Done (Throw e, rp.2)
    end).

Definition throw {A} (e : exn) : M A := fun p => Done (Throw e, p).

(** [await q]: the answer as it comes. *)
Definition perform {X} (q : request X) : M X := fun p => Vis q (fun x => Done (Ok x, p)).

(** [await promise]: a rejection is thrown. *)
Definition await {A} (q : request (result A)) : M A := fun p =>
  Vis q (fun x => Done (x, p)).

(** [promise.catch(() => {})] *)
Definition await_ignore {A} (q : request (result A)) : M unit := fun p =>
  Vis q (fun _ => Done (Ok (), p)).

(** [try { m } catch (error) { handler }] *)
Definition try_catch {A} (m : M A) (handler : exn -> M A) : M A := fun p =>
  io_bind (m p) (fun rp =>
    match rp.1 with
    | Ok a => Done (Ok a, rp.2)
    | Throw e => handler e rp.2
    end).

(** [try { m } finally { f }] *)
Definition try_finally {A} (m : M A) (f : M unit) : M A := fun p =>
  io_bind (m p) (fun rp =>
    io_bind (f rp.2) (fun up =>
      match up.1 with
      | Ok _ => Done (rp.1, up.2)
      | Throw e => Done (Throw e, up.2)
      end)).

(** The result of a function that cannot throw or wait. *)
Definition lift {A} (r : result A) : M A := fun p => Done (r, p).

Definition spin {A} : M A := fun _ => Spin.

Definition get_proc : M proc := fun p => Done (Ok p, p).
Definition set_contextCache (c : contextCacheT) : M unit := fun p =>
  Done (Ok (), {| contextCache := c; sessionIndexCache := sessionIndexCache p |}).
Definition set_sessionIndexCache (c : sessionIndexCacheT) : M unit := fun p =>
  Done (Ok (), {| contextCache := contextCache p; sessionIndexCache := c |}).

(** server.mjs:804 *)
Definition invalidateContextCache : M unit := set_contextCache emptyContextCache.

(** server.mjs:811 *)
Definition invalidateSessionIndexCache : M unit := set_sessionIndexCache emptySessionIndexCache.

(** [a === b] on signatures ([string | null]). *)
Definition sig_eqb (a b : option string) : bool :=
  match a, b with
  | Some x, Some y => String.eqb x y
  | None, None => true
  | _, _ => false
  end.

(** What [readEntries] returns. *)
Record readResult : Type := {
  r_raw : string;
  r_entries : list jsval;
  r_parseErrors : list parseError;
  r_signature : option string;
}.

(** What [parseSessionListOptions] returns. *)
Record listOptions : Type := {
  o_project : string;
  o_agent : option string;
  o_since : option string;
  o_limit : Z;
  o_includeUnsessioned : bool;
  o_format : string;
}.

(** What [buildSessionListResult] returns. *)
Record sessionList : Type := {
  l_parseErrors : list parseError;
  allSessions : list sessionSummary;
  visibleSessions : list sessionSummary;
}.

(** What the [choose_session] branch of [callTool] returns; the rendering
    of the text or JSON payload is left out. *)
Inductive chooseResult : Type :=
| NoSessionAtIndex (index : Z) (count : nat) (project : string)
| SessionNotFound (wanted project : string)
| Selected (format : string) (selected : sessionSummary) (choiceIndex : option Z)
    (parseErrors : list parseError).

Definition NL : string := String LF EmptyString.

(* ===================================================================== *)
(** * The server *)
(* ===================================================================== *)

Section Server.
(** Configuration read once at start-up (server.mjs:12-39). *)
Variable CONTEXT_FILE : string.
(** [path.dirname(CONTEXT_FILE)] *)
Variable CONTEXT_DIR : string.
Variable ACTIVE_SESSION_FILE : string.
(** [path.dirname(ACTIVE_SESSION_FILE)] *)
Variable ACTIVE_SESSION_DIR : string.
Variable DEFAULT_PROJECT : string.
Variable MAX_CONTEXT_FILE_BYTES : Z.

(** Builtins. *)
Variable JSON_parse : string -> jsval + string.
Variable JSON_stringify : jsval -> string.
Variable Date_parse : jsval -> option Z.
Variable toISOString : Z -> string.
Variable sanitizeDisplayText : string -> string.
Variable localeCompare : string -> string -> Z.
(** [JSON.stringify(index)], and [normalizeSessionIndex(JSON.parse(text))]
    with [None] when either throws or answers [null]. *)
Variable encodeSessionIndex : sessionIndex -> string.
Variable decodeSessionIndex : string -> option sessionIndex.
(** [JSON.stringify({ pid, host, created_at })] *)
Variable lockMetadata : Z -> string -> string -> string.

Definition LOCK_FILE : string := CONTEXT_FILE ++ ".lock".
Definition SESSION_INDEX_FILE : string := CONTEXT_FILE ++ ".sessions-index.json".
Definition MAX_LOCK_WAIT_MS : Z := 5000.
Definition STALE_LOCK_MS : Z := 30000.

Local Abbreviation applyEntryToSessionSummary :=
  (applyEntryToSessionSummary Date_parse toISOString sanitizeDisplayText).
Local Abbreviation buildSessionSummaries :=
  (buildSessionSummaries Date_parse toISOString sanitizeDisplayText localeCompare).
Local Abbreviation sortSessionSummaries := (sortSessionSummaries Date_parse localeCompare).
Local Abbreviation filterEntries := (filterEntries Date_parse).
Local Abbreviation parseEntries := (parseEntries JSON_parse).

(* ------------------------------------------------------------------- *)
(** ** Session resolution (server.mjs:743-784) *)

(** server.mjs:743 *)
Definition readActiveSessionId : M (option string) :=
  env ← perform (GetEnv "MCP_SHARED_CONTEXT_ACTIVE_SESSION");
  envSessionId ← lift (normalizeSessionId (of_opt env));
  if nonempty envSessionId then mret envSessionId
  else
    try_catch
      (text ← await (FsReadFile ACTIVE_SESSION_FILE);
       lift (normalizeSessionId (JStr text)))
      (fun error => if has_code error "ENOENT" then mret None else throw error).

(** server.mjs:760 *)
Definition writeActiveSessionId (sessionId : string) : M unit :=
  normalized ← lift (normalizeSessionId (JStr sessionId));
  match normalized with
  | None => throw (Error "Cannot persist empty session_id")
  | Some normalized =>
      await (FsMkdir ACTIVE_SESSION_DIR);;
      await (FsWriteFile ACTIVE_SESSION_FILE (normalized ++ NL))
  end.

Definition MissingSessionId_message : string :=
  "Missing session_id. Choose one with list_sessions/choose_session (or run pick-session.mjs) and try again.".

(** server.mjs:769 *)
Definition resolveSessionIdInput (value : jsval) (required : bool) : M (option string) :=
  explicit ← lift (normalizeSessionId value);
  if nonempty explicit then mret explicit
  else
    active ← readActiveSessionId;
    if nonempty active then mret active
    else if required then throw (Error MissingSessionId_message)
    else mret None.

(* ------------------------------------------------------------------- *)
(** ** Lock manager (server.mjs:816-872) *)

(** server.mjs:793 *)
Definition statContextFile : M (option stat) :=
  try_catch
    (st ← await (FsStat CONTEXT_FILE); mret (Some st))
    (fun error => if has_code error "ENOENT" then mret None else throw error).

(** server.mjs:816 *)
Definition ensureContextDirectory : M unit := await (FsMkdir CONTEXT_DIR).

(** server.mjs:820 *)
Definition sleep (ms : Z) : M unit := perform (Sleep ms).

(** [Date.now() - stat.mtimeMs > STALE_LOCK_MS] *)
Definition isStale (now : Z) (st : stat) : bool :=
  negb (Qle_bool (inject_Z now - mtimeMs st) (inject_Z STALE_LOCK_MS)).

(** server.mjs:824 *)
Definition maybeBreakStaleLock : M unit :=
  try_catch
    (st ← await (FsStat LOCK_FILE);
     now ← perform DateNow;
     if isStale now st then await_ignore (FsUnlink LOCK_FILE) else mret ())
    (fun error => if negb (has_code error "ENOENT") then throw error else mret ()).

Definition LockTimeout_message : string :=
  "Timed out waiting for context lock (" ++ LOCK_FILE ++ ")".

(** [40 + Math.floor(Math.random() * 60)] *)
Definition backoff (random : Q) : Z := 40 + Math_floor (random * inject_Z 60).

(** The [catch (error)] block of [withWriteLock]; [retry] is the
    [continue]. [handle] is the variable of that name: set once
    [fs.open] has resolved. *)
Definition lock_catch {A} (start : Z) (retry : M A) (handle : option handle) (error : exn)
  : M A :=
  match handle with
  | Some h => await_ignore (HandleClose h)
  | None => mret ()
  end;;
  if has_code error "EEXIST" then
    now ← perform DateNow;
    if MAX_LOCK_WAIT_MS <? now - start then throw (Error LockTimeout_message)
    else
      maybeBreakStaleLock;;
      random ← perform MathRandom;
      sleep (backoff random);;
      retry
  else throw error.

(** The body of the [while (true)] loop of [withWriteLock]; [retry] is
    what [continue] leads to. *)
Definition lock_turn {A} (start : Z) (fn : M A) (retry : M A) : M A :=
  opened ← perform (FsOpenWx LOCK_FILE);
  match opened with
  | Throw error => lock_catch start retry None error
  | Ok h =>
      try_catch
        (pid ← perform ProcessPid;
         host ← perform OsHostname;
         created ← perform DateNow;
         await (HandleWriteFile h (lockMetadata pid host (toISOString created)));;
         try_finally fn
           (await_ignore (HandleClose h);; await_ignore (FsUnlink LOCK_FILE)))
        (lock_catch start retry (Some h))
  end.

(** The loop, for at most [fuel] iterations. *)
Fixpoint withWriteLock_loop {A} (fuel : nat) (start : Z) (fn : M A) : M A :=
  match fuel with
  | O => spin
  | S fuel' => lock_turn start fn (withWriteLock_loop fuel' start fn)
  end.

(** server.mjs:837 *)
Definition withWriteLock {A} (fuel : nat) (fn : M A) : M A :=
  start ← perform DateNow;
  withWriteLock_loop fuel start fn.

(* ------------------------------------------------------------------- *)
(** ** Reading the log (server.mjs:890-978) *)

Definition SizeExceeded_message : string :=
  "Context file exceeds configured max size (" ++ pretty MAX_CONTEXT_FILE_BYTES
    ++ " bytes): " ++ CONTEXT_FILE.

(** server.mjs:890 *)
Definition readRawContextFile : M string :=
  try_catch
    (st ← await (FsStat CONTEXT_FILE);
     if MAX_CONTEXT_FILE_BYTES <? size st then throw (Error SizeExceeded_message)
     else await (FsReadFile CONTEXT_FILE))
    (fun error => if has_code error "ENOENT" then mret "" else throw error).

Definition cached_result (c : contextCacheT) : readResult :=
  {| r_raw := raw c; r_entries := entries c; r_parseErrors := parseErrors c;
     r_signature := signature c |}.

(** The [for (let attempt = 0; attempt < 2; attempt += 1)] loop of
    [readEntries] with [n] iterations left, followed by the statements
    after it. *)
Fixpoint readEntries_loop (n : nat) (attempt : Z) : M readResult :=
  match n with
  | O =>
      raw ← readRawContextFile;
      let '(entries, parseErrors) := parseEntries raw in
      mret {| r_raw := raw; r_entries := entries; r_parseErrors := parseErrors;
              r_signature := None |}
  | S n' =>
      beforeStat ← statContextFile;
      let beforeSignature := makeFileSignature beforeStat in
      p ← get_proc;
      if nonempty beforeSignature && sig_eqb (signature (contextCache p)) beforeSignature
      then mret (cached_result (contextCache p))
      else
        match beforeStat with
        | None =>
            invalidateContextCache;;
            mret {| r_raw := ""; r_entries := []; r_parseErrors := []; r_signature := None |}
        | Some st =>
            if MAX_CONTEXT_FILE_BYTES <? size st then throw (Error SizeExceeded_message)
            else
              raw ← await (FsReadFile CONTEXT_FILE);
              afterStat ← statContextFile;
              let afterSignature := makeFileSignature afterStat in
              if nonempty beforeSignature && nonempty afterSignature
                 && negb (sig_eqb beforeSignature afterSignature) && (attempt =? 0)
              then readEntries_loop n' (attempt + 1)
              else
                let '(entries, parseErrors) := parseEntries raw in
                (if nonempty afterSignature && nonempty beforeSignature
                    && sig_eqb beforeSignature afterSignature
                 then set_contextCache
                        {| signature := afterSignature; raw := raw; entries := entries;
                           parseErrors := parseErrors |}
                 else invalidateContextCache);;
                mret {| r_raw := raw; r_entries := entries; r_parseErrors := parseErrors;
                        r_signature :=
                          if nonempty beforeSignature && sig_eqb beforeSignature afterSignature
                          then afterSignature else None |}
        end
  end.

(** server.mjs:929 *)
Definition readEntries : M readResult := readEntries_loop 2 0.

(* ------------------------------------------------------------------- *)
(** ** Session index maintenance (server.mjs:1057-1190) *)

(** server.mjs:1109 *)
Definition getSessionProject (entry : jsval) : string :=
  match entry.["project"] with
  | JStr s => if negb (String.eqb (trim s) "") then trim s else DEFAULT_PROJECT
  | _ => DEFAULT_PROJECT
  end.

(** server.mjs:1116. The index is mutated in place; the first component
    is the index after the call, also when [normalizeSessionId] throws,
    which happens after [next_file_index] has been advanced.
    [index.next_file_index || 0] is [next_file_index] itself. *)
Definition applyEntryToSessionIndex (index : sessionIndex) (entry : jsval) (fileIndex : Z)
  : sessionIndex * result unit :=
  let index :=
    if 0 <=? fileIndex
    then set_next_file_index (Z.max (next_file_index index) (fileIndex + 1)) index
    else index in
  match normalizeSessionId entry.["session_id"] with
  | Throw e => (index, Throw e)
  | Ok None => (index, Ok ())
  | Ok (Some sessionId) =>
      let project := getSessionProject entry in
      let bucket := default ∅ (projects index !! project) in
      let summary :=
        default (makeSessionSummary sessionId (JStr project)) (bucket !! sessionId) in
      let summary := applyEntryToSessionSummary summary entry fileIndex in
      let summary := with_sorted_agents summary in
      (set_projects (<[project := <[sessionId := summary]> bucket]> (projects index)) index,
       Ok ())
  end.

(** The [entries.forEach] of [buildSessionIndexFromEntries] from position
    [fileIndex] on. *)
Fixpoint buildIndex_from (entries : list jsval) (fileIndex : Z) (index : sessionIndex)
  : result sessionIndex :=
  match entries with
  | [] => Ok index
  | entry :: rest =>
      match applyEntryToSessionIndex index entry fileIndex with
      | (index', Ok _) => buildIndex_from rest (fileIndex + 1) index'
      | (_, Throw e) => Throw e
      end
  end.

(** server.mjs:1139 *)
Definition buildSessionIndexFromEntries (entries : list jsval)
    (contextSignature : option string) : result sessionIndex :=
  index ← buildIndex_from entries 0 (makeSessionIndexSkeleton contextSignature);
  let len := Z.of_nat (length entries) in
  Ok (if next_file_index index <? len then set_next_file_index len index else index).

(** server.mjs:1150. [Object.values] lists a bucket in insertion order
    and [map_to_list] in key order; the sort that follows hides the
    difference unless two summaries compare equal. *)
Definition listProjectSessionsFromIndex (index : option sessionIndex) (project : string)
  : list sessionSummary :=
  match index with
  | None => []
  | Some index =>
      match projects index !! project with
      | None => []
      | Some bucket =>
          sortSessionSummaries
            (map (fun kv => with_sorted_agents kv.2) (map_to_list bucket))
      end
  end.

(** server.mjs:1057 *)
Definition readSessionIndexFile : M (option sessionIndex) :=
  r ← perform (FsReadFile SESSION_INDEX_FILE);
  match r with
  | Ok text => mret (decodeSessionIndex text)
  | Throw _ => mret None
  end.

(** server.mjs:1070 *)
Definition writeSessionIndexFile (index : sessionIndex) : M unit :=
  ensureContextDirectory;;
  pid ← perform ProcessPid;
  uuid ← perform RandomUUID;
  let tmpPath := SESSION_INDEX_FILE ++ "." ++ pretty pid ++ "." ++ take_str 8 uuid ++ ".tmp" in
  await (FsWriteFile tmpPath (encodeSessionIndex index ++ NL));;
  await (FsRename tmpPath SESSION_INDEX_FILE).

(** server.mjs:1077 *)
Definition loadSessionIndex (expectedContextSignature : option string)
  : M (option sessionIndex) :=
  if negb (nonempty expectedContextSignature) then mret None
  else
    p ← get_proc;
    let c := sessionIndexCache p in
    let hit :=
      match index c with
      | Some i =>
          sig_eqb (contextSignature c) expectedContextSignature
          && sig_eqb (context_signature i) expectedContextSignature
      | None => false
      end in
    if hit then mret (index c)
    else
      index ← readSessionIndexFile;
      match index with
      | Some i =>
          if negb (sig_eqb (context_signature i) expectedContextSignature)
          then invalidateSessionIndexCache;; mret None
          else
            set_sessionIndexCache
              {| contextSignature := expectedContextSignature; index := Some i |};;
            mret (Some i)
      | None => invalidateSessionIndexCache;; mret None
      end.

(** server.mjs:1099 *)
Definition persistSessionIndex (index : sessionIndex) : M unit :=
  try_catch
    (writeSessionIndexFile index;;
     set_sessionIndexCache
       {| contextSignature := context_signature index; index := Some index |})
    (fun _ => invalidateSessionIndexCache).

(** The index that [loadSessionIndex] hands out is the object held in
    [sessionIndexCache.index]: an assignment to it is seen through the
    cache. [shared] tells whether [index] is that object. *)
Definition write_through (shared : bool) (index : sessionIndex) : M unit :=
  if shared then
    p ← get_proc;
    set_sessionIndexCache
      {| contextSignature := contextSignature (sessionIndexCache p); index := Some index |}
  else mret ().

(** server.mjs:1165 *)
Definition tryUpdateSessionIndexOnAppend (entry : jsval)
    (beforeSignature afterSignature : option string) : M unit :=
  if negb (nonempty afterSignature) then invalidateSessionIndexCache
  else
    loaded ←
      (if negb (nonempty beforeSignature)
       then mret (Some (makeSessionIndexSkeleton afterSignature, false))
       else
         index ← loadSessionIndex beforeSignature;
         match index with
         | None => invalidateSessionIndexCache;; mret None
         | Some index =>
             let index := set_context_signature afterSignature index in
             write_through true index;;
             mret (Some (index, true))
         end);
    match loaded with
    | None => mret ()
    | Some (index, shared) =>
        let fileIndex := if 0 <=? next_file_index index then next_file_index index else 0 in
        let '(index, applied) := applyEntryToSessionIndex index entry fileIndex in
        write_through shared index;;
        lift applied;;
        let index :=
          if next_file_index index <? fileIndex + 1
          then set_next_file_index (fileIndex + 1) index else index in
        write_through shared index;;
        persistSessionIndex index
    end.

(* ------------------------------------------------------------------- *)
(** ** Writing (server.mjs:874-888) *)

(** The critical section of [appendEntry]. *)
Definition appendEntry_locked (entry : jsval) (line : string) : M unit :=
  beforeStat ← statContextFile;
  let beforeSignature := makeFileSignature beforeStat in
  await (FsAppendFile CONTEXT_FILE line);;
  afterStat ← statContextFile;
  let afterSignature := makeFileSignature afterStat in
  try_catch
    (tryUpdateSessionIndexOnAppend entry beforeSignature afterSignature)
    (fun _ => invalidateSessionIndexCache).

(** server.mjs:874 *)
Definition appendEntry (fuel : nat) (entry : jsval) : M unit :=
  ensureContextDirectory;;
  let line := JSON_stringify entry ++ NL in
  withWriteLock fuel (appendEntry_locked entry line);;
  invalidateContextCache.

(* ------------------------------------------------------------------- *)
(** ** Listing and choosing sessions (server.mjs:1393-1462, 1718-1783) *)

(** server.mjs:643 *)
Definition asIsoDateOrUndefined (value : jsval) (name : string) : result (option string) :=
  text ← asString value name false true;
  if negb (nonempty text) then Ok None
  else
    match Date_parse (of_opt text) with
    | None => Throw (Error ("Invalid date for " ++ name ++ "; expected ISO-8601"))
    | Some ms => Ok (Some (toISOString ms))
    end.

(** server.mjs:655 *)
Definition normalizeProject (project : option string) : string :=
  match project with
  | Some s => if negb (String.eqb (trim s) "") then trim s else DEFAULT_PROJECT
  | None => DEFAULT_PROJECT
  end.

(** server.mjs:1393 *)
Definition parseSessionListOptions (args : jsval) : result listOptions :=
  project ← asString args.["project"] "project" false true;
  agent ← asString args.["agent"] "agent" false true;
  since ← asIsoDateOrUndefined args.["since"] "since";
  limit ← asPositiveInt args.["limit"] "limit" (Some 20) 1 200;
  includeUnsessioned ← asBoolean args.["include_unsessioned"] "include_unsessioned" false;
  format ← normalizeFormat args.["format"];
  Ok {| o_project := normalizeProject project; o_agent := agent; o_since := since;
        o_limit := default 20 limit; o_includeUnsessioned := includeUnsessioned;
        o_format := format |}.

(** [!options.agent && !options.since && !options.includeUnsessioned] *)
Definition canUseIndex (options : listOptions) : bool :=
  negb (nonempty (o_agent options)) && negb (nonempty (o_since options))
  && negb (o_includeUnsessioned options).

Definition list_filters (options : listOptions) : filters :=
  {| f_project := Some (o_project options); f_agent := o_agent options;
     f_session_id := None; f_kind := None; f_since := o_since options |}.

(** [arr.slice(0, limit)] for [0 <= limit] *)
Definition slice0 {A} (l : list A) (limit : Z) : list A := take (Z.to_nat limit) l.

(** The last statements of [buildSessionListResult]: the full scan. *)
Definition fullScan (options : listOptions) : M sessionList :=
  r ← readEntries;
  let filtered := filterEntries (r_entries r) (list_filters options) in
  let allSessions := buildSessionSummaries filtered (o_includeUnsessioned options) in
  mret {| l_parseErrors := r_parseErrors r; allSessions := allSessions;
          visibleSessions := slice0 allSessions (o_limit options) |}.

(** server.mjs:1404 *)
Definition buildSessionListResult (options : listOptions) : M sessionList :=
  if canUseIndex options then
    st ← statContextFile;
    let contextSignature := makeFileSignature st in
    if negb (nonempty contextSignature)
    then mret {| l_parseErrors := []; allSessions := []; visibleSessions := [] |}
    else
      indexed ← loadSessionIndex contextSignature;
      match indexed with
      | Some _ =>
          let allSessions := listProjectSessionsFromIndex indexed (o_project options) in
          mret {| l_parseErrors := []; allSessions := allSessions;
                  visibleSessions := slice0 allSessions (o_limit options) |}
      | None =>
          r ← readEntries;
          let filtered := filterEntries (r_entries r) (list_filters options) in
          let allSessions := buildSessionSummaries filtered (o_includeUnsessioned options) in
          let indexSignature :=
            if nonempty (r_signature r) then r_signature r else contextSignature in
          (if nonempty indexSignature then
             rebuiltIndex ← lift (buildSessionIndexFromEntries (r_entries r) indexSignature);
             persistSessionIndex rebuiltIndex
           else mret ());;
          mret {| l_parseErrors := r_parseErrors r; allSessions := allSessions;
                  visibleSessions := slice0 allSessions (o_limit options) |}
      end
  else fullScan options.

(** [visibleSessions[index - 1] || null] *)
Definition nth_session (l : list sessionSummary) (i : Z) : option sessionSummary :=
  if i <? 0 then None else l !! Z.to_nat i.

(** The branch [name === "choose_session"] of [callTool]
    (server.mjs:1718). *)
Definition callTool_choose_session (rawArgs : jsval) : M chooseResult :=
  let args := if isObject rawArgs then rawArgs else JObj [] in
  options ← lift (parseSessionListOptions args);
  index ← lift (asPositiveInt args.["index"] "index" None 1 200);
  session_id_ ← lift (asString args.["session_id"] "session_id" false true);
  let hasIndex := bool_decide (is_Some index) in
  let hasSessionIdArg := bool_decide (is_Some session_id_) in
  if negb hasIndex && negb hasSessionIdArg
  then throw (Error "choose_session requires either index or session_id")
  else if hasIndex && hasSessionIdArg
  then throw (Error "choose_session accepts either index or session_id, not both")
  else
    l ← buildSessionListResult options;
    let choice :=
      match index with
      | Some i =>
          match nth_session (visibleSessions l) (i - 1) with
          | Some selected => inr selected
          | None => inl (NoSessionAtIndex i (length (visibleSessions l)) (o_project options))
          end
      | None =>
          let wanted := default "" session_id_ in
          match List.find (fun s => String.eqb (session_id s) wanted) (allSessions l) with
          | Some selected => inr selected
          | None => inl (SessionNotFound wanted (o_project options))
          end
      end in
    match choice with
    | inl notFound => mret notFound
    | inr selected =>
        writeActiveSessionId (session_id selected);;
        mret (Selected (o_format options) selected index (l_parseErrors l))
    end.
End Server.

(* ===================================================================== *)
(** * Vocabulary of the properties *)
(* ===================================================================== *)

(** ** Lines *)

Fixpoint has_LF (s : string) : bool :=
  match s with
  | EmptyString => false
  | String c s' => Ascii.eqb c LF || has_LF s'
  end.

Fixpoint ends_with_CR (s : string) : bool :=
  match s with
  | EmptyString => false
  | String c EmptyString => Ascii.eqb c CR
  | String _ s' => ends_with_CR s'
  end.

(** The lines of a text with their 0-based positions. *)
Definition numbered (lines : list string) : list (nat * string) :=
  zip (seq 0 (length lines)) lines.

(** How many parse errors carry the line number [n]. *)
Definition errors_at (n : Z) (errs : list parseError) : nat :=
  length (List.filter (fun pe => line pe =? n) errs).

(** The double quote. *)
Definition dq : string := String (ascii_of_nat 34) EmptyString.

(** A stand-in for [JSON.parse] on the handful of texts used in the
    examples. *)
Definition demo_JSON_parse (s : string) : jsval + string :=
  if String.eqb s "{}" then inl (JObj [])
  else if String.eqb s ("{" ++ dq ++ "a" ++ dq ++ ":1}") then inl (JObj [("a", JNum 1)])
  else if String.eqb s "[1]" then inl (JArr [JNum 1])
  else if String.eqb s "7" then inl (JNum 7)
  else inr "SyntaxError: Unexpected token".

(** ** Filters *)

(** A filter field is present when it is given and not empty (the code
    tests its truthiness). *)
Definition present (f : option string) (s : string) : Prop := f = Some s /\ s <> "".

Section FilterSpec.
Variable Date_parse : jsval -> option Z.

(** The entry's parsed timestamp: [Date.parse(entry.ts || "")]. *)
Definition entry_ms (entry : jsval) : option Z :=
  Date_parse (js_or entry.["ts"] (JStr "")).

(** The matching rule in the words of the specification. *)
Definition Matches (fl : filters) (entry : jsval) : Prop :=
  (forall s, present (f_project fl) s -> entry.["project"] = JStr s)
  /\ (forall s, present (f_agent fl) s -> entry.["agent"] = JStr s)
  /\ (forall s, present (f_session_id fl) s -> entry.["session_id"] = JStr s)
  /\ (forall s, present (f_kind fl) s -> entry.["kind"] = JStr s)
  /\ (forall s, present (f_since fl) s ->
        exists entryMs, entry_ms entry = Some entryMs
          /\ forall sinceMs, Date_parse (JStr s) = Some sinceMs -> sinceMs <= entryMs).
End FilterSpec.

(** A stand-in for [Date.parse] on a few timestamps: milliseconds since
    midnight. *)
Definition demo_Date_parse (v : jsval) : option Z :=
  match v with
  | JStr s =>
      if String.eqb s "2024-01-01T10:00:00.000Z" then Some 36000000
      else if String.eqb s "2024-01-01T10:05:00.000Z" then Some 36300000
      else if String.eqb s "2024-01-01T10:10:00.000Z" then Some 36600000
      else None
  | _ => None
  end.

Definition demo_entry (ts : string) : jsval :=
  JObj [("ts", JStr ts); ("kind", JStr "note"); ("project", JStr "shared");
        ("agent", JStr "codex"); ("session_id", JStr "s1")].

Definition since_filter (since : string) : filters :=
  {| f_project := Some "shared"; f_agent := None; f_session_id := None; f_kind := None;
     f_since := Some since |}.

(** ** Order of a session listing *)

Definition ts_lt (a b : tsKey) : Prop :=
  match a, b with
  | NegInf, Fin _ => True
  | Fin x, Fin y => x < y
  | _, _ => False
  end.

Section SortSpec.
Variable Date_parse : jsval -> option Z.
Variable localeCompare : string -> string -> Z.

(** [a] may be listed before [b]: its latest timestamp is later; or the
    timestamps are equal and its latest file index is larger; or both are
    equal and its session id does not come after the one of [b]. *)
Definition listedBefore (a b : sessionSummary) : Prop :=
  let ta := getSummaryLatestTsMs Date_parse a in
  let tb := getSummaryLatestTsMs Date_parse b in
  ts_lt tb ta
  \/ (ta = tb
      /\ (latest_file_index b < latest_file_index a
          \/ (latest_file_index a = latest_file_index b
              /\ localeCompare (session_id a) (session_id b) <= 0))).
End SortSpec.

(** A summary with the given id, latest timestamp and latest file index. *)
Definition summary_at (id : string) (ts idx : Z) : sessionSummary :=
  {| session_id := id; project := JStr "shared"; entry_count := 1; note_count := 1;
     handoff_count := 0; latest_ts := None; latest_ts_ms := Some ts;
     latest_file_index := idx; last_entry_kind := JStr "note"; task := None;
     agents := []; latest_handoff_summary := None |}.

(** A stand-in for [localeCompare]: comparison by code units. *)
Definition demo_localeCompare (a b : string) : Z := compareStrings a b.

(** ** Session resolution *)

Definition ENV_ACTIVE_SESSION : string := "MCP_SHARED_CONTEXT_ACTIVE_SESSION".

(** A source of a session id gives [id]: it is a string that is not blank,
    and [id] is that string without the white space around it. *)
Definition gives (v : jsval) (id : string) : Prop :=
  exists s, v = JStr s /\ trim s <> "" /\ id = trim s.

(** A source gives nothing: it is [undefined], [null] or a blank string. *)
Definition gives_nothing (v : jsval) : Prop :=
  v = JUndefined \/ v = JNull \/ exists s, v = JStr s /\ trim s = "".

(** The persisted pointer is absent: the file does not exist or is blank. *)
Definition pointer_absent (file : result string) : Prop :=
  (exists e, file = Throw e /\ has_code e "ENOENT" = true)
  \/ (exists text, file = Ok text /\ trim text = "").

(** The value or error a run ends with, if it ends. *)
Definition outcome_of {S R} (x : option R * S * list event) : option R := x.1.1.
Definition trace_of {S R} (x : option R * S * list event) : list event := x.2.

(** An environment for the examples of session resolution: the state
    holds the environment variable and the content of the pointer file. *)
Definition demo_session_env : handler (option string * result string) := fun X q s =>
  match q in request X return X * (option string * result string) with
  | FsStat _ => (Throw (SystemError "ENOENT"), s)
  | FsReadFile _ => (s.2, s)
  | FsAppendFile _ _ => (Ok (), s)
  | FsWriteFile _ _ => (Ok (), s)
  | FsRename _ _ => (Ok (), s)
  | FsMkdir _ => (Ok (), s)
  | FsUnlink _ => (Ok (), s)
  | FsOpenWx _ => (Ok 3, s)
  | HandleWriteFile _ _ => (Ok (), s)
  | HandleClose _ => (Ok (), s)
  | DateNow => (0, s)
  | MathRandom => (0%Q, s)
  | Sleep _ => ((), s)
  | GetEnv _ => (s.1, s)
  | ProcessPid => (1, s)
  | OsHostname => ("host", s)
  | RandomUUID => ("00000000-0000-4000-8000-000000000000", s)
  end.

(** ** Tool arguments *)

(** An argument is supplied when it is neither [undefined] nor [null]. *)
Definition supplied (v : jsval) : bool :=
  match v with
  | JUndefined | JNull => false
  | _ => true
  end.

(** A validation error: a plain [Error] with a message, not a failure of
    the file system. *)
Definition ValidationError (e : exn) : Prop := exists msg, e = Error msg.

(** ** Executions *)

(** [exec t tr r]: answered as recorded in [tr], the program [t] makes
    exactly the calls of [tr] and ends with [r]. *)
Fixpoint exec {R} (t : io R) (tr : list event) (r : R) : Prop :=
  match t with
  | Done r' => tr = [] /\ r' = r
  | Spin => False
  | Vis q k => exists x tr', tr = Ev q x :: tr' /\ exec (k x) tr' r
  end.

(** [sat Asm t Post]: whatever the answers, as long as each of them meets
    the assumption [Asm], if [t] ends then its trace and its result meet
    [Post]. *)
Fixpoint sat {R} (Asm : event -> Prop) (t : io R) (Post : list event -> R -> Prop) : Prop :=
  match t with
  | Done r => Post [] r
  | Spin => True
  | Vis q k => forall x, Asm (Ev q x) -> sat Asm (k x) (fun tr r => Post (Ev q x :: tr) r)
  end.

(** No assumption on the environment. *)
Definition any_answer (e : event) : Prop := True.

(** An environment whose answers all meet [Asm]. *)
Definition answers {S} (Asm : event -> Prop) (h : handler S) : Prop :=
  forall X (q : request X) s, Asm (Ev q (h X q s).1).

(** ** Demonstration configuration *)

Definition demo_encode (i : sessionIndex) : string := "index".
Definition demo_decode (text : string) : option sessionIndex := None.
Definition demo_toISOString (ms : Z) : string := pretty ms.
Definition demo_sanitize (s : string) : string := s.
Definition demo_JSON_stringify (v : jsval) : string := "{}".
Definition demo_lockMetadata (pid : Z) (host created : string) : string := host.

(** ** Read cache *)

Definition with_contextCache (c : contextCacheT) (p : proc) : proc :=
  {| contextCache := c; sessionIndexCache := sessionIndexCache p |}.

Definition with_sessionIndexCache (c : sessionIndexCacheT) (p : proc) : proc :=
  {| contextCache := contextCache p; sessionIndexCache := c |}.

Section CacheSpec.
Variable CONTEXT_FILE : string.
Variable JSON_parse : string -> jsval + string.

(** Somewhere in the trace the content [raw] was read from the log
    between two [stat] calls that both gave the signature [sg]. *)
Inductive observed_between (sg raw : string) : list event -> Prop :=
| observed_here st1 st2 tr :
    makeFileSignature (Some st1) = Some sg ->
    makeFileSignature (Some st2) = Some sg ->
    observed_between sg raw
      (Ev (FsStat CONTEXT_FILE) (Ok st1) :: Ev (FsReadFile CONTEXT_FILE) (Ok raw)
         :: Ev (FsStat CONTEXT_FILE) (Ok st2) :: tr)
| observed_later e tr :
    observed_between sg raw tr -> observed_between sg raw (e :: tr).

(** The cache holds a signature, and with it the content that was read
    under that signature during [tr], parsed. *)
Definition filled_from (tr : list event) (c : contextCacheT) : Prop :=
  exists sg, signature c = Some sg
    /\ observed_between sg (raw c) tr
    /\ (entries c, parseErrors c) = parseEntries JSON_parse (raw c).

(** What a read may do to the cache. *)
Definition cache_effect (tr : list event) (before after : contextCacheT) : Prop :=
  after = before \/ after = emptyContextCache \/ filled_from tr after.

(** What a read may return: without a signature, anything; with the
    signature [sg], either the cached content when the cache held [sg],
    or content read under [sg] during [tr]. *)
Definition result_sound (tr : list event) (before : contextCacheT) (res : readResult) : Prop :=
  match r_signature res with
  | None => True
  | Some sg =>
      (res = {| r_raw := raw before; r_entries := entries before;
                r_parseErrors := parseErrors before; r_signature := signature before |}
       /\ signature before = Some sg)
      \/ (observed_between sg (r_raw res) tr
          /\ (r_entries res, r_parseErrors res) = parseEntries JSON_parse (r_raw res))
  end.

(** The cache does not hold the signature of [st]. *)
Definition miss (p : proc) (st : stat) : Prop :=
  signature (contextCache p) <> makeFileSignature (Some st).

(** Content just read and parsed, under the signature [sg] if any. *)
Definition fresh_result (raw : string) (sg : option string) : readResult :=
  {| r_raw := raw; r_entries := (parseEntries JSON_parse raw).1;
     r_parseErrors := (parseEntries JSON_parse raw).2; r_signature := sg |}.

Definition filled_cache (raw : string) (sg : option string) : contextCacheT :=
  {| signature := sg; raw := raw; entries := (parseEntries JSON_parse raw).1;
     parseErrors := (parseEntries JSON_parse raw).2 |}.

(** A call that only looks at the log file. *)
Definition log_access (e : event) : Prop :=
  match e with
  | Ev q _ =>
      match q with
      | FsStat path => path = CONTEXT_FILE
      | FsReadFile path => path = CONTEXT_FILE
      | _ => False
      end
  end.
End CacheSpec.

(** A scripted file system for the examples: each [stat] and each read
    takes the next prepared answer. *)
Definition demo_fs_env : handler (list (result stat) * list (result string)) := fun X q s =>
  match q in request X return X * (list (result stat) * list (result string)) with
  | FsStat _ =>
      match s.1 with
      | a :: rest => (a, (rest, s.2))
      | [] => (Throw (SystemError "ENOENT"), s)
      end
  | FsReadFile _ =>
      match s.2 with
      | a :: rest => (a, (s.1, rest))
      | [] => (Throw (SystemError "ENOENT"), s)
      end
  | FsAppendFile _ _ => (Ok (), s)
  | FsWriteFile _ _ => (Ok (), s)
  | FsRename _ _ => (Ok (), s)
  | FsMkdir _ => (Ok (), s)
  | FsUnlink _ => (Ok (), s)
  | FsOpenWx _ => (Ok 3, s)
  | HandleWriteFile _ _ => (Ok (), s)
  | HandleClose _ => (Ok (), s)
  | DateNow => (0, s)
  | MathRandom => (0%Q, s)
  | Sleep _ => ((), s)
  | GetEnv _ => (None, s)
  | ProcessPid => (1, s)
  | OsHostname => ("host", s)
  | RandomUUID => ("00000000-0000-4000-8000-000000000000", s)
  end.

(** The log before and after a concurrent append of one line. *)
Definition stat_before : stat := {| size := 3; mtimeMs := 2001 # 2 |}.
Definition stat_after : stat := {| size := 6; mtimeMs := 1002 # 1 |}.
Definition stat_later : stat := {| size := 9; mtimeMs := 1003 # 1 |}.
Definition raw_before : string := "{}" ++ NL.
Definition raw_after : string := "{}" ++ NL ++ "{}" ++ NL.

(** ** Lock *)

(** [always Asm t P]: whatever the answers, as long as each meets [Asm],
    every call [t] makes, with its answer, meets [P], whether or not [t]
    ends. *)
Fixpoint always {R} (Asm : event -> Prop) (t : io R) (P : event -> Prop) : Prop :=
  match t with
  | Done _ => True
  | Spin => True
  | Vis q k => forall x, Asm (Ev q x) -> P (Ev q x) /\ always Asm (k x) P
  end.

(** The lock marker is never created: every exclusive creation is refused
    because the file exists. *)
Definition lock_denied (e : event) : Prop :=
  match e with
  | Ev q x =>
      match q in request X return X -> Prop with
      | FsOpenWx _ => fun x => exists err, x = Throw err /\ has_code err "EEXIST" = true
      | _ => fun _ => True
      end x
  end.

(** A call that does not write: no append, no file written or renamed. *)
Definition writes_nothing (e : event) : Prop :=
  match e with
  | Ev q _ =>
      match q with
      | FsAppendFile _ _ | FsWriteFile _ _ | FsRename _ _ | HandleWriteFile _ _ => False
      | _ => True
      end
  end.

(** [Date.now() - stat.mtimeMs > STALE_LOCK_MS] as a proposition. *)
Definition Stale (now : Z) (st : stat) : Prop :=
  (inject_Z STALE_LOCK_MS < inject_Z now - mtimeMs st)%Q.

(** An environment with a clock: [Date.now()] reads it, it never goes
    back, and a sleep of [ms] advances it by at least [ms]. *)
Record timed {S} (h : handler S) (time : S -> Z) : Prop := {
  timed_now : forall s, (h _ DateNow s).1 = time s;
  timed_mono : forall X (q : request X) s, time s <= time (h X q s).2;
  timed_sleep : forall ms s, time s + ms <= time (h _ (Sleep ms) s).2;
}.

(** The statement that breaking a stale lock is followed at once by the
    next attempt to create the marker: in every execution of
    [withWriteLock], the call that comes right after the deletion of a
    stale marker is the exclusive creation. *)
Definition BreakThenImmediateRetry (CONTEXT_FILE : string) (toISOString : Z -> string)
    (lockMetadata : Z -> string -> string -> string) : Prop :=
  forall (fuel : nat) (fn : M unit) (p : proc) (tr : list event) (r : result unit * proc),
    exec (withWriteLock CONTEXT_FILE toISOString lockMetadata fuel fn p) tr r ->
    forall pre st now u post,
      tr = (pre ++ Ev (FsStat (LOCK_FILE CONTEXT_FILE)) (Ok st) :: Ev DateNow now
                :: Ev (FsUnlink (LOCK_FILE CONTEXT_FILE)) u :: post)%list ->
      exists opened post', post = Ev (FsOpenWx (LOCK_FILE CONTEXT_FILE)) opened :: post'.

(** A marker left behind long ago. *)
Definition stale_marker : stat := {| size := 60; mtimeMs := (-40000) # 1 |}.
Definition fresh_marker (now : Z) : stat := {| size := 60; mtimeMs := inject_Z now |}.

(** An environment in which another process holds the lock for good: the
    marker is always there and always fresh. The state is the clock. *)
Definition demo_busy_env : handler Z := fun X q t =>
  match q in request X return X * Z with
  | FsStat _ => (Ok (fresh_marker t), t)
  | FsReadFile _ => (Ok "", t)
  | FsAppendFile _ _ => (Ok (), t)
  | FsWriteFile _ _ => (Ok (), t)
  | FsRename _ _ => (Ok (), t)
  | FsMkdir _ => (Ok (), t)
  | FsUnlink _ => (Ok (), t)
  | FsOpenWx _ => (Throw (SystemError "EEXIST"), t)
  | HandleWriteFile _ _ => (Ok (), t)
  | HandleClose _ => (Ok (), t)
  | DateNow => (t, t)
  | MathRandom => (1 # 2, t)
  | Sleep ms => ((), t + Z.max ms 0)
  | GetEnv _ => (None, t)
  | ProcessPid => (1, t)
  | OsHostname => ("host", t)
  | RandomUUID => ("00000000-0000-4000-8000-000000000000", t)
  end.

(** The call is an exclusive creation. *)
Definition is_create (e : event) : bool :=
  match e with
  | Ev q _ => match q with FsOpenWx _ => true | _ => false end
  end.

(** The calls of a turn that creates the marker, runs an empty critical
    section and releases the lock. *)
Definition acquired_trace (now : Z) : list event :=
  [Ev (FsOpenWx "ctx.jsonl.lock") (Ok 3); Ev ProcessPid 1; Ev OsHostname "host";
   Ev DateNow now; Ev (HandleWriteFile 3 "host") (Ok ()); Ev (HandleClose 3) (Ok ());
   Ev (FsUnlink "ctx.jsonl.lock") (Ok ())].

(** The calls of a turn that finds a stale marker at time 100. *)
Definition stale_turn_trace : list event :=
  [Ev (FsOpenWx "ctx.jsonl.lock") (Throw (SystemError "EEXIST")); Ev DateNow 100;
   Ev (FsStat "ctx.jsonl.lock") (Ok stale_marker); Ev DateNow 100;
   Ev (FsUnlink "ctx.jsonl.lock") (Ok ());
   Ev MathRandom (1 # 2); Ev (Sleep 70) ()].

(** ** Listing examples *)

Definition demo_options (agent : option string) : listOptions :=
  {| o_project := "shared"; o_agent := agent; o_since := None; o_limit := 20;
     o_includeUnsessioned := false; o_format := "json" |}.

(** An index for the log whose signature is that of [stat_after]. *)
Definition demo_index : sessionIndex :=
  {| version := SESSION_INDEX_VERSION; context_signature := Some "6:1002";
     next_file_index := 2;
     projects := {[ "shared" := {[ "s1" := summary_at "s1" 1700 1 ]} ]} |}.

Definition demo_indexed_proc : proc :=
  with_sessionIndexCache {| contextSignature := Some "6:1002"; index := Some demo_index |} proc0.

(** ** Index maintenance *)

(** The index can be persisted: the directory can be made and the
    temporary file written and renamed. *)
Definition index_persists {S} (h : handler S) : Prop :=
  (forall s path, (h _ (FsMkdir path) s).1 = Ok ())
  /\ (forall s path data, (h _ (FsWriteFile path data) s).1 = Ok ())
  /\ (forall s from to, (h _ (FsRename from to) s).1 = Ok ()).

Section Maintain.
Variable CONTEXT_FILE CONTEXT_DIR DEFAULT_PROJECT : string.
Variable Date_parse : jsval -> option Z.
Variable toISOString : Z -> string.
Variable sanitizeDisplayText : string -> string.
Variable encodeSessionIndex : sessionIndex -> string.
Variable decodeSessionIndex : string -> option sessionIndex.

(** The index updates of a run of appends: each step is the appended
    entry and the [stat] of the log after the append; the signature
    before an append is the one after the append before it. *)
Fixpoint maintain (before : option string) (steps : list (jsval * stat)) : M unit :=
  match steps with
  | [] => mret ()
  | (entry, afterStat) :: rest =>
      let after := makeFileSignature (Some afterStat) in
      tryUpdateSessionIndexOnAppend CONTEXT_FILE CONTEXT_DIR DEFAULT_PROJECT Date_parse
        toISOString sanitizeDisplayText encodeSessionIndex decodeSessionIndex
        entry before after;;
      maintain after rest
  end.
End Maintain.

(** The session summary of a project and session in an index. *)
Definition summary_in (i : sessionIndex) (project sessionId : string) : option sessionSummary :=
  projects i !! project ≫= fun bucket => bucket !! sessionId.

Definition demo_note (sessionId agent ts : string) : jsval :=
  JObj [("ts", JStr ts); ("kind", JStr "note"); ("project", JStr "shared");
        ("agent", JStr agent); ("session_id", JStr sessionId)].

(** A log of one note, then two appends. *)
Definition demo_prefix : list jsval :=
  [demo_note "s1" "codex" "2024-01-01T10:00:00.000Z"].

Definition demo_steps : list (jsval * stat) :=
  [(demo_note "s1" "claude" "2024-01-01T10:05:00.000Z", stat_after);
   (demo_note "s2" "codex" "2024-01-01T10:10:00.000Z", stat_later)].

Definition demo_build (entries : list jsval) (sg : option string) : sessionIndex :=
  match buildSessionIndexFromEntries "shared" demo_Date_parse demo_toISOString demo_sanitize
          entries sg with
  | Ok i => i
  | Throw _ => makeSessionIndexSkeleton None
  end.

Definition demo_maintained_proc : proc :=
  with_sessionIndexCache
    {| contextSignature := makeFileSignature (Some stat_before);
       index := Some (demo_build demo_prefix (makeFileSignature (Some stat_before))) |}
    proc0.

(* ===================================================================== *)
(** * Further argument validation (server.mjs:574-691) *)
(* ===================================================================== *)

(** The callback of [value.map] in [asStringArray], applied from position
    [index] on; the first item that throws ends the call. *)
Fixpoint asStringArray_from (items : list jsval) (name : string) (index : Z)
  : result (list string) :=
  match items with
  | [] => Ok []
  | item :: rest =>
      match item with
      | JStr s =>
          let trimmed := trim s in
          if String.eqb trimmed ""
          then Throw (Error ("Empty string not allowed at " ++ name ++ "[" ++ pretty index ++ "]"))
          else
            out ← asStringArray_from rest name (index + 1);
            Ok (trimmed :: out)
      | _ => Throw (Error ("Expected string at " ++ name ++ "[" ++ pretty index ++ "]"))
      end
  end.

(** server.mjs:574 *)
Definition asStringArray (value : jsval) (name : string) : result (option (list string)) :=
  match value with
  | JUndefined | JNull => Ok None
  | JArr items =>
      out ← asStringArray_from items name 0;
      Ok (Some out)
  | _ => Throw (Error ("Expected array of strings for " ++ name))
  end.

(** server.mjs:594 *)
Definition enforceStringMaxLength (value : option string) (name : string) (maxChars : Z)
  : result (option string) :=
  match value with
  | None => Ok None
  | Some s =>
      if maxChars <? strlen s
      then Throw (Error (name ++ " exceeds max length (" ++ pretty maxChars ++ " chars)"))
      else Ok (Some s)
  end.

(** The [values.forEach] of [enforceStringArrayLimits] from position
    [index] on. *)
Fixpoint enforceItems_from (values : list string) (name : string) (maxItemChars : Z)
    (index : Z) : result unit :=
  match values with
  | [] => Ok ()
  | item :: rest =>
      if maxItemChars <? strlen item
      then Throw (Error (name ++ "[" ++ pretty index ++ "] exceeds max length ("
                           ++ pretty maxItemChars ++ " chars)"))
      else enforceItems_from rest name maxItemChars (index + 1)
  end.

(** server.mjs:604 *)
Definition enforceStringArrayLimits (values : option (list string)) (name : string)
    (maxItems maxItemChars : Z) : result (option (list string)) :=
  match values with
  | None => Ok None
  | Some vs =>
      if maxItems <? Z.of_nat (length vs)
      then Throw (Error (name ++ " exceeds max items (" ++ pretty maxItems ++ ")"))
      else
        enforceItems_from vs name maxItemChars 0;;
        Ok (Some vs)
  end.

(** [a ?? b] on optional strings. *)
Definition nullish (a b : option string) : option string :=
  match a with Some _ => a | None => b end.

(** server.mjs:619 *)
Definition resolveNoteTextInput (args : jsval) : result string :=
  text ← asString args.["text"] "text" false false;
  content ← asString args.["content"] "content" false false;
  let candidate :=
    nullish (if nonempty text then text else None)
            (if nonempty content then content else None) in
  match candidate with
  | Some c => if String.eqb c "" then Throw (Error "Missing required string: text (or content)")
              else Ok c
  | None => Throw (Error "Missing required string: text (or content)")
  end.

(* --------------------------------------------------------------------- *)
(** ** Regular-expression replacements on character classes *)

(** [s.replace(/[class]+/g, rep)]: every maximal run of characters of the
    class becomes one [rep]. [inRun] tells that the character before was of
    the class. *)
Fixpoint replaceRuns (class : ascii -> bool) (rep : string) (inRun : bool) (s : string)
  : string :=
  match s with
  | EmptyString => EmptyString
  | String c s' =>
      if class c then
        if inRun then replaceRuns class rep true s'
        else rep ++ replaceRuns class rep true s'
      else String c (replaceRuns class rep false s')
  end.

(** [s.replace(/^[class]+/, "")] *)
Fixpoint stripStart (class : ascii -> bool) (s : string) : string :=
  match s with
  | String c s' => if class c then stripStart class s' else s
  | EmptyString => EmptyString
  end.

(** [s.replace(/[class]+$/, "")] *)
Fixpoint stripEnd (class : ascii -> bool) (s : string) : string :=
  match s with
  | String c s' =>
      match stripEnd class s' with
      | EmptyString => if class c then EmptyString else String c EmptyString
      | t => String c t
      end
  | EmptyString => EmptyString
  end.

(** [s.replace(/[class]/g, "")] *)
Fixpoint removeAll (class : ascii -> bool) (s : string) : string :=
  match s with
  | EmptyString => EmptyString
  | String c s' => if class c then removeAll class s' else String c (removeAll class s')
  end.

Definition between (lo hi : nat) (c : ascii) : bool :=
  let n := nat_of_ascii c in ((lo <=? n) && (n <=? hi))%nat.

(** [\w]: a letter, a digit or the underscore. *)
Definition isWordChar (c : ascii) : bool :=
  between 48 57 c || between 65 90 c || between 97 122 c || Ascii.eqb c "_"%char.

(** The class [\w./-] of [sanitizeSessionId]. *)
Definition isSessionIdChar (c : ascii) : bool :=
  isWordChar c || Ascii.eqb c "."%char || Ascii.eqb c "/"%char || Ascii.eqb c "-"%char.

Definition isDash (c : ascii) : bool := Ascii.eqb c "-"%char.

(** server.mjs:678 (the same function is pick-session.mjs:208) *)
Definition sanitizeSessionId (value : jsval) : option string :=
  match value with
  | JStr s =>
      let trimmed := trim s in
      if String.eqb trimmed "" then None
      else
        let sanitized :=
          stripEnd isDash
            (stripStart isDash
               (replaceRuns isDash "-" false
                  (replaceRuns (fun c => negb (isSessionIdChar c)) "-" false trimmed))) in
        if String.eqb sanitized "" then None else Some sanitized
  | _ => None
  end.

(* ===================================================================== *)
(** * Display text (lib/common.mjs) *)
(* ===================================================================== *)

Definition ESC : ascii := "027"%char.
Definition BEL : ascii := "007"%char.

(** The longest prefix of [s] made of characters of the class, as a
    length. *)
Fixpoint spanLength (class : ascii -> bool) (s : string) : nat :=
  match s with
  | String c s' => if class c then S (spanLength class s') else O
  | EmptyString => O
  end.

Fixpoint drop_str (n : nat) (s : string) : string :=
  match n, s with
  | S n', String _ s' => drop_str n' s'
  | _, _ => s
  end.

(** The position of the last [ESC \] in [s], if there is one. *)
Fixpoint lastST (s : string) : option nat :=
  match s with
  | String c s' =>
      match lastST s' with
      | Some k => Some (S k)
      | None =>
          match s' with
          | String c' _ =>
              if Ascii.eqb c ESC && Ascii.eqb c' "\"%char then Some O else None
          | EmptyString => None
          end
      end
  | EmptyString => None
  end.

(** The length of the match of [ANSI_OSC_REGEX] at the start of [s]:
    [ESC ]], then as many characters other than BEL as possible, then BEL
    or [ESC \]. With a BEL ahead the match ends at the first one;
    otherwise backtracking ends it at the last [ESC \]. *)
Definition matchOSC (s : string) : option nat :=
  match s with
  | String c (String c' r) =>
      if Ascii.eqb c ESC && Ascii.eqb c' "]"%char then
        let n := spanLength (fun x => negb (Ascii.eqb x BEL)) r in
        match drop_str n r with
        | String _ _ => Some (2 + n + 1)%nat
        | EmptyString =>
            match lastST r with
            | Some k => Some (2 + k + 2)%nat
            | None => None
            end
        end
      else None
  | _ => None
  end.

(** The length of the match of [ANSI_CSI_REGEX] at the start of [s]:
    [ESC []], parameter bytes [[0-?]*], intermediate bytes [[ -/]*] and a
    final byte [[@-~]]. The three classes are disjoint, so no other split
    can match. *)
Definition matchCSI (s : string) : option nat :=
  match s with
  | String c (String c' r) =>
      if Ascii.eqb c ESC && Ascii.eqb c' "["%char then
        let n1 := spanLength (between 48 63) r in
        let r1 := drop_str n1 r in
        let n2 := spanLength (between 32 47) r1 in
        match drop_str n2 r1 with
        | String f _ => if between 64 126 f then Some (2 + n1 + n2 + 1)%nat else None
        | EmptyString => None
        end
      else None
  | _ => None
  end.

(** [s.replace(regex, "")] for a global regular expression given by the
    length of its match at a position: matches are looked for from left to
    right and do not overlap. [skip] characters are still part of the
    match found last. *)
Fixpoint removeMatches (matchAt : string -> option nat) (skip : nat) (s : string) : string :=
  match s with
  | EmptyString => EmptyString
  | String c s' =>
      match skip with
      | S k => removeMatches matchAt k s'
      | O =>
          match matchAt s with
          | Some (S k) => removeMatches matchAt k s'
          | _ => String c (removeMatches matchAt O s')
          end
      end
  end.

(** The class [[\x00-\x08\x0b\x0c\x0e-\x1f\x7f]]. *)
Definition isControl (c : ascii) : bool :=
  between 0 8 c || between 11 12 c || between 14 31 c || Ascii.eqb c "127"%char.

(** The class [[\r\n\t]]. *)
Definition isLineBreakOrTab (c : ascii) : bool :=
  Ascii.eqb c CR || Ascii.eqb c LF || Ascii.eqb c "009"%char.

(** lib/common.mjs:16, for a string argument. *)
Definition sanitizeDisplayText (singleLine : bool) (value : string) : string :=
  let out :=
    removeAll isControl
      (removeAll (fun c => Ascii.eqb c ESC)
         (removeMatches matchCSI O
            (removeMatches matchOSC O value))) in
  if singleLine then trim (replaceRuns isLineBreakOrTab " " false out) else out.

(* ===================================================================== *)
(** * Resuming a session (server.mjs:1499-1529) *)
(* ===================================================================== *)

(** server.mjs:1499 *)
Definition hasSessionId (entry : jsval) : bool :=
  match entry.["session_id"] with
  | JStr s => 0 <? strlen (trim s)
  | _ => false
  end.

(** What [buildResumeSessionData] returns when it does not answer
    [null]. *)
Record resumeData : Type := {
  rd_project : string;
  rd_session_id : string;
  rd_parseErrors : list parseError;
  rd_summary : option sessionSummary;
  rd_latest_handoff : option jsval;
  rd_entries : list jsval;
}.

Section Resume.
Variable Date_parse : jsval -> option Z.
Variable toISOString : Z -> string.
Variable sanitizeDisplayText : string -> string.
Variable localeCompare : string -> string -> Z.

(** server.mjs:1503. Both callers pass strings for [project] and
    [session_id]. *)
Definition getSessionEntries (entries : list jsval) (project session_id : string)
  : list jsval :=
  if String.eqb session_id NO_SESSION_BUCKET then
    List.filter
      (fun entry =>
         (if negb (String.eqb project "") then is_str entry.["project"] project else true)
         && negb (hasSessionId entry))
      entries
  else
    filterEntries Date_parse entries
      {| f_project := Some project; f_agent := None; f_session_id := Some session_id;
         f_kind := None; f_since := None |}.

(** server.mjs:1510 *)
Definition buildResumeSessionData (entries : list jsval) (parseErrors : list parseError)
    (project session_id : string) (limit : Z) : option resumeData :=
  let sessionEntries := getSessionEntries entries project session_id in
  if (length sessionEntries =? 0)%nat then None
  else
    let summary :=
      head (buildSessionSummaries Date_parse toISOString sanitizeDisplayText localeCompare
              sessionEntries (String.eqb session_id NO_SESSION_BUCKET)) in
    let latestHandoffs := List.filter (fun entry => is_str entry.["kind"] "handoff") sessionEntries in
    let latestHandoff := last latestHandoffs in
    let recentEntries := selectRecent sessionEntries limit in
    Some {| rd_project := project; rd_session_id := session_id;
            rd_parseErrors := parseErrors; rd_summary := summary;
            rd_latest_handoff := latestHandoff; rd_entries := recentEntries |}.
End Resume.

(* ===================================================================== *)
(** * Tools (server.mjs:1594-1824) *)
(* ===================================================================== *)

(** [{ ...o, [k]: v }]; the result is only read through property access,
    which finds the new [k] first. *)
Definition with_prop (o : jsval) (k : string) (v : jsval) : jsval :=
  match o with
  | JObj ps => JObj ((k, v) :: ps)
  | _ => JObj [(k, v)]
  end.

(** An optional array of strings ([string[] | undefined]) seen as a value. *)
Definition of_opt_list (o : option (list string)) : jsval :=
  match o with Some l => JArr (map JStr l) | None => JUndefined end.

(** What [callTool] answers, before it is rendered as text or JSON. *)
Inductive toolResult : Type :=
| Appended (entry : jsval)
| ReadContext (format : string) (fl : filters) (limit : Z) (recent : list jsval)
    (parseErrors : list parseError)
| LatestHandoff (format project : string) (latest : option jsval)
    (parseErrors : list parseError)
| SessionsListed (options : listOptions) (sessions : list sessionSummary)
    (parseErrors : list parseError)
| Chosen (choice : chooseResult)
| Resumed (format session_id project : string) (data : option resumeData)
| UnknownTool (name : string).

Section Tools.
Variable CONTEXT_FILE CONTEXT_DIR : string.
Variable ACTIVE_SESSION_FILE ACTIVE_SESSION_DIR : string.
Variable DEFAULT_PROJECT : string.
Variable MAX_CONTEXT_FILE_BYTES : Z.
(** server.mjs:36-39 *)
Variable MAX_NOTE_TEXT_CHARS MAX_HANDOFF_SUMMARY_CHARS : Z.
Variable MAX_ARRAY_ITEMS MAX_ARRAY_ITEM_CHARS : Z.
Variable JSON_parse : string -> jsval + string.
Variable JSON_stringify : jsval -> string.
Variable Date_parse : jsval -> option Z.
Variable toISOString : Z -> string.
Variable sanitizeDisplayText : string -> string.
Variable localeCompare : string -> string -> Z.
Variable encodeSessionIndex : sessionIndex -> string.
Variable decodeSessionIndex : string -> option sessionIndex.
Variable lockMetadata : Z -> string -> string -> string.

Local Abbreviation resolveSessionIdInput := (resolveSessionIdInput ACTIVE_SESSION_FILE).
Local Abbreviation normalizeProject := (normalizeProject DEFAULT_PROJECT).
Local Abbreviation readEntries := (readEntries CONTEXT_FILE MAX_CONTEXT_FILE_BYTES JSON_parse).
Local Abbreviation filterEntries := (filterEntries Date_parse).
Local Abbreviation asIsoDateOrUndefined := (asIsoDateOrUndefined Date_parse toISOString).
Local Abbreviation appendEntry :=
  (appendEntry CONTEXT_FILE CONTEXT_DIR DEFAULT_PROJECT JSON_stringify Date_parse toISOString
     sanitizeDisplayText encodeSessionIndex decodeSessionIndex lockMetadata).
Local Abbreviation buildSessionListResult :=
  (buildSessionListResult CONTEXT_FILE CONTEXT_DIR DEFAULT_PROJECT MAX_CONTEXT_FILE_BYTES
     JSON_parse Date_parse toISOString sanitizeDisplayText localeCompare encodeSessionIndex
     decodeSessionIndex).
Local Abbreviation callTool_choose_session :=
  (callTool_choose_session CONTEXT_FILE CONTEXT_DIR ACTIVE_SESSION_FILE ACTIVE_SESSION_DIR
     DEFAULT_PROJECT MAX_CONTEXT_FILE_BYTES JSON_parse Date_parse toISOString
     sanitizeDisplayText localeCompare encodeSessionIndex decodeSessionIndex).
Local Abbreviation buildResumeSessionData :=
  (buildResumeSessionData Date_parse toISOString sanitizeDisplayText localeCompare).

(** [normalizeProject(args.project)] on an argument taken as it comes
    (server.mjs:1599): [project?.trim()] is [undefined] for [undefined] and
    [null], and a [TypeError] for a value without [trim]. *)
Definition normalizeProject_arg (project : jsval) : result string :=
  match project with
  | JUndefined | JNull => Ok (normalizeProject None)
  | JStr s => Ok (normalizeProject (Some s))
  | _ => Throw (Error "project?.trim is not a function")
  end.

(** server.mjs:1594; the properties of the object, in order. *)
Definition makeEntryBase (kind : string) (args : jsval) : M (list (string * jsval)) :=
  id ← perform RandomUUID;
  now ← perform DateNow;
  project ← lift (normalizeProject_arg args.["project"]);
  agent ← lift (asString args.["agent"] "agent" true true);
  session_id_ ← lift (asString args.["session_id"] "session_id" false true);
  task_ ← lift (asString args.["task"] "task" false true);
  mret [("id", JStr id); ("ts", JStr (toISOString now)); ("kind", JStr kind);
        ("project", JStr project); ("agent", of_opt agent);
        ("session_id", of_opt session_id_); ("task", of_opt task_)].

(** The branch [name === "append_shared_note"] (server.mjs:1609). *)
Definition callTool_append_shared_note (fuel : nat) (args : jsval) : M toolResult :=
  resolvedSessionId ← resolveSessionIdInput args.["session_id"] false;
  text ← lift (candidate ← resolveNoteTextInput args;
               enforceStringMaxLength (Some candidate) "text" MAX_NOTE_TEXT_CHARS);
  tags ← lift (values ← asStringArray args.["tags"] "tags";
               enforceStringArrayLimits values "tags" MAX_ARRAY_ITEMS MAX_ARRAY_ITEM_CHARS);
  base ← makeEntryBase "note" (with_prop args "session_id" (of_opt resolvedSessionId));
  let entry := JObj (base ++ [("text", of_opt text); ("tags", of_opt_list tags)]) in
  appendEntry fuel entry;;
  mret (Appended entry).

(** The branch [name === "write_shared_handoff"] (server.mjs:1628). *)
Definition callTool_write_shared_handoff (fuel : nat) (args : jsval) : M toolResult :=
  resolvedSessionId ← resolveSessionIdInput args.["session_id"] false;
  summary ← lift (value ← asString args.["summary"] "summary" true false;
                  enforceStringMaxLength value "summary" MAX_HANDOFF_SUMMARY_CHARS);
  next_steps ← lift (values ← asStringArray args.["next_steps"] "next_steps";
                     enforceStringArrayLimits values "next_steps" MAX_ARRAY_ITEMS
                       MAX_ARRAY_ITEM_CHARS);
  open_questions ← lift (values ← asStringArray args.["open_questions"] "open_questions";
                         enforceStringArrayLimits values "open_questions" MAX_ARRAY_ITEMS
                           MAX_ARRAY_ITEM_CHARS);
  files ← lift (values ← asStringArray args.["files"] "files";
                enforceStringArrayLimits values "files" MAX_ARRAY_ITEMS MAX_ARRAY_ITEM_CHARS);
  base ← makeEntryBase "handoff" (with_prop args "session_id" (of_opt resolvedSessionId));
  let entry :=
    JObj (base ++ [("summary", of_opt summary); ("next_steps", of_opt_list next_steps);
                   ("open_questions", of_opt_list open_questions);
                   ("files", of_opt_list files)]) in
  appendEntry fuel entry;;
  mret (Appended entry).

(** The branch [name === "read_shared_context"] (server.mjs:1651). *)
Definition callTool_read_shared_context (args : jsval) : M toolResult :=
  project ← lift (asString args.["project"] "project" false true);
  let project := normalizeProject project in
  agent ← lift (asString args.["agent"] "agent" false true);
  session_id_ ← resolveSessionIdInput args.["session_id"] false;
  kind ← lift (match args.["kind"] with
               | JUndefined => Ok None
               | value => asString value "kind" false true
               end);
  if nonempty kind && negb (bool_decide (kind = Some "note"))
     && negb (bool_decide (kind = Some "handoff"))
  then throw (Error "kind must be 'note' or 'handoff'")
  else
    since ← lift (asIsoDateOrUndefined args.["since"] "since");
    limit ← lift (asPositiveInt args.["limit"] "limit" (Some 20) 1 200);
    format ← lift (normalizeFormat args.["format"]);
    r ← readEntries;
    let fl := {| f_project := Some project; f_agent := agent; f_session_id := session_id_;
                 f_kind := kind; f_since := since |} in
    let filtered := filterEntries (r_entries r) fl in
    let recent := selectRecent filtered (default 20 limit) in
    mret (ReadContext format fl (default 20 limit) recent (r_parseErrors r)).

(** The branch [name === "get_latest_handoff"] (server.mjs:1677). *)
Definition callTool_get_latest_handoff (args : jsval) : M toolResult :=
  project ← lift (asString args.["project"] "project" false true);
  let project := normalizeProject project in
  agent ← lift (asString args.["agent"] "agent" false true);
  session_id_ ← resolveSessionIdInput args.["session_id"] false;
  format ← lift (normalizeFormat args.["format"]);
  r ← readEntries;
  let handoffs :=
    filterEntries (r_entries r)
      {| f_project := Some project; f_agent := agent; f_session_id := session_id_;
         f_kind := Some "handoff"; f_since := None |} in
  mret (LatestHandoff format project (last handoffs) (r_parseErrors r)).

(** The branch [name === "list_sessions"] (server.mjs:1697). *)
Definition callTool_list_sessions (args : jsval) : M toolResult :=
  options ← lift (parseSessionListOptions DEFAULT_PROJECT Date_parse toISOString args);
  l ← buildSessionListResult options;
  mret (SessionsListed options (visibleSessions l) (l_parseErrors l)).

(** The branch [name === "resume_session"] (server.mjs:1785). *)
Definition callTool_resume_session (args : jsval) : M toolResult :=
  session_id_ ← resolveSessionIdInput args.["session_id"] true;
  let session_id_ := default "" session_id_ in
  project ← lift (asString args.["project"] "project" false true);
  let project := normalizeProject project in
  limit ← lift (asPositiveInt args.["limit"] "limit" (Some 20) 1 200);
  format ← lift (normalizeFormat args.["format"]);
  r ← readEntries;
  mret (Resumed format session_id_ project
          (buildResumeSessionData (r_entries r) (r_parseErrors r) project session_id_
             (default 20 limit))).

(** server.mjs:1606 *)
Definition callTool (fuel : nat) (name : string) (rawArgs : jsval) : M toolResult :=
  let args := if isObject rawArgs then rawArgs else JObj [] in
  if String.eqb name "append_shared_note" then callTool_append_shared_note fuel args
  else if String.eqb name "write_shared_handoff" then callTool_write_shared_handoff fuel args
  else if String.eqb name "read_shared_context" then callTool_read_shared_context args
  else if String.eqb name "get_latest_handoff" then callTool_get_latest_handoff args
  else if String.eqb name "list_sessions" then callTool_list_sessions args
  else if String.eqb name "choose_session" then
    choice ← callTool_choose_session args;
    mret (Chosen choice)
  else if String.eqb name "resume_session" then callTool_resume_session args
  else mret (UnknownTool name).
End Tools.

(* ===================================================================== *)
(** * Loading the session index (server.mjs:989-1055) *)
(* ===================================================================== *)

(** [Object.entries(o)] for a value read from JSON: the properties in the
    order in which the value lists them, a name that comes again being
    passed over. *)
Fixpoint Object_entries_from (seen : list string) (props : list (string * jsval))
  : list (string * jsval) :=
  match props with
  | [] => []
  | (k, v) :: rest =>
      if existsb (String.eqb k) seen then Object_entries_from seen rest
      else (k, v) :: Object_entries_from (k :: seen) rest
  end.

Definition Object_entries (o : jsval) : list (string * jsval) :=
  match o with
  | JObj props => Object_entries_from [] props
  | _ => []
  end.

(** [Number.isInteger(v) && v >= min ? v : fallback] *)
Definition integerAtLeast (min fallback : Z) (v : jsval) : Z :=
  match v with
  | JNum n => if min <=? n then n else fallback
  | _ => fallback
  end.

(** [typeof v === "string" && v.trim() ? v.trim() : undefined] *)
Definition trimmedString (v : jsval) : option string :=
  match v with
  | JStr s => if String.eqb (trim s) "" then None else Some (trim s)
  | _ => None
  end.

(** The callback of [Object.entries(bucketRaw).forEach]: the session id
    and the summary stored under it, or nothing. *)
Definition normalizeSummary (projectName sessionIdKey : string) (summaryRaw : jsval)
  : option (string * sessionSummary) :=
  if String.eqb sessionIdKey "" || negb (isObject summaryRaw) then None
  else
    let sessionId :=
      match trimmedString summaryRaw.["session_id"] with
      | Some id => id
      | None => trim sessionIdKey
      end in
    if String.eqb sessionId "" then None
    else
      let summary := makeSessionSummary sessionId (JStr projectName) in
      Some (sessionId,
            {| session_id := session_id summary;
               project := project summary;
               entry_count := integerAtLeast 0 0 summaryRaw.["entry_count"];
               note_count := integerAtLeast 0 0 summaryRaw.["note_count"];
               handoff_count := integerAtLeast 0 0 summaryRaw.["handoff_count"];
               latest_ts :=
                 match summaryRaw.["latest_ts"] with
                 | JStr s => if String.eqb s "" then None else Some s
                 | _ => None
                 end;
               latest_ts_ms :=
                 match summaryRaw.["latest_ts_ms"] with
                 | JNum n => Some n
                 | _ => None
                 end;
               latest_file_index := integerAtLeast (-1) (-1) summaryRaw.["latest_file_index"];
               last_entry_kind :=
                 if is_str summaryRaw.["last_entry_kind"] "note"
                    || is_str summaryRaw.["last_entry_kind"] "handoff"
                 then summaryRaw.["last_entry_kind"]
                 else JUndefined;
               task := trimmedString summaryRaw.["task"];
               agents :=
                 match summaryRaw.["agents"] with
                 | JArr items => sort_strings (foldl pushUniqueString (agents summary) items)
                 | _ => agents summary
                 end;
               latest_handoff_summary :=
                 trimmedString summaryRaw.["latest_handoff_summary"] |}).

(** The callback of [Object.entries(raw.projects).forEach]. *)
Definition normalizeBucket (projects : gmap string (gmap string sessionSummary))
    (projectName : string) (bucketRaw : jsval) : gmap string (gmap string sessionSummary) :=
  if String.eqb projectName "" || negb (isObject bucketRaw) then projects
  else
    let bucket :=
      foldl (fun (bucket : gmap string sessionSummary) '(sessionIdKey, summaryRaw) =>
               match normalizeSummary projectName sessionIdKey summaryRaw with
               | Some (sessionId, summary) => <[sessionId := summary]> bucket
               | None => bucket
               end)
            ∅ (Object_entries bucketRaw) in
    <[projectName := bucket]> projects.

(** server.mjs:989 *)
Definition normalizeSessionIndex (raw : jsval) : option sessionIndex :=
  if negb (isObject raw) then None
  else
    match raw.["version"] with
    | JNum v =>
        if negb (v =? SESSION_INDEX_VERSION) then None
        else
          let contextSignature :=
            match raw.["context_signature"] with
            | JStr s => Some s
            | _ => None
            end in
          let nextFileIndex := integerAtLeast 0 0 raw.["next_file_index"] in
          let projects :=
            foldl (fun projects '(projectName, bucketRaw) =>
                     normalizeBucket projects projectName bucketRaw)
                  ∅ (Object_entries raw.["projects"]) in
          Some {| version := SESSION_INDEX_VERSION;
                  context_signature := contextSignature;
                  next_file_index := nextFileIndex;
                  projects := projects |}
    | _ => None
    end.

(* ===================================================================== *)
(** * Transport (server.mjs:531-543, 2161-2274) *)
(* ===================================================================== *)

(** [state.transportMode], once it is set: ["line"] or ["framed"]. *)
Inductive transportModeT : Type :=
| LineMode
| FramedMode.

(** What the decoders read and write: the bytes received and not yet
    decoded, and the mode of the connection. A buffer is the string of its
    bytes. *)
Record transport : Type := {
  inputBuffer : string;
  transportMode : option transportModeT;
}.

(** [s.startsWith(pat)] *)
Fixpoint startsWith (s pat : string) : bool :=
  match pat, s with
  | EmptyString, _ => true
  | String p pat', String c s' => Ascii.eqb c p && startsWith s' pat'
  | String _ _, EmptyString => false
  end.

(** [buffer.indexOf(pat)], with [None] for [-1]. *)
Fixpoint indexOf (pat s : string) : option nat :=
  if startsWith s pat then Some O
  else match s with
       | EmptyString => None
       | String _ s' => option_map S (indexOf pat s')
       end.

(** [buffer.slice(from, to)] for [from <= to]. *)
Definition slice (from to : nat) (s : string) : string :=
  take_str (to - from) (drop_str from s).

Definition CRLFCRLF : string := String CR (String LF (String CR (String LF EmptyString))).
Definition LFLF : string := String LF (String LF EmptyString).

(** server.mjs:2164; the answer is the pair of [index] and
    [separatorLength]. *)
Definition findHeaderEnd (buffer : string) : option (nat * nat) :=
  match indexOf CRLFCRLF buffer with
  | Some crlf => Some (crlf, 4%nat)
  | None =>
      match indexOf LFLF buffer with
      | Some lf => Some (lf, 2%nat)
      | None => None
      end
  end.

(** The bytes that [detectIncomingTransportMode] skips: space, TAB, CR
    and LF. *)
Definition isSkippedByte (c : ascii) : bool :=
  Ascii.eqb c " "%char || Ascii.eqb c "009"%char || Ascii.eqb c CR || Ascii.eqb c LF.

(** server.mjs:2176; the first byte that is not skipped decides. *)
Definition detectIncomingTransportMode (buffer : string) : option transportModeT :=
  match stripStart isSkippedByte buffer with
  | EmptyString => None
  | String firstByte _ =>
      if Ascii.eqb firstByte "{"%char || Ascii.eqb firstByte "["%char
      then Some LineMode
      else Some FramedMode
  end.

(** ** The header [/Content-Length:\s*(\d+)/i] *)

Definition isDigit (c : ascii) : bool := between 48 57 c.

(** A letter of [A-Z] as the letter of [a-z], any other character as it
    is: what ignoring case compares. *)
Definition lowerCase (c : ascii) : ascii :=
  if between 65 90 c then ascii_of_nat (nat_of_ascii c + 32) else c.

(** [s] starts with [pat], case ignored; [pat] is in lower case. *)
Fixpoint startsWithIgnoringCase (s pat : string) : bool :=
  match pat, s with
  | EmptyString, _ => true
  | String p pat', String c s' => Ascii.eqb (lowerCase c) p && startsWithIgnoringCase s' pat'
  | String _ _, EmptyString => false
  end.

(** The match of the expression at the start of [s], as its group: the
    name and the colon, as much white space as there is, and then as many
    digits as there are, at least one. *)
Definition matchContentLengthAt (s : string) : option string :=
  if startsWithIgnoringCase s "content-length:" then
    let afterName := drop_str 15 s in
    let afterSpace := drop_str (spanLength isWhiteSpace afterName) afterName in
    let n := spanLength isDigit afterSpace in
    if (n =? 0)%nat then None else Some (take_str n afterSpace)
  else None.

(** [headerText.match(/Content-Length:\s*(\d+)/i)]: the group of the first
    match from the left. *)
Fixpoint matchContentLength (s : string) : option string :=
  match matchContentLengthAt s with
  | Some digits => Some digits
  | None =>
      match s with
      | EmptyString => None
      | String _ s' => matchContentLength s'
      end
  end.

(** The number that a run of digits writes. *)
Fixpoint digitsValue (acc : Z) (digits : string) : Z :=
  match digits with
  | EmptyString => acc
  | String c rest => digitsValue (acc * 10 + (Z.of_nat (nat_of_ascii c) - 48)) rest
  end.

Section Transport.
(** server.mjs:33-34 *)
Variable MAX_INBOUND_FRAME_BYTES MAX_INBOUND_LINE_BYTES : Z.
(** [buffer.toString("utf8")] and [Buffer.from(s, "utf8")] *)
Variable utf8_toString : string -> string.
Variable Buffer_from : string -> string.
(** The double nearest to an integer from [2^53] on, [None] when it is
    infinite. *)
Variable nearestDouble : Z -> option Z.
(** [String(n)] for a number that is an integer. *)
Variable Number_toString : Z -> string.
Variable JSON_stringify : jsval -> string.

(** [Number(digits)] for a run of digits: exact below [2^53]. *)
Definition Number_digits (digits : string) : option Z :=
  let v := digitsValue 0 digits in
  if v <? 2 ^ 53 then Some v else nearestDouble v.

Definition enterMode (mode : transportModeT) (current : option transportModeT)
  : option transportModeT :=
  match current with
  | None => Some mode
  | Some _ => current
  end.

(** server.mjs:2199. The answer is the frame, [None] for [null], or the
    error thrown, with the state left behind. A buffer has fewer than
    [2^53] bytes, so that the sum [bodyStart + contentLength] compares with
    its length as the exact sum does. *)
Definition tryDecodeFrame (st : transport) : result (option string) * transport :=
  let buffer := inputBuffer st in
  match findHeaderEnd buffer with
  | None => (Ok None, st)
  | Some (index, separatorLength) =>
      let headerText := utf8_toString (slice 0 index buffer) in
      match matchContentLength headerText with
      | None => (Throw (Error "Missing Content-Length header"), st)
      | Some digits =>
          match Number_digits digits with
          | None => (Throw (Error "Invalid Content-Length"), st)
          | Some contentLength =>
              if contentLength <? 0 then (Throw (Error "Invalid Content-Length"), st)
              else if MAX_INBOUND_FRAME_BYTES <? contentLength
              then (Throw (Error ("Content-Length " ++ Number_toString contentLength
                                    ++ " exceeds max inbound frame size ("
                                    ++ Number_toString MAX_INBOUND_FRAME_BYTES ++ " bytes)")),
                    st)
              else
                let bodyStart := (index + separatorLength)%nat in
                if strlen buffer <? Z.of_nat bodyStart + contentLength
                then (Ok None, st)
                else
                  let bodyEnd := (bodyStart + Z.to_nat contentLength)%nat in
                  let body := slice bodyStart bodyEnd buffer in
                  (Ok (Some (utf8_toString body)),
                   {| inputBuffer := drop_str bodyEnd buffer;
                      transportMode := enterMode FramedMode (transportMode st) |})
          end
      end
  end.

(** The loop of [tryDecodeLineDelimitedJson], for at most [fuel] turns;
    [None] when the turns are used up. *)
Fixpoint tryDecodeLineDelimitedJson_loop (fuel : nat) (st : transport)
  : option (result (option string) * transport) :=
  match fuel with
  | O => None
  | S fuel' =>
      let buffer := inputBuffer st in
      match indexOf NL buffer with
      | None => Some (Ok None, st)
      | Some newlineIndex =>
          let lineBuffer := slice 0 newlineIndex buffer in
          let st' := {| inputBuffer := drop_str (newlineIndex + 1) buffer;
                        transportMode := transportMode st |} in
          if MAX_INBOUND_LINE_BYTES <? strlen lineBuffer
          then Some (Throw (Error ("Line-delimited JSON message exceeds max size ("
                                     ++ Number_toString MAX_INBOUND_LINE_BYTES ++ " bytes)")),
                     st')
          else
            let line := trim (utf8_toString lineBuffer) in
            if String.eqb line "" then tryDecodeLineDelimitedJson_loop fuel' st'
            else if startsWith line "{" || startsWith line "["
            then Some (Ok (Some line),
                       {| inputBuffer := inputBuffer st';
                          transportMode := enterMode LineMode (transportMode st') |})
            else Some (Throw (Error "Expected line-delimited JSON-RPC message"), st')
      end
  end.

(** server.mjs:2235 *)
Definition tryDecodeLineDelimitedJson (fuel : nat) (st : transport)
  : option (result (option string) * transport) :=
  tryDecodeLineDelimitedJson_loop fuel st.

(** server.mjs:2262 *)
Definition tryDecodeIncomingMessage (fuel : nat) (st : transport)
  : option (result (option string) * transport) :=
  let decode (st' : transport) :=
    match transportMode st' with
    | Some LineMode => tryDecodeLineDelimitedJson fuel st'
    | _ => Some (tryDecodeFrame st')
    end in
  match transportMode st with
  | None =>
      match detectIncomingTransportMode (inputBuffer st) with
      | None => Some (Ok None, st)
      | Some detectedMode =>
          decode {| inputBuffer := inputBuffer st; transportMode := Some detectedMode |}
      end
  | Some _ => decode st
  end.

(** server.mjs:531; the answer is what is written to the standard
    output. A string is written in UTF-8. *)
Definition sendMessage (mode : option transportModeT) (message : jsval) : string :=
  match mode with
  | Some LineMode => Buffer_from (JSON_stringify message ++ NL)
  | _ =>
      let payload := Buffer_from (JSON_stringify message) in
      let header :=
        Buffer_from ("Content-Length: " ++ pretty (strlen payload)
                       ++ String CR (String LF "Content-Type: application/json; charset=utf-8")
                       ++ CRLFCRLF) in
      header ++ payload
  end.
End Transport.

(* ===================================================================== *)
(** * Prompts (server.mjs:29-31, 1464-1484, 1951-1999) *)
(* ===================================================================== *)

Definition PROMPT_NEW_SESSION : string := "new_session".
Definition PROMPT_RESUME_BY_ID : string := "resume_by_id".
Definition PROMPT_RESUME_PREFIX : string := "resume_".

(** [s.replace(c, rep)] for a pattern of one character: the first [c]
    becomes [rep]. *)
Fixpoint replaceFirst (c : ascii) (rep : string) (s : string) : string :=
  match s with
  | EmptyString => EmptyString
  | String x s' => if Ascii.eqb x c then rep ++ s' else String x (replaceFirst c rep s')
  end.

(** [/^\d+$/.test(s)]: digits only, and at least one. *)
Definition onlyDigits (s : string) : bool :=
  negb (String.eqb s "") && (spanLength isDigit s =? String.length s)%nat.

(** [s.replace(/\.\d+$/, "")]: a dot and the digits after it, at the
    end. *)
Fixpoint stripFraction (s : string) : string :=
  match s with
  | EmptyString => EmptyString
  | String c s' =>
      if Ascii.eqb c "."%char && onlyDigits s' then EmptyString
      else String c (stripFraction s')
  end.

(** server.mjs:1464, for a value that is a string or [undefined]. *)
Definition shortIsoForPrompt (value : option string) : string :=
  match value with
  | Some s =>
      if String.eqb s "" then "unknown"
      else stripFraction (replaceFirst "Z" "" (replaceFirst "T" " " s))
  | None => "unknown"
  end.

(** An optional string in a template: [undefined] is written out. *)
Definition shown (o : option string) : string :=
  match o with Some s => s | None => "undefined" end.

Record promptArgument : Type := {
  argument_name : string;
  argument_description : string;
  argument_required : bool;
}.

Record prompt : Type := {
  prompt_name : string;
  prompt_description : string;
  prompt_arguments : list promptArgument;
}.

Section Prompts.
Variable nearestDouble : Z -> option Z.

(** server.mjs:1471. [Number(token) - 1] is exact up to [2^53]; a token
    that writes an infinite number gives no index. *)
Definition parsePromptResumeIndex (name : string) : option Z :=
  if negb (startsWith name PROMPT_RESUME_PREFIX) then None
  else
    let token := drop_str (String.length PROMPT_RESUME_PREFIX) name in
    if negb (onlyDigits token) then None
    else
      match Number_digits nearestDouble token with
      | None => None
      | Some number =>
          let idx := if number - 1 <? 2 ^ 53 then Some (number - 1)
                     else nearestDouble (number - 1) in
          match idx with
          | Some idx => if idx <? 0 then None else Some idx
          | None => None
          end
      end.

(** server.mjs:1951 *)
Definition formatPromptSessionDescription (summary : sessionSummary) : string :=
  let stamp := [shortIsoForPrompt (latest_ts summary);
                "entries:" ++ pretty (entry_count summary)] in
  let task_part :=
    if nonempty (task summary)
    then ["task:" ++ shown (truncateText (sanitizeDisplayText true)
                              (of_opt (task summary)) 36)]
    else [] in
  let handoff_part :=
    if nonempty (latest_handoff_summary summary)
    then ["handoff:" ++ shown (truncateText (sanitizeDisplayText true)
                                 (of_opt (latest_handoff_summary summary)) 48)]
    else [] in
  let parts := (stamp ++ task_part ++ handoff_part)%list in
  String.concat " | " parts.

(** The callback of [sessions.forEach] in [listPrompts]. *)
Definition resumePrompt (summary : sessionSummary) (index : Z) : prompt :=
  let ordinal := pretty (index + 1) in
  {| prompt_name := PROMPT_RESUME_PREFIX ++ ordinal;
     prompt_description :=
       sanitizeDisplayText true (session_id summary) ++ " - "
         ++ formatPromptSessionDescription summary;
     prompt_arguments := [] |}.

Fixpoint resumePrompts_from (sessions : list sessionSummary) (index : Z) : list prompt :=
  match sessions with
  | [] => []
  | summary :: rest => resumePrompt summary index :: resumePrompts_from rest (index + 1)
  end.

(** The prompts that [listPrompts] answers (server.mjs:1965), from the
    sessions it has read and the session id it suggests. *)
Definition listPrompts_of (sessions : list sessionSummary) (suggestedSessionId : string)
  : list prompt :=
  let first :=
    {| prompt_name := PROMPT_NEW_SESSION;
       prompt_description := "New session (" ++ suggestedSessionId ++ ")";
       prompt_arguments := [] |} in
  let last :=
    {| prompt_name := PROMPT_RESUME_BY_ID;
       prompt_description := "Resume a session by explicit session_id";
       prompt_arguments :=
         [{| argument_name := "session_id";
             argument_description := "Session id to activate and resume";
             argument_required := true |}] |} in
  (first :: resumePrompts_from sessions 0 ++ [last])%list.
End Prompts.

(* ===================================================================== *)
(** * Vocabulary of the further properties *)
(* ===================================================================== *)

(** [typeof v === "string"] *)
Definition isString (v : jsval) : bool :=
  match v with JStr _ => true | _ => false end.

(** An optional string argument that is left out or given as a string. *)
Definition absent_or_string (v : jsval) : Prop :=
  v = JUndefined \/ v = JNull \/ exists s, v = JStr s.

(** An optional string argument that is left out or given empty. *)
Definition absent_or_empty (v : jsval) : Prop :=
  v = JUndefined \/ v = JNull \/ v = JStr "".

(** ** Shapes of strings *)

Fixpoint all_chars (class : ascii -> bool) (s : string) : bool :=
  match s with
  | EmptyString => true
  | String c s' => class c && all_chars class s'
  end.

Definition first_char (s : string) : option ascii :=
  match s with String c _ => Some c | EmptyString => None end.

Fixpoint last_char (s : string) : option ascii :=
  match s with
  | EmptyString => None
  | String c EmptyString => Some c
  | String _ s' => last_char s'
  end.

(** The optional character is there and of the class. *)
Definition char_in (class : ascii -> bool) (c : option ascii) : bool :=
  match c with Some c => class c | None => false end.

(** Two characters of the class in a row. *)
Fixpoint has_pair (class : ascii -> bool) (s : string) : bool :=
  match s with
  | String c s' => (class c && char_in class (first_char s')) || has_pair class s'
  | EmptyString => false
  end.

(** A session id as [sanitizeSessionId] makes them: not empty, made of
    letters, digits and [_ . / -], with no dash at either end and no two
    dashes in a row. *)
Definition clean_session_id (id : string) : Prop :=
  id <> ""
  /\ all_chars isSessionIdChar id = true
  /\ char_in isDash (first_char id) = false
  /\ char_in isDash (last_char id) = false
  /\ has_pair isDash id = false.

(** ** Display text *)

(** A character that [sanitizeDisplayText] lets through: not a control
    character other than TAB, LF and CR (ESC is a control character). *)
Definition isDisplayChar (c : ascii) : bool := negb (isControl c).

(** The parts of a CSI escape sequence after [ESC []]: parameter bytes,
    intermediate bytes and the final byte. *)
Definition isCSI (params inter : string) (final : ascii) : Prop :=
  all_chars (between 48 63) params = true
  /\ all_chars (between 32 47) inter = true
  /\ between 64 126 final = true.

Definition CSI (params inter : string) (final : ascii) : string :=
  String ESC (String "["%char (params ++ inter ++ String final EmptyString)).

(** ** Sessions of a list of entries *)

(** The session under which [buildSessionSummaries] counts an entry: its
    trimmed [session_id] when that is a string that is not blank, and
    otherwise the bucket of entries without session, if asked for. *)
Definition bucket_of (includeUnsessioned : bool) (entry : jsval) : option string :=
  let unsessioned := if includeUnsessioned then Some NO_SESSION_BUCKET else None in
  match entry.["session_id"] with
  | JStr s => if String.eqb (trim s) "" then unsessioned else Some (trim s)
  | _ => unsessioned
  end.

Definition in_bucket (includeUnsessioned : bool) (id : string) (entry : jsval) : bool :=
  bool_decide (bucket_of includeUnsessioned entry = Some id).

(** The entries counted under session [id], in log order. *)
Definition session_entries (includeUnsessioned : bool) (id : string) (entries : list jsval)
  : list jsval :=
  List.filter (in_bucket includeUnsessioned id) entries.

Definition count_kind (kind : string) (entries : list jsval) : Z :=
  Z.of_nat (length (List.filter (fun e => is_str e.["kind"] kind) entries)).

Section SummarySpec.
Variable Date_parse : jsval -> option Z.
Variable toISOString : Z -> string.
Variable sanitizeDisplayText : string -> string.

(** The summary of session [id] as the loop of [buildSessionSummaries]
    builds it: [cur] is the summary so far, if the session has been met. *)
Fixpoint summary_of (includeUnsessioned : bool) (id : string) (entries : list jsval)
    (fileIndex : Z) (cur : option sessionSummary) : option sessionSummary :=
  match entries with
  | [] => cur
  | entry :: rest =>
      summary_of includeUnsessioned id rest (fileIndex + 1)
        (if in_bucket includeUnsessioned id entry
         then Some (applyEntryToSessionSummary Date_parse toISOString sanitizeDisplayText
                      (default (makeSessionSummary id entry.["project"]) cur) entry fileIndex)
         else cur)
  end.

(** The time of an entry: its [ts] parsed, when it is a string that
    parses. *)
Definition entry_time (entry : jsval) : option Z :=
  match entry.["ts"] with
  | JStr s => if String.eqb s "" then None else Date_parse (JStr s)
  | _ => None
  end.
End SummarySpec.

(** The largest of a list of times, starting from [start]. *)
Definition latest_time (start : option Z) (times : list Z) : option Z :=
  fold_left (fun acc t => Some (match acc with Some a => Z.max a t | None => t end))
    times start.

(** A summary whose [latest_ts] is the rendering of its [latest_ts_ms],
    when it has one. *)
Definition ts_rendered (toISOString : Z -> string) (s : sessionSummary) : Prop :=
  forall ms, latest_ts_ms s = Some ms -> latest_ts s = Some (toISOString ms).

(** The agent named by an entry: its [agent] trimmed, when that is a
    string that is not blank. *)
Definition entry_agent (entry : jsval) : option string :=
  match entry.["agent"] with
  | JStr x => if String.eqb (trim x) "" then None else Some (trim x)
  | _ => None
  end.

(** A stand-in for [toISOString] that never answers the empty string. *)
Definition demo_iso (ms : Z) : string := "t" ++ pretty ms.

(** The summaries of the example log of three notes, and the one of
    session [s1] among them. *)
Definition demo_log : list jsval := (demo_prefix ++ map fst demo_steps)%list.

Definition demo_summaries : list sessionSummary :=
  buildSessionSummaries demo_Date_parse demo_iso demo_sanitize demo_localeCompare
    demo_log false.

Definition demo_s1 : sessionSummary :=
  nth 1 demo_summaries (makeSessionSummary "" JUndefined).

(** ** Resuming *)

(** The entries that [resume_session] looks at for a session: those of
    the project (any project when none is named) whose [session_id] is
    exactly the given one, or, for the bucket of entries without session,
    those that have none. *)
Definition resume_matches (project session_id : string) (entry : jsval) : Prop :=
  (project <> "" -> entry.["project"] = JStr project)
  /\ (if String.eqb session_id NO_SESSION_BUCKET then hasSessionId entry = false
      else entry.["session_id"] = JStr session_id).

(** A session id as [normalizeSessionId] hands it out: trimmed and not
    empty. *)
Definition normalized_id (id : string) : Prop := id <> "" /\ trim id = id.

(** ** Calls under watch *)

Section Watch.
Context {St : Type}.
(** A watch follows the calls of a program: [next] is the state it goes
    to on a call and its answer, [allowed] what it lets pass. *)
Variable next : St -> event -> St.
Variable allowed : St -> event -> Prop.

(** [watched s t Post]: whatever the answers, every call that [t] makes
    is allowed in the state the watch is in when the call is made, whether
    or not [t] ends; and when [t] ends with [r] the watch being in state
    [s'], [Post s' r] holds. *)
Fixpoint watched {R} (s : St) (t : io R) (Post : St -> R -> Prop) : Prop :=
  match t with
  | Done r => Post s r
  | Spin => True
  | Vis q k => forall x, allowed s (Ev q x) /\ watched (next s (Ev q x)) (k x) Post
  end.
End Watch.

(** The lock as the calls show it: not yet taken; held, from the
    exclusive creation of the marker, when it succeeds, to the next
    deletion of the marker; and released after that. *)
Inductive lockPhase : Type :=
| NotTaken
| Held
| Released.

Definition lock_next (LOCK : string) (phase : lockPhase) (e : event) : lockPhase :=
  match e with
  | Ev q x =>
      match q in request X return X -> lockPhase with
      | FsOpenWx path => fun x =>
          if String.eqb path LOCK
          then match x with Ok _ => Held | Throw _ => phase end
          else phase
      | FsUnlink path => fun _ =>
          if String.eqb path LOCK
          then match phase with Held => Released | _ => phase end
          else phase
      | _ => fun _ => phase
      end x
  end.

(** The only append let through is that of [line] to [file], with the
    lock held. *)
Definition append_under_lock (file line : string) (phase : lockPhase) (e : event) : Prop :=
  match e with
  | Ev q _ =>
      match q with
      | FsAppendFile path data => phase = Held /\ path = file /\ data = line
      | _ => True
      end
  end.

Definition anything {St : Type} (s : St) (e : event) : Prop := True.

(** ** Tools *)

Section ToolSpec.
Variable CONTEXT_FILE : string.
Variable MAX_NOTE_TEXT_CHARS MAX_HANDOFF_SUMMARY_CHARS : Z.
Variable JSON_stringify : jsval -> string.

(** The field holds a string that is trimmed and not empty. *)
Definition trimmed_field (entry : jsval) (k : string) : Prop :=
  exists v, entry.[k] = JStr v /\ normalized_id v.

(** The line of a note made from [args]: the serialization of an entry of
    kind [note] whose text is the one the arguments give, within the
    limit; whose agent is the trimmed [agent] argument, which is not
    blank; and whose [session_id] is absent or normalized. *)
Definition note_line (args : jsval) (data : string) : Prop :=
  exists entry text agent,
    data = JSON_stringify entry ++ NL
    /\ entry.["kind"] = JStr "note"
    /\ resolveNoteTextInput args = Ok text
    /\ entry.["text"] = JStr text
    /\ strlen text <= MAX_NOTE_TEXT_CHARS
    /\ args.["agent"] = JStr agent
    /\ trim agent <> ""
    /\ entry.["agent"] = JStr (trim agent)
    /\ (entry.["session_id"] = JUndefined \/ trimmed_field entry "session_id").

(** The line of a handoff made from [args]: the serialization of an entry
    of kind [handoff] whose summary is the [summary] argument as given,
    not empty and within the limit; whose agent is the trimmed [agent]
    argument, which is not blank; and whose [session_id] is absent or
    normalized. *)
Definition handoff_line (args : jsval) (data : string) : Prop :=
  exists entry summary agent,
    data = JSON_stringify entry ++ NL
    /\ entry.["kind"] = JStr "handoff"
    /\ args.["summary"] = JStr summary
    /\ summary <> ""
    /\ entry.["summary"] = JStr summary
    /\ strlen summary <= MAX_HANDOFF_SUMMARY_CHARS
    /\ args.["agent"] = JStr agent
    /\ trim agent <> ""
    /\ entry.["agent"] = JStr (trim agent)
    /\ (entry.["session_id"] = JUndefined \/ trimmed_field entry "session_id").

(** Appends are let through only with the lock held, to the log, of a
    line that [good] accepts. *)
Definition appends_only (good : string -> Prop) (phase : lockPhase) (e : event) : Prop :=
  match e with
  | Ev q _ =>
      match q with
      | FsAppendFile path data => phase = Held /\ path = CONTEXT_FILE /\ good data
      | _ => True
      end
  end.
End ToolSpec.

(** A call that only reads: the status or the content of one of [files],
    or a variable of the environment. *)
Definition reads_only (files : list string) (e : event) : Prop :=
  match e with
  | Ev q _ =>
      match q with
      | FsStat path | FsReadFile path => In path files
      | GetEnv _ => True
      | _ => False
      end
  end.

(** What a resolved session id can be. *)
Definition resolved_id (r : option string) : Prop :=
  r = None \/ exists id, r = Some id /\ normalized_id id.

(** The arguments [callTool] works with: [rawArgs] when it is an object,
    and else an object without properties. *)
Definition tool_args (rawArgs : jsval) : jsval :=
  if isObject rawArgs then rawArgs else JObj [].

(** ** Transport *)

Definition isAsciiByte (c : ascii) : bool := between 0 127 c.

(** What is used of UTF-8: a text is read back from its bytes, a text of
    ASCII characters is its own bytes, and the bytes of two texts put
    together are the bytes of the one and then of the other. *)
Definition utf8_codec (utf8_toString Buffer_from : string -> string) : Prop :=
  (forall s, utf8_toString (Buffer_from s) = s)
  /\ (forall s, all_chars isAsciiByte s = true -> Buffer_from s = s)
  /\ (forall a b, Buffer_from (a ++ b) = Buffer_from a ++ Buffer_from b).

(** The mode after [tryDecodeIncomingMessage]: the one set before, or
    else the one that the buffer shows. *)
Definition settledMode (st : transport) : option transportModeT :=
  match transportMode st with
  | Some mode => Some mode
  | None => detectIncomingTransportMode (inputBuffer st)
  end.

(** Lines that the line decoder passes over: each ends with a line feed,
    and holds only white space. *)
Inductive blankLines (utf8_toString : string -> string) : string -> Prop :=
| blank_none : blankLines utf8_toString ""
| blank_more (raw rest : string) :
    indexOf NL raw = None ->
    trim (utf8_toString raw) = "" ->
    blankLines utf8_toString rest ->
    blankLines utf8_toString (raw ++ NL ++ rest).

(** The header that [sendMessage] writes before [n] bytes, up to the
    separator. *)
Definition frameHeader (n : Z) : string :=
  "Content-Length: " ++ pretty n
    ++ String CR (String LF "Content-Type: application/json; charset=utf-8").

(** ** Session index *)

(** A summary as [normalizeSessionIndex] leaves it under [id] in the
    bucket of [projectName]. *)
Definition well_formed_summary (projectName id : string) (s : sessionSummary) : Prop :=
  session_id s = id
  /\ normalized_id id
  /\ project s = JStr projectName
  /\ 0 <= entry_count s /\ 0 <= note_count s /\ 0 <= handoff_count s
  /\ -1 <= latest_file_index s
  /\ latest_ts s <> Some ""
  /\ (last_entry_kind s = JUndefined \/ last_entry_kind s = JStr "note"
      \/ last_entry_kind s = JStr "handoff")
  /\ (forall t, task s = Some t -> normalized_id t)
  /\ (forall t, latest_handoff_summary s = Some t -> normalized_id t)
  /\ List.NoDup (agents s)
  /\ StronglySorted (fun a b => compareStrings a b <= 0) (agents s)
  /\ Forall normalized_id (agents s).

(* ===================================================================== *)
(** * Properties *)
(* ===================================================================== *)

(** ** Record Log: parsing *)

Lemma splitLines_nonempty s : splitLines s <> [].
Proof.
  induction s as [|c s IH]; simpl; [discriminate|].
  destruct (Ascii.eqb c LF); [discriminate|].
  destruct (Ascii.eqb c CR).
  - destruct s as [|c' s']; [destruct (splitLines ""); discriminate|].
    destruct (Ascii.eqb c' LF); [discriminate|].
    destruct (splitLines (String c' s')); discriminate.
  - destruct (splitLines s); discriminate.
Qed.

Lemma splitLines_keep c s :
  Ascii.eqb c LF = false ->
  (Ascii.eqb c CR = true -> match s with String c' _ => Ascii.eqb c' LF = false | EmptyString => True end) ->
  splitLines (String c s) =
    match splitLines s with l :: ls => String c l :: ls | [] => [String c EmptyString] end.
Proof.
  intros Hlf Hcr. cbn [splitLines]. rewrite Hlf.
  destruct (Ascii.eqb c CR); [|reflexivity].
  destruct s as [|c' s']; [reflexivity|].
  rewrite (Hcr eq_refl). reflexivity.
Qed.

(** A text without line feed is one line. *)
Lemma splitLines_one l : has_LF l = false -> splitLines l = [l].
Proof.
  induction l as [|c l IH]; [reflexivity|].
  cbn [has_LF]. intros [Hc Hl]%orb_false_elim.
  rewrite splitLines_keep; [rewrite (IH Hl); reflexivity|exact Hc|].
  intros _. destruct l as [|c' l']; [exact I|].
  cbn [has_LF] in Hl. apply orb_false_elim in Hl. tauto.
Qed.

(** A line feed ends the line before it. *)
Lemma splitLines_LF l rest :
  has_LF l = false -> ends_with_CR l = false ->
  splitLines (l ++ String LF rest) = l :: splitLines rest.
Proof.
  induction l as [|c l IH]; [reflexivity|].
  cbn [has_LF]. intros [Hc Hl]%orb_false_elim Hcr.
  change (String c l ++ String LF rest)%string with (String c (l ++ String LF rest)).
  rewrite splitLines_keep.
  - rewrite IH; [reflexivity|exact Hl|].
    destruct l; [reflexivity|exact Hcr].
  - exact Hc.
  - intros Hc'. destruct l as [|c' l'].
    + cbn in Hcr. congruence.
    + cbn [has_LF] in Hl. apply orb_false_elim in Hl. cbn. tauto.
Qed.

(** A carriage return followed by a line feed ends the line before it. *)
Lemma splitLines_CRLF l rest :
  has_LF l = false ->
  splitLines (l ++ String CR (String LF rest)) = l :: splitLines rest.
Proof.
  induction l as [|c l IH]; [reflexivity|].
  cbn [has_LF]. intros [Hc Hl]%orb_false_elim.
  change (String c l ++ String CR (String LF rest))%string
    with (String c (l ++ String CR (String LF rest))).
  rewrite splitLines_keep.
  - rewrite (IH Hl); reflexivity.
  - exact Hc.
  - intros _. destruct l as [|c' l']; [reflexivity|].
    cbn [has_LF] in Hl. apply orb_false_elim in Hl. cbn. tauto.
Qed.

Section ParseFacts.
Variable JSON_parse : string -> jsval + string.

Lemma isBlank_trim l : isBlank l = String.eqb (trim l) "".
Proof.
  unfold isBlank. destruct (String.eqb_spec l "") as [->|]; reflexivity.
Qed.

(** The loop adds to its two arrays what each remaining line
    contributes, in order. *)
Lemma parseEntries_from_spec lines : forall (n : nat) es errs,
  parseEntries_from JSON_parse lines (Z.of_nat n) es errs =
    ((es ++ omap (entry_of JSON_parse) lines)%list,
     (errs ++ omap (error_of JSON_parse) (zip (seq n (length lines)) lines))%list).
Proof.
  induction lines as [|l lines IH]; intros n es errs.
  - cbn. rewrite !app_nil_r. reflexivity.
  - cbn [parseEntries_from length seq zip zip_with omap option_bind list_omap].
    replace (Z.of_nat n + 1) with (Z.of_nat (S n)) by lia.
    unfold entry_of at 1, error_of at 1, classify. cbn [snd fst].
    rewrite isBlank_trim.
    destruct (String.eqb (trim l) ""); [apply IH|].
    destruct (JSON_parse l) as [parsed|err].
    + destruct parsed; cbn [isObject]; rewrite IH; cbn;
        rewrite <- ?app_assoc; try reflexivity;
        replace (Z.of_nat n + 1) with (Z.of_nat (S n)) by lia; reflexivity.
    + rewrite IH. cbn. rewrite <- app_assoc.
      replace (Z.of_nat n + 1) with (Z.of_nat (S n)) by lia. reflexivity.
Qed.

(** The errors recorded for line number [i + 1] among the lines numbered
    from [n]. *)
Lemma errors_at_omap lines : forall (n i : nat),
  errors_at (Z.of_nat i + 1) (omap (error_of JSON_parse) (zip (seq n (length lines)) lines)) =
    match (if (n <=? i)%nat then lines !! (i - n)%nat else None) with
    | Some l => match classify JSON_parse l with IsError _ => 1%nat | _ => 0%nat end
    | None => 0%nat
    end.
Proof.
  induction lines as [|l lines IH]; intros n i.
  - cbn. destruct (n <=? i)%nat; reflexivity.
  - cbn [length seq zip zip_with omap option_bind list_omap].
    assert (Hrest := IH (S n) i).
    destruct (Nat.leb_spec n i) as [Hle|Hlt].
    + destruct (decide (i = n)) as [->|Hne].
      * replace (n - n)%nat with 0%nat by lia. cbn [lookup list_lookup].
        destruct (Nat.leb_spec (S n) n) as [?|_]; [lia|].
        unfold error_of at 1. cbn [snd fst].
        destruct (classify JSON_parse l); try exact Hrest.
        unfold errors_at in *. cbn [List.filter line].
        rewrite Z.eqb_refl. cbn [length]. rewrite Hrest. reflexivity.
      * destruct (Nat.leb_spec (S n) i) as [_|?]; [|lia].
        replace (i - n)%nat with (S (i - S n)) by lia. cbn [lookup list_lookup].
        unfold error_of at 1. cbn [snd fst].
        destruct (classify JSON_parse l); try exact Hrest.
        unfold errors_at in *. cbn [List.filter line].
        destruct (Z.eqb_spec (Z.of_nat n + 1) (Z.of_nat i + 1)) as [?|_]; [lia|].
        exact Hrest.
    + destruct (Nat.leb_spec (S n) i) as [?|_]; [lia|].
      unfold error_of at 1. cbn [snd fst].
      destruct (classify JSON_parse l); try exact Hrest.
      unfold errors_at in *. cbn [List.filter line].
      destruct (Z.eqb_spec (Z.of_nat n + 1) (Z.of_nat i + 1)) as [?|_]; [lia|].
      exact Hrest.
Qed.

(** C6. For every raw text, [parseEntries] returns (it is a total
    function: no input makes it abort), and with the text split at each
    line feed, together with the carriage return before it if any:
    - the entries are the decoded values of the lines that are not blank
      and decode to a plain object, in the order of the lines;
    - the parse errors are one record per line that is not blank and
      either fails to decode or decodes to something else (an array, a
      scalar, null), with the 1-based number of that line, in the order
      of the lines;
    - so the number of error records for the line at 0-based position
      [i] is 1 if that line is such a line and 0 otherwise;
    - the split treats LF and CRLF as line boundaries. *)
Theorem parseEntries_lines (rawText : string) :
  let lines := splitLines rawText in
  parseEntries JSON_parse rawText =
    (omap (entry_of JSON_parse) lines, omap (error_of JSON_parse) (numbered lines))
  /\ (forall i : nat,
        errors_at (Z.of_nat i + 1) (parseEntries JSON_parse rawText).2 =
          match lines !! i with
          | Some l => match classify JSON_parse l with IsError _ => 1%nat | _ => 0%nat end
          | None => 0%nat
          end)
  /\ (forall l : string, has_LF l = false -> splitLines l = [l])
  /\ (forall l rest : string,
        has_LF l = false -> ends_with_CR l = false ->
        splitLines (l ++ String LF rest) = l :: splitLines rest)
  /\ (forall l rest : string,
        has_LF l = false ->
        splitLines (l ++ String CR (String LF rest)) = l :: splitLines rest).
Proof.
  intros lines.
  assert (Heq : parseEntries JSON_parse rawText =
    (omap (entry_of JSON_parse) lines, omap (error_of JSON_parse) (numbered lines))).
  { unfold parseEntries. apply (parseEntries_from_spec (splitLines rawText) 0 [] []). }
  split; [exact Heq|]. split.
  - intros i. rewrite Heq. cbn [snd]. unfold numbered.
    rewrite errors_at_omap. cbn [Nat.leb]. rewrite Nat.sub_0_r. reflexivity.
  - split; [exact splitLines_one|]. split; [exact splitLines_LF|exact splitLines_CRLF].
Qed.
End ParseFacts.

(** C6 on a concrete text: two entries, a blank line, an array and a
    scalar; CRLF and LF boundaries. *)
Lemma parseEntries_lines_witness :
  parseEntries demo_JSON_parse
    ("{}" ++ String CR (String LF ("[1]" ++ String LF (String LF ("7" ++ String LF ("{" ++ dq ++ "a" ++ dq ++ ":1}"))))))
  = ([JObj []; JObj [("a", JNum 1)]],
     [ {| line := 2; error := "Error: line is not a JSON object" |};
       {| line := 4; error := "Error: line is not a JSON object" |} ])
  /\ splitLines ("{}" ++ String CR (String LF "[1]")) = ["{}"; "[1]"].
Proof.
  split.
  - rewrite (proj1 (parseEntries_lines demo_JSON_parse _)). vm_compute. reflexivity.
  - rewrite (proj2 (proj2 (proj2 (proj2 (parseEntries_lines demo_JSON_parse "")))) "{}" "[1]" eq_refl).
    rewrite (proj1 (proj2 (proj2 (parseEntries_lines demo_JSON_parse ""))) "[1]" eq_refl).
    reflexivity.
Defined.

(** ** Query engine: filtering *)

Section FilterFacts.
Variable Date_parse : jsval -> option Z.

Lemma is_str_eq v s : is_str v s = true <-> v = JStr s.
Proof.
  destruct v; cbn; try (split; [discriminate|intros [=]]).
  rewrite String.eqb_eq. split; [intros ->; reflexivity|intros [=]; assumption].
Qed.

(** One guard of the callback against the rule for one field. *)
Lemma field_ok_present f v :
  field_ok f v = true <-> (forall s, present f s -> v = JStr s).
Proof.
  unfold field_ok, present. destruct f as [s|].
  - destruct (String.eqb_spec s "") as [->|Hne]; cbn.
    + split; [|reflexivity]. intros _ s' [[= <-] Hs]. congruence.
    + rewrite is_str_eq. split.
      * intros -> s' [[= <-] _]. reflexivity.
      * intros H. apply H. split; [reflexivity|assumption].
  - split; [|reflexivity]. intros _ s' [? _]. discriminate.
Qed.

(** C7. An entry passes the callback of [filterEntries] exactly when it
    satisfies the rule: each filter field that is present (given and
    not empty) equals the entry's field, which must then be that very
    string; and when [since] is present, the entry's timestamp parses
    and is not earlier than the parsed [since]. The entries kept by
    [filterEntries] are those of the input that pass, in their order. *)
Theorem filterEntries_matches (fl : filters) (entries : list jsval) (entry : jsval) :
  (entryMatches Date_parse fl entry = true <-> Matches Date_parse fl entry)
  /\ filterEntries Date_parse entries fl = List.filter (entryMatches Date_parse fl) entries
  /\ (In entry (filterEntries Date_parse entries fl) <->
        In entry entries /\ Matches Date_parse fl entry)
  /\ (forall s, present (f_since fl) s ->
        entry_ms Date_parse entry = None -> entryMatches Date_parse fl entry = false).
Proof.
  assert (Hiff : entryMatches Date_parse fl entry = true <-> Matches Date_parse fl entry).
  { unfold entryMatches, Matches.
    rewrite <- !field_ok_present.
    destruct (field_ok (f_project fl) entry.["project"]); cbn [negb];
      [|split; [discriminate|intros (? & _); discriminate]].
    destruct (field_ok (f_agent fl) entry.["agent"]); cbn [negb];
      [|split; [discriminate|intros (_ & ? & _); discriminate]].
    destruct (field_ok (f_session_id fl) entry.["session_id"]); cbn [negb];
      [|split; [discriminate|intros (_ & _ & ? & _); discriminate]].
    destruct (field_ok (f_kind fl) entry.["kind"]); cbn [negb];
      [|split; [discriminate|intros (_ & _ & _ & ? & _); discriminate]].
    unfold sinceMs_of, present, entry_ms.
    destruct (f_since fl) as [since|].
    - destruct (String.eqb_spec since "") as [->|Hne]; cbn [negb].
      + split; [|reflexivity]. intros _. repeat split.
        intros s [[= <-] Hs]. congruence.
      + destruct (Date_parse (js_or entry.["ts"] (JStr ""))) as [e|].
        * destruct (Date_parse (JStr since)) as [sm|] eqn:Hsince.
          -- destruct (Z.ltb_spec e sm) as [Hlt|Hge].
             ++ split; [discriminate|]. intros (_ & _ & _ & _ & H).
                destruct (H since (conj eq_refl Hne)) as (e' & [= <-] & Hle).
                specialize (Hle sm). rewrite Hsince in Hle. specialize (Hle eq_refl). lia.
             ++ split; [|reflexivity]. intros _. repeat split.
                intros s [[= <-] _]. exists e. split; [reflexivity|].
                rewrite Hsince. intros ? [= <-]. exact Hge.
          -- split; [|reflexivity]. intros _. repeat split.
             intros s [[= <-] _]. exists e. split; [reflexivity|].
             rewrite Hsince. discriminate.
        * split; [discriminate|]. intros (_ & _ & _ & _ & H).
          destruct (H since (conj eq_refl Hne)) as (e' & [=] & _).
    - split; [|reflexivity]. intros _. repeat split. intros s [[=] _]. }
  split; [exact Hiff|]. split; [reflexivity|]. split.
  - unfold filterEntries. rewrite filter_In, Hiff. reflexivity.
  - intros s Hs Hms.
    destruct (entryMatches Date_parse fl entry) eqn:E; [|reflexivity].
    destruct (proj1 Hiff eq_refl) as (_ & _ & _ & _ & H).
    destruct (H s Hs) as (e & He & _). congruence.
Qed.
End FilterFacts.

(** C7 on the example of the specification: entries at 10:00, 10:05 and
    10:10 with [since] = 10:05; exactly the last two are returned, and an
    entry whose timestamp does not parse is dropped. *)
Lemma filterEntries_matches_witness :
  filterEntries demo_Date_parse
    [demo_entry "2024-01-01T10:00:00.000Z"; demo_entry "2024-01-01T10:05:00.000Z";
     demo_entry "yesterday"; demo_entry "2024-01-01T10:10:00.000Z"]
    (since_filter "2024-01-01T10:05:00.000Z")
  = [demo_entry "2024-01-01T10:05:00.000Z"; demo_entry "2024-01-01T10:10:00.000Z"]
  /\ entryMatches demo_Date_parse (since_filter "2024-01-01T10:05:00.000Z")
       (demo_entry "yesterday") = false.
Proof.
  split.
  - rewrite (proj1 (proj2 (filterEntries_matches demo_Date_parse
               (since_filter "2024-01-01T10:05:00.000Z") _ JNull))).
    vm_compute. reflexivity.
  - apply (proj2 (proj2 (proj2 (filterEntries_matches demo_Date_parse
               (since_filter "2024-01-01T10:05:00.000Z") [] (demo_entry "yesterday"))))
             "2024-01-01T10:05:00.000Z").
    + split; [reflexivity|discriminate].
    + reflexivity.
Defined.

(** ** Query engine: order of a session listing *)

Section ArraySortFacts.
Context {A : Type} (compare : A -> A -> Z).

Let le (x y : A) : Prop := compare x y <= 0.

Lemma sort_insert_Permutation x l : Permutation (sort_insert compare x l) (x :: l).
Proof.
  induction l as [|y l IH]; cbn; [reflexivity|].
  destruct (compare x y <=? 0); [reflexivity|].
  rewrite IH. apply perm_swap.
Qed.

Lemma array_sort_Permutation l : Permutation (array_sort compare l) l.
Proof.
  induction l as [|x l IH]; cbn; [reflexivity|].
  rewrite sort_insert_Permutation, IH. reflexivity.
Qed.

Hypothesis le_total : forall x y, le x y \/ le y x.
Hypothesis le_trans : forall x y z, le x y -> le y z -> le x z.

Lemma sort_insert_sorted x l :
  StronglySorted le l -> StronglySorted le (sort_insert compare x l).
Proof.
  induction 1 as [|y l Hs IH Hall]; cbn.
  - constructor; constructor.
  - destruct (Z.leb_spec (compare x y) 0) as [Hxy|Hyx].
    + constructor; [constructor; assumption|].
      constructor; [exact Hxy|].
      eapply Forall_impl; [exact Hall|]. intros z Hz. exact (le_trans _ _ _ Hxy Hz).
    + constructor; [exact IH|].
      rewrite (Forall_forall (le y)). intros z Hz.
      rewrite sort_insert_Permutation in Hz.
      apply elem_of_cons in Hz as [->|Hz].
      * destruct (le_total x y) as [H|H]; [unfold le in H; lia|exact H].
      * rewrite Forall_forall in Hall. apply Hall, Hz.
Qed.

Lemma array_sort_sorted l : StronglySorted le (array_sort compare l).
Proof.
  induction l as [|x l IH]; cbn; [constructor|]. apply sort_insert_sorted, IH.
Qed.
End ArraySortFacts.

Lemma StronglySorted_weaken {A} (R1 R2 : A -> A -> Prop) l :
  (forall a b, R1 a b -> R2 a b) -> StronglySorted R1 l -> StronglySorted R2 l.
Proof.
  intros HR. induction 1 as [|x l Hs IH Hall]; constructor; [exact IH|].
  eapply Forall_impl; [exact Hall|]. intros z. apply HR.
Qed.

(** One decision of the comparator on symbolic timestamps. *)
Ltac sort_step :=
  match goal with
  | |- context [Z.eqb ?x ?x] => rewrite (Z.eqb_refl x)
  | |- context [Z.eqb ?x ?y] => destruct (Z.eqb_spec x y); [lia|]
  | |- context [Z.leb ?x ?y] =>
      lazymatch x with
      | context [Z.eqb] => fail
      | _ => destruct (Z.leb_spec x y); try lia
      end
  end; cbn.

Section SortFacts.
Variable Date_parse : jsval -> option Z.
Variable localeCompare : string -> string -> Z.

(** The comparator puts [a] first exactly when [a] may be listed before
    [b]. *)
Lemma compareSummaries_listedBefore a b :
  compareSummaries Date_parse localeCompare a b <= 0
  <-> listedBefore Date_parse localeCompare a b.
Proof.
  unfold compareSummaries, listedBefore.
  destruct (getSummaryLatestTsMs Date_parse b) as [|x],
           (getSummaryLatestTsMs Date_parse a) as [|y]; cbn [ts_lt].
  - destruct (Z.eqb_spec (latest_file_index b) (latest_file_index a)); cbn [negb].
    + split; [intros; right; split; [reflexivity|right; split; [congruence|assumption]]|].
      intros [[]|(_ & [?|[_ ?]])]; [lia|assumption].
    + split; [intros; right; split; [reflexivity|left; lia]|].
      intros [[]|(_ & [?|[? _]])]; [lia|congruence].
  - split; [intros _; left; exact I|lia].
  - split; [lia|]. intros [[]|([=] & _)].
  - destruct (Z.eqb_spec x y) as [->|Hne]; cbn [negb].
    + destruct (Z.eqb_spec (latest_file_index b) (latest_file_index a)); cbn [negb].
      * split; [intros; right; split; [reflexivity|right; split; [congruence|assumption]]|].
        intros [?|(_ & [?|[_ ?]])]; [lia|lia|assumption].
      * split; [intros; right; split; [reflexivity|left; lia]|].
        intros [?|(_ & [?|[? _]])]; [lia|lia|congruence].
    + split; [intros; left; lia|]. intros [?|([= ?] & _)]; [lia|congruence].
Qed.

Hypothesis localeCompare_total :
  forall a b, localeCompare a b <= 0 \/ localeCompare b a <= 0.
Hypothesis localeCompare_trans :
  forall a b c, localeCompare a b <= 0 -> localeCompare b c <= 0 -> localeCompare a c <= 0.

Lemma compareSummaries_total a b :
  compareSummaries Date_parse localeCompare a b <= 0
  \/ compareSummaries Date_parse localeCompare b a <= 0.
Proof.
  rewrite !compareSummaries_listedBefore. unfold listedBefore.
  destruct (getSummaryLatestTsMs Date_parse a) as [|x],
           (getSummaryLatestTsMs Date_parse b) as [|y]; cbn [ts_lt].
  2: right; left; exact I.
  2: left; left; exact I.
  - destruct (Z.lt_total (latest_file_index a) (latest_file_index b)) as [?|[?|?]];
      [right; right; split; [reflexivity|left; assumption]| |
       left; right; split; [reflexivity|left; assumption]].
    destruct (localeCompare_total (session_id a) (session_id b));
      [left|right]; right; (split; [reflexivity|right; split; [congruence|assumption]]).
  - destruct (Z.lt_total x y) as [?|[->|?]]; [right; left; assumption| |left; left; assumption].
    destruct (Z.lt_total (latest_file_index a) (latest_file_index b)) as [?|[?|?]];
      [right; right; split; [reflexivity|left; assumption]| |
       left; right; split; [reflexivity|left; assumption]].
    destruct (localeCompare_total (session_id a) (session_id b));
      [left|right]; right; (split; [reflexivity|right; split; [congruence|assumption]]).
Qed.

Lemma compareSummaries_trans a b c :
  compareSummaries Date_parse localeCompare a b <= 0 ->
  compareSummaries Date_parse localeCompare b c <= 0 ->
  compareSummaries Date_parse localeCompare a c <= 0.
Proof.
  rewrite !compareSummaries_listedBefore. unfold listedBefore.
  destruct (getSummaryLatestTsMs Date_parse a) as [|x],
           (getSummaryLatestTsMs Date_parse b) as [|y],
           (getSummaryLatestTsMs Date_parse c) as [|z]; cbn [ts_lt];
    intros [Hab|(Eab & Hab)] [Hbc|(Ebc & Hbc)];
    try contradiction; try discriminate;
    try (left; first [exact I | injection Eab as ?; injection Ebc as ?; lia
                      | injection Eab as ?; lia | injection Ebc as ?; lia | lia]).
  all: right; split; [congruence|].
  all: destruct Hab as [Hab|(Hab & Lab)], Hbc as [Hbc|(Hbc & Lbc)];
      [left; lia|left; lia|left; lia|
       right; split; [lia|exact (localeCompare_trans _ _ _ Lab Lbc)]].
Qed.

(** C3. When [localeCompare] orders the session ids (any two are
    comparable, and the comparison is transitive), [sortSessionSummaries]
    returns a rearrangement of its input in which every summary may be
    listed before every later one: later latest timestamp first, then
    larger latest file index, then session id ascending. In particular
    the sessions A (ts = T, idx = 3), B (ts = T, idx = 5) and
    C (ts = T - 1), given in any order, come out as B, A, C. *)
Theorem sortSessionSummaries_order (summaries : list sessionSummary) :
  Permutation (sortSessionSummaries Date_parse localeCompare summaries) summaries
  /\ StronglySorted (listedBefore Date_parse localeCompare)
       (sortSessionSummaries Date_parse localeCompare summaries)
  /\ (forall (T idxC : Z) (l : list sessionSummary),
        Permutation l [summary_at "A" T 3; summary_at "B" T 5; summary_at "C" (T - 1) idxC] ->
        sortSessionSummaries Date_parse localeCompare l =
          [summary_at "B" T 5; summary_at "A" T 3; summary_at "C" (T - 1) idxC]).
Proof.
  split; [apply array_sort_Permutation|]. split.
  - eapply StronglySorted_weaken; [|apply array_sort_sorted].
    + intros a b. apply compareSummaries_listedBefore.
    + exact compareSummaries_total.
    + exact compareSummaries_trans.
  - intros T idxC l Hl.
    apply Permutation_sym, permutations_Permutation in Hl.
    cbn in Hl.
    repeat (apply elem_of_cons in Hl as [->|Hl]); [..|apply elem_of_nil in Hl; contradiction];
      unfold sortSessionSummaries; cbn; repeat sort_step;
      reflexivity.
Qed.
End SortFacts.

(** C3 on concrete summaries, with ids compared by code units. *)
Lemma compareStrings_le a b : compareStrings a b <= 0 <-> String.le a b.
Proof.
  unfold compareStrings, String.le, String.leb.
  destruct (String.compare a b); cbn; intuition lia.
Qed.

Lemma demo_localeCompare_total a b :
  demo_localeCompare a b <= 0 \/ demo_localeCompare b a <= 0.
Proof.
  unfold demo_localeCompare. rewrite !compareStrings_le.
  destruct (total String.le a b); auto.
Qed.

Lemma demo_localeCompare_trans a b c :
  demo_localeCompare a b <= 0 -> demo_localeCompare b c <= 0 -> demo_localeCompare a c <= 0.
Proof.
  unfold demo_localeCompare. rewrite !compareStrings_le. intros. by etrans.
Qed.

Lemma sortSessionSummaries_order_witness :
  sortSessionSummaries demo_Date_parse demo_localeCompare
    [summary_at "A" 1700 3; summary_at "B" 1700 5; summary_at "C" 1699 9]
  = [summary_at "B" 1700 5; summary_at "A" 1700 3; summary_at "C" 1699 9]
  /\ StronglySorted (listedBefore demo_Date_parse demo_localeCompare)
       (sortSessionSummaries demo_Date_parse demo_localeCompare
          [summary_at "b" 5 1; summary_at "a" 5 1; summary_at "c" 5 1]).
Proof.
  split.
  - apply (proj2 (proj2 (sortSessionSummaries_order demo_Date_parse demo_localeCompare
             demo_localeCompare_total demo_localeCompare_trans [])) 1700 9).
    reflexivity.
  - apply (proj1 (proj2 (sortSessionSummaries_order demo_Date_parse demo_localeCompare
             demo_localeCompare_total demo_localeCompare_trans _))).
Defined.

Example sortSessionSummaries_ties :
  map session_id
    (sortSessionSummaries demo_Date_parse demo_localeCompare
       [summary_at "b" 5 1; summary_at "a" 5 1; summary_at "c" 5 1]) = ["a"; "b"; "c"].
Proof. reflexivity. Qed.

(** ** Session resolution *)

Lemma normalizeSessionId_gives v id : gives v id -> normalizeSessionId v = Ok (Some id).
Proof.
  intros (s & -> & Hne & ->). cbn.
  destruct (String.eqb_spec (trim s) ""); [contradiction|reflexivity].
Qed.

Lemma normalizeSessionId_nothing v : gives_nothing v -> normalizeSessionId v = Ok None.
Proof.
  intros [->|[->|(s & -> & Hs)]]; try reflexivity.
  cbn. rewrite Hs. reflexivity.
Qed.

Lemma gives_nonempty v id : gives v id -> String.eqb id "" = false.
Proof.
  intros (s & -> & Hne & ->).
  destruct (String.eqb_spec (trim s) ""); [contradiction|reflexivity].
Qed.

Section ResolutionFacts.
Variable ACTIVE_SESSION_FILE : string.

(** C4. Session resolution, in any environment and whatever the state
    of the caches. With [env] the value of the environment override and
    [pointer] the outcome of reading the pointer file:
    - an explicit argument that gives an id wins, and neither the
      environment nor the pointer is consulted;
    - otherwise an environment override that gives an id wins;
    - otherwise the persisted pointer is used when its file gives an id;
    - otherwise, when all three give nothing, an operation that requires
      a session fails with the missing-session error, whose message names
      [list_sessions/choose_session] as the remedy; one that does not
      require a session goes on without one. *)
Theorem resolveSessionIdInput_precedence {S : Type} (h : handler S) (s : S) (p : proc)
    (value : jsval) (required : bool) :
  let env := (h _ (GetEnv ENV_ACTIVE_SESSION) s).1 in
  let s1 := (h _ (GetEnv ENV_ACTIVE_SESSION) s).2 in
  let pointer := (h _ (FsReadFile ACTIVE_SESSION_FILE) s1).1 in
  let ran := run h (resolveSessionIdInput ACTIVE_SESSION_FILE value required p) s in
  (forall id, gives value id ->
     outcome_of ran = Some (Ok (Some id), p) /\ trace_of ran = [])
  /\ (gives_nothing value -> forall id, gives (of_opt env) id ->
        outcome_of ran = Some (Ok (Some id), p))
  /\ (gives_nothing value -> gives_nothing (of_opt env) ->
        forall text id, pointer = Ok text -> gives (JStr text) id ->
        outcome_of ran = Some (Ok (Some id), p))
  /\ (gives_nothing value -> gives_nothing (of_opt env) -> pointer_absent pointer ->
        outcome_of ran =
          Some (if required then Throw (Error MissingSessionId_message) else Ok None, p))
  /\ String.index 0 "list_sessions/choose_session" MissingSessionId_message = Some 36%nat.
Proof.
  intros env s1 pointer ran. subst ran.
  unfold resolveSessionIdInput, readActiveSessionId, mbind, M_bind, lift, outcome_of, trace_of.
  split; [|split; [|split; [|split]]].
  - intros id Hid. rewrite (normalizeSessionId_gives _ _ Hid). cbn -[normalizeSessionId].
    rewrite (gives_nonempty _ _ Hid). cbn. split; reflexivity.
  - intros Hv id Hid. rewrite (normalizeSessionId_nothing _ Hv). cbn -[normalizeSessionId].
    subst env. fold ENV_ACTIVE_SESSION.
    destruct (h _ (GetEnv ENV_ACTIVE_SESSION) s) as [e s'] eqn:Hh; cbn -[normalizeSessionId] in *.
    rewrite (normalizeSessionId_gives _ _ Hid). cbn -[normalizeSessionId].
    repeat (rewrite (gives_nonempty _ _ Hid); cbn -[normalizeSessionId]). reflexivity.
  - intros Hv He text id Hp Hid. rewrite (normalizeSessionId_nothing _ Hv). cbn -[normalizeSessionId].
    subst env pointer s1. fold ENV_ACTIVE_SESSION.
    destruct (h _ (GetEnv ENV_ACTIVE_SESSION) s) as [e s'] eqn:Hh; cbn -[normalizeSessionId] in *.
    rewrite (normalizeSessionId_nothing _ He). cbn -[normalizeSessionId].
    destruct (h _ (FsReadFile ACTIVE_SESSION_FILE) s') as [f s''] eqn:Hf; cbn -[normalizeSessionId] in *.
    subst f. cbn -[normalizeSessionId].
    pose proof (normalizeSessionId_gives _ _ Hid) as Hn. cbn -[normalizeSessionId] in Hn. rewrite Hn. cbn -[normalizeSessionId].
    repeat (rewrite (gives_nonempty _ _ Hid); cbn -[normalizeSessionId]). reflexivity.
  - intros Hv He Hp. rewrite (normalizeSessionId_nothing _ Hv). cbn -[normalizeSessionId].
    subst env pointer s1. fold ENV_ACTIVE_SESSION.
    destruct (h _ (GetEnv ENV_ACTIVE_SESSION) s) as [e s'] eqn:Hh; cbn -[normalizeSessionId] in *.
    rewrite (normalizeSessionId_nothing _ He). cbn -[normalizeSessionId].
    destruct (h _ (FsReadFile ACTIVE_SESSION_FILE) s') as [f s''] eqn:Hf; cbn -[normalizeSessionId] in *.
    destruct Hp as [(err & -> & Hcode)|(text & -> & Hblank)]; cbn -[normalizeSessionId].
    + rewrite Hcode. cbn. destruct required; reflexivity.
    + rewrite (normalizeSessionId_nothing (JStr text)) by (right; right; eauto).
      cbn. destruct required; reflexivity.
  - vm_compute. reflexivity.
Qed.
End ResolutionFacts.

(** C4 in an environment where the override is "env-session" and the
    pointer file holds "file-session": the explicit argument wins over
    both, the override over the pointer; and with nothing anywhere a
    required session is reported missing. *)
Lemma resolveSessionIdInput_precedence_witness :
  outcome_of (run demo_session_env
     (resolveSessionIdInput "active-session.txt" (JStr " mine ") true proc0)
     (Some "env-session", Ok "file-session")) = Some (Ok (Some "mine"), proc0)
  /\ outcome_of (run demo_session_env
     (resolveSessionIdInput "active-session.txt" JUndefined true proc0)
     (Some "env-session", Ok "file-session")) = Some (Ok (Some "env-session"), proc0)
  /\ outcome_of (run demo_session_env
     (resolveSessionIdInput "active-session.txt" (JStr "") true proc0)
     (None, Ok ("file-session" ++ NL))) = Some (Ok (Some "file-session"), proc0)
  /\ outcome_of (run demo_session_env
     (resolveSessionIdInput "active-session.txt" JNull true proc0)
     (None, Throw (SystemError "ENOENT")))
     = Some (Throw (Error MissingSessionId_message), proc0).
Proof.
  split; [|split; [|split]].
  - apply (proj1 (resolveSessionIdInput_precedence "active-session.txt" demo_session_env
             (Some "env-session", Ok "file-session") proc0 (JStr " mine ") true) "mine").
    exists " mine ". split; [reflexivity|]. split; [discriminate|reflexivity].
  - apply (proj1 (proj2 (resolveSessionIdInput_precedence "active-session.txt" demo_session_env
             (Some "env-session", Ok "file-session") proc0 JUndefined true))).
    + left. reflexivity.
    + exists "env-session". split; [reflexivity|]. split; [discriminate|reflexivity].
  - apply (proj1 (proj2 (proj2 (resolveSessionIdInput_precedence "active-session.txt"
             demo_session_env (None, Ok ("file-session" ++ NL)) proc0 (JStr "") true)))
             ltac:(right; right; exists ""; split; reflexivity)
             ltac:(left; reflexivity)
             ("file-session" ++ NL) "file-session" eq_refl).
    exists ("file-session" ++ NL). split; [reflexivity|]. split; [discriminate|reflexivity].
  - apply (proj1 (proj2 (proj2 (proj2 (resolveSessionIdInput_precedence "active-session.txt"
             demo_session_env (None, Throw (SystemError "ENOENT")) proc0 JNull true))))).
    + right; left; reflexivity.
    + left; reflexivity.
    + left. exists (SystemError "ENOENT"). split; reflexivity.
Defined.

(** ** Choosing a session *)

Lemma asString_ValidationError v name required trim_ e :
  asString v name required trim_ = Throw e -> ValidationError e.
Proof.
  unfold asString, ValidationError. destruct v; try (intros [= <-]; eauto; fail).
  - destruct required; intros [= <-]; eauto.
  - destruct required; intros [= <-]; eauto.
  - destruct (required && _); intros [= <-]; eauto.
Qed.

Lemma asPositiveInt_ValidationError v name fallback lo hi e :
  asPositiveInt v name fallback lo hi = Throw e -> ValidationError e.
Proof.
  unfold asPositiveInt, ValidationError. destruct v; try (intros [= <-]; eauto; fail).
  destruct (_ || _); intros [= <-]; eauto.
Qed.

Lemma asBoolean_ValidationError v name fallback e :
  asBoolean v name fallback = Throw e -> ValidationError e.
Proof.
  unfold asBoolean, ValidationError. destruct v; intros [= <-]; eauto.
Qed.

Lemma normalizeFormat_ValidationError v e :
  normalizeFormat v = Throw e -> ValidationError e.
Proof.
  unfold normalizeFormat, ValidationError. destruct v; try (intros [= <-]; eauto; fail).
  destruct (_ && _); intros [= <-]; eauto.
Qed.

Section ChooseFacts.
Variable CONTEXT_FILE CONTEXT_DIR ACTIVE_SESSION_FILE ACTIVE_SESSION_DIR : string.
Variable DEFAULT_PROJECT : string.
Variable MAX_CONTEXT_FILE_BYTES : Z.
Variable JSON_parse : string -> jsval + string.
Variable Date_parse : jsval -> option Z.
Variable toISOString : Z -> string.
Variable sanitizeDisplayText : string -> string.
Variable localeCompare : string -> string -> Z.
Variable encodeSessionIndex : sessionIndex -> string.
Variable decodeSessionIndex : string -> option sessionIndex.

Lemma asIsoDateOrUndefined_ValidationError v name e :
  asIsoDateOrUndefined Date_parse toISOString v name = Throw e -> ValidationError e.
Proof.
  unfold asIsoDateOrUndefined, mbind, result_bind.
  destruct (asString v name false true) as [text|e'] eqn:Hs.
  - destruct (negb (nonempty text)); [discriminate|].
    destruct (Date_parse (of_opt text)); [discriminate|].
    intros [= <-]. unfold ValidationError. eauto.
  - intros [= <-]. eapply asString_ValidationError, Hs.
Qed.

Lemma parseSessionListOptions_ValidationError args e :
  parseSessionListOptions DEFAULT_PROJECT Date_parse toISOString args = Throw e ->
  ValidationError e.
Proof.
  unfold parseSessionListOptions, mbind, result_bind.
  destruct (asString args.["project"] _ _ _) eqn:H1;
    [|intros [= <-]; eapply asString_ValidationError, H1].
  destruct (asString args.["agent"] _ _ _) eqn:H2;
    [|intros [= <-]; eapply asString_ValidationError, H2].
  destruct (asIsoDateOrUndefined _ _ _ _) eqn:H3;
    [|intros [= <-]; eapply asIsoDateOrUndefined_ValidationError, H3].
  destruct (asPositiveInt _ _ _ _ _) eqn:H4;
    [|intros [= <-]; eapply asPositiveInt_ValidationError, H4].
  destruct (asBoolean _ _ _) eqn:H5;
    [|intros [= <-]; eapply asBoolean_ValidationError, H5].
  destruct (normalizeFormat _) eqn:H6;
    [discriminate|intros [= <-]; eapply normalizeFormat_ValidationError, H6].
Qed.

Local Abbreviation choose_session :=
  (callTool_choose_session CONTEXT_FILE CONTEXT_DIR ACTIVE_SESSION_FILE ACTIVE_SESSION_DIR
     DEFAULT_PROJECT MAX_CONTEXT_FILE_BYTES JSON_parse Date_parse toISOString
     sanitizeDisplayText localeCompare encodeSessionIndex decodeSessionIndex).

(** C10. [choose_session] with neither or both of [index] and
    [session_id] supplied: in any environment the call ends with a
    validation error, without a single request to the environment (the
    log, the index and the pointer file are neither read nor written)
    and with the caches as they were. When the other arguments are
    valid, the error is the one that names the rule. *)
Theorem choose_session_exactly_one {S : Type} (h : handler S) (s : S) (p : proc)
    (rawArgs : jsval) :
  let args := if isObject rawArgs then rawArgs else JObj [] in
  let ran := run h (choose_session rawArgs p) s in
  supplied args.["index"] = supplied args.["session_id"] ->
  (exists e, ran = (Some (Throw e, p), s, []) /\ ValidationError e)
  /\ (forall options,
        parseSessionListOptions DEFAULT_PROJECT Date_parse toISOString args = Ok options ->
        supplied args.["index"] = false ->
        outcome_of ran =
          Some (Throw (Error "choose_session requires either index or session_id"), p))
  /\ (forall options i id,
        parseSessionListOptions DEFAULT_PROJECT Date_parse toISOString args = Ok options ->
        args.["index"] = JNum i -> 1 <= i <= 200 -> args.["session_id"] = JStr id ->
        outcome_of ran =
          Some (Throw (Error "choose_session accepts either index or session_id, not both"), p)).
Proof.
  intros args ran Hsup. subst ran.
  unfold callTool_choose_session, mbind, M_bind, lift, outcome_of.
  fold args.
  destruct (parseSessionListOptions DEFAULT_PROJECT Date_parse toISOString args)
    as [options|e0] eqn:Hopts; cbn -[asPositiveInt asString].
  2: { split; [|split]; [|discriminate|discriminate].
       exists e0. split; [reflexivity|]. eapply parseSessionListOptions_ValidationError, Hopts. }
  destruct (asPositiveInt args.["index"] "index" None 1 200) as [index|e1] eqn:Hidx;
    cbn -[asString].
  2: { split; [|split].
       - exists e1. split; [reflexivity|]. eapply asPositiveInt_ValidationError, Hidx.
       - intros _ _ Hi. destruct args.["index"]; cbn in Hi, Hidx; congruence.
       - intros _ i id _ Hi Hr _. rewrite Hi in Hidx. cbn in Hidx.
         destruct (Z.ltb_spec i 1); [lia|]. destruct (Z.ltb_spec 200 i); [lia|].
         discriminate. }
  destruct (asString args.["session_id"] "session_id" false true) as [sid|e2] eqn:Hsid; cbn.
  2: { split; [|split].
       - exists e2. split; [reflexivity|]. eapply asString_ValidationError, Hsid.
       - intros _ _ Hi. rewrite Hi in Hsup.
         destruct args.["session_id"]; cbn in Hsup, Hsid; congruence.
       - intros _ i id _ _ _ Hs. rewrite Hs in Hsid. discriminate. }
  assert (Hi : index = None <-> supplied args.["index"] = false).
  { destruct args.["index"]; cbn in Hidx |- *; try (injection Hidx as <-; tauto);
      try discriminate.
    destruct (_ || _); [discriminate|]. injection Hidx as <-. split; discriminate. }
  assert (Hs : sid = None <-> supplied args.["session_id"] = false).
  { destruct args.["session_id"]; cbn in Hsid |- *; try (injection Hsid as <-; tauto);
      try discriminate.
    injection Hsid as <-. split; discriminate. }
  destruct index as [i|], sid as [id|]; cbn.
  - split; [|split].
    + eexists. split; [reflexivity|]. unfold ValidationError. eauto.
    + intros _ _ Hf. apply Hi in Hf. discriminate.
    + reflexivity.
  - exfalso. destruct (supplied args.["session_id"]).
    + destruct Hi as [_ Hi], Hs as [Hs _]. specialize (Hs eq_refl). discriminate.
    + rewrite Hsup in Hi. destruct Hi as [_ Hi]. specialize (Hi eq_refl). discriminate.
  - exfalso. destruct (supplied args.["index"]).
    + destruct Hi as [Hi _]. specialize (Hi eq_refl). discriminate.
    + rewrite <- Hsup in Hs. destruct Hs as [_ Hs]. specialize (Hs eq_refl). discriminate.
  - split; [|split].
    + eexists. split; [reflexivity|]. unfold ValidationError. eauto.
    + reflexivity.
    + intros _ i id _ Hx. rewrite Hx in Hi. destruct Hi as [Hi _]. specialize (Hi eq_refl).
      discriminate.
Qed.
End ChooseFacts.

(** ** Executions *)

Lemma run_exec {S R} (h : handler S) (t : io R) : forall s r s' tr,
  run h t s = (Some r, s', tr) -> exec t tr r.
Proof.
  induction t as [r0| |X q k IH]; intros s r s' tr; cbn.
  - intros [= <- _ <-]. split; reflexivity.
  - discriminate.
  - destruct (h X q s) as [x s1]. destruct (run h (k x) s1) as [[r1 s2] tr1] eqn:Hk.
    intros [= -> <- <-]. exists x, tr1. split; [reflexivity|]. eapply IH, Hk.
Qed.

Lemma sat_run {S R} (Asm : event -> Prop) (h : handler S) (t : io R) :
  answers Asm h -> forall Post s r s' tr,
  sat Asm t Post -> run h t s = (Some r, s', tr) -> Post tr r.
Proof.
  intros Hh. induction t as [r0| |X q k IH]; intros Post s r s' tr; cbn.
  - intros HP [= <- _ <-]. exact HP.
  - discriminate.
  - intros Hsat. pose proof (Hh X q s) as Hx.
    destruct (h X q s) as [x s1]. cbn in Hx.
    destruct (run h (k x) s1) as [[r1 s2] tr1] eqn:Hk.
    intros [= -> <- <-].
    exact (IH x (fun tr r => Post (Ev q x :: tr) r) s1 r s2 tr1 (Hsat x Hx) Hk).
Qed.

Lemma sat_weaken {R} (Asm : event -> Prop) (t : io R) : forall (P Q : list event -> R -> Prop),
  (forall tr r, P tr r -> Q tr r) -> sat Asm t P -> sat Asm t Q.
Proof.
  induction t as [r0| |X q k IH]; intros P Q HPQ; cbn.
  - apply HPQ.
  - trivial.
  - intros Hs x Hx. eapply IH; [|apply Hs, Hx]. cbn. intros tr r. apply HPQ.
Qed.

Lemma sat_bind {A B} (Asm : event -> Prop) (t : io A) (f : A -> io B) :
  forall Post : list event -> B -> Prop,
  sat Asm t (fun tr1 a => sat Asm (f a) (fun tr2 b => Post (tr1 ++ tr2)%list b)) ->
  sat Asm (io_bind t f) Post.
Proof.
  induction t as [r0| |X q k IH]; intros Post; cbn.
  - trivial.
  - trivial.
  - intros Hs x Hx. apply IH. eapply sat_weaken; [|apply Hs, Hx].
    cbn. intros tr a Ha. exact Ha.
Qed.

Lemma any_answers {S} (h : handler S) : answers any_answer h.
Proof. intros X q s. exact I. Qed.

(** C10 in a concrete environment: with no argument at all, and with both
    [index] and [session_id]. *)
Lemma choose_session_exactly_one_witness :
  outcome_of (run demo_session_env
    (callTool_choose_session "ctx.jsonl" "." "active-session.txt" "." "shared" 1000
       demo_JSON_parse demo_Date_parse demo_toISOString demo_sanitize demo_localeCompare
       demo_encode demo_decode (JObj []) proc0) (None, Ok "s1"))
  = Some (Throw (Error "choose_session requires either index or session_id"), proc0)
  /\ outcome_of (run demo_session_env
    (callTool_choose_session "ctx.jsonl" "." "active-session.txt" "." "shared" 1000
       demo_JSON_parse demo_Date_parse demo_toISOString demo_sanitize demo_localeCompare
       demo_encode demo_decode
       (JObj [("index", JNum 1); ("session_id", JStr "s1")]) proc0) (None, Ok "s1"))
  = Some (Throw (Error "choose_session accepts either index or session_id, not both"), proc0).
Proof.
  split.
  - eapply (proj1 (proj2 (choose_session_exactly_one "ctx.jsonl" "." "active-session.txt" "."
              "shared" 1000 demo_JSON_parse demo_Date_parse demo_toISOString demo_sanitize
              demo_localeCompare demo_encode demo_decode demo_session_env (None, Ok "s1") proc0
              (JObj []) eq_refl))); reflexivity.
  - eapply (proj2 (proj2 (choose_session_exactly_one "ctx.jsonl" "." "active-session.txt" "."
              "shared" 1000 demo_JSON_parse demo_Date_parse demo_toISOString demo_sanitize
              demo_localeCompare demo_encode demo_decode demo_session_env (None, Ok "s1") proc0
              (JObj [("index", JNum 1); ("session_id", JStr "s1")]) eq_refl)) _ 1 "s1");
      [reflexivity|reflexivity|lia|reflexivity].
Defined.

(** ** Read cache *)

Lemma sig_eqb_eq a b : sig_eqb a b = true <-> a = b.
Proof.
  destruct a as [x|], b as [y|]; cbn; try (split; [discriminate|intros [=]]);
    [|split; reflexivity].
  rewrite String.eqb_eq. split; [intros ->; reflexivity|intros [=]; assumption].
Qed.

Lemma makeFileSignature_nonempty st : nonempty (makeFileSignature (Some st)) = true.
Proof.
  cbn. destruct (pretty (size st)); reflexivity.
Qed.

Lemma nonempty_None : nonempty None = false.
Proof. reflexivity. Qed.

(** Unfolding of the monad operations. *)
Ltac m_simpl :=
  unfold readEntries, readRawContextFile, statContextFile, invalidateContextCache,
    set_contextCache, get_proc, try_catch, try_finally, await, await_ignore, perform,
    throw, lift, spin, mbind, M_bind, mret, M_ret in *;
  cbn [sat io_bind fst snd readEntries_loop].

(** Symbolic execution of a program against all answers. *)
Ltac sat_step :=
  match goal with
  | |- sat _ _ _ => progress m_simpl
  | |- forall x : result _, any_answer _ -> _ => intros [?|?] _
  | |- forall x, any_answer _ -> _ => intros ? _
  | |- context [nonempty (makeFileSignature (Some ?st))] =>
      rewrite (makeFileSignature_nonempty st)
  | |- context [makeFileSignature None] =>
      change (makeFileSignature None) with (@None string)
  | |- context [nonempty None] => rewrite nonempty_None
  | |- context [andb true ?b] => change (andb true b) with b
  | |- context [andb false ?b] => change (andb false b) with false
  | |- context [andb ?b true] => rewrite (andb_true_r b)
  | |- context [andb ?b false] => rewrite (andb_false_r b)
  | |- context [0 + 1 =? 0] => change (0 + 1 =? 0) with false
  | |- context [0 =? 0] => change (0 =? 0) with true
  | |- context [negb (sig_eqb ?a ?b)] => destruct (sig_eqb a b) eqn:?; cbn [negb]
  | |- context [if ?b then _ else _] => destruct b eqn:?
  | |- context [match ?x with Some _ => _ | None => _ end] => destruct x eqn:?
  | |- context [let '(_, _) := ?x in _] => destruct x eqn:?
  end.

(** The signature equalities collected along a path. *)
Ltac sig_facts :=
  repeat match goal with
  | H : sig_eqb _ _ = true |- _ => apply sig_eqb_eq in H
  end.

Ltac observed :=
  repeat first
    [ solve [ eapply observed_here;
              first [ reflexivity | eassumption | symmetry; eassumption ] ]
    | eapply observed_later ].

Section ReadFacts.
Variable CONTEXT_FILE : string.
Variable MAX_CONTEXT_FILE_BYTES : Z.
Variable JSON_parse : string -> jsval + string.

Lemma readEntries_sat (p : proc) :
  sat any_answer (readEntries CONTEXT_FILE MAX_CONTEXT_FILE_BYTES JSON_parse p)
    (fun tr rp =>
       Forall (log_access CONTEXT_FILE) tr
       /\ sessionIndexCache rp.2 = sessionIndexCache p
       /\ cache_effect CONTEXT_FILE JSON_parse tr (contextCache p) (contextCache rp.2)
       /\ forall res, rp.1 = Ok res ->
            result_sound CONTEXT_FILE JSON_parse tr (contextCache p) res).
Proof.
  repeat sat_step.
  all: sig_facts.
  all: split; [repeat constructor|].
  all: split; [reflexivity|].
  all: split;
    [ first
        [ left; reflexivity
        | right; left; reflexivity
        | right; right; eexists; cbn [signature raw entries parseErrors contextCache];
          split; [reflexivity|]; split; [observed|symmetry; assumption] ]
    | intros res Hres; try discriminate; injection Hres as <-;
      unfold result_sound, cached_result; cbn [r_signature r_raw r_entries r_parseErrors];
      first
        [ exact I
        | destruct (signature (contextCache p)); [left; split; reflexivity|exact I]
        | right; split; [observed|symmetry; assumption] ] ].
Qed.

Lemma sig_eqb_neq a b : a <> b -> sig_eqb a b = false.
Proof.
  intros H. destruct (sig_eqb a b) eqn:E; [|reflexivity].
  apply sig_eqb_eq in E. contradiction.
Qed.

Ltac exec_step :=
  first
    [ progress m_simpl
    | progress cbn [exec]
    | match goal with
      | |- exists x tr', _ :: _ = _ :: tr' /\ _ => eexists _, _; split; [reflexivity|]
      | |- [] = [] /\ _ => split; [reflexivity|]
      | |- context [nonempty (makeFileSignature (Some ?st))] =>
          rewrite (makeFileSignature_nonempty st)
      | |- context [sig_eqb ?a ?a] => rewrite (proj2 (sig_eqb_eq a a) eq_refl)
      | H : ?b = _ |- context [?b] => rewrite H
      | |- context [andb true ?b] => change (andb true b) with b
      | |- context [andb ?b true] => rewrite (andb_true_r b)
      | |- context [andb ?b false] => rewrite (andb_false_r b)
      | |- context [0 + 1 =? 0] => change (0 + 1 =? 0) with false
      | |- context [0 =? 0] => change (0 =? 0) with true
      | |- context [negb true] => change (negb true) with false
      | |- context [negb false] => change (negb false) with true
      | |- context [if true then ?a else _] => change (if true then a else _) with a
      end ].

(** C2. A read of the log, in any environment.
    - Whatever happens, the read leaves the cache as it was, or empty,
      or holding a signature together with the content that this very
      read obtained between two [stat] calls that both gave that
      signature (and its parse); and a returned result that carries a
      signature is either the cached one, returned on a hit, or content
      obtained in that way. So a signature is never paired with content
      read while the signature was changing.
    - If the signatures before and after the first content read differ,
      the read is retried once; if they differ again, the freshly parsed
      second content is returned without signature and the cache is left
      empty.
    - If they agree on the retry, or at once, that content is returned
      and cached under the signature. *)
Theorem readEntries_cache_sound {S : Type} (h : handler S) (s : S) (p : proc) :
  let read := readEntries CONTEXT_FILE MAX_CONTEXT_FILE_BYTES JSON_parse in
  let ran := run h (read p) s in
  (forall r p', outcome_of ran = Some (r, p') ->
     sessionIndexCache p' = sessionIndexCache p
     /\ cache_effect CONTEXT_FILE JSON_parse (trace_of ran) (contextCache p) (contextCache p')
     /\ forall res, r = Ok res ->
          result_sound CONTEXT_FILE JSON_parse (trace_of ran) (contextCache p) res)
  /\ (forall st1 raw1 st2 st3 raw2 st4,
        miss p st1 -> size st1 <= MAX_CONTEXT_FILE_BYTES ->
        makeFileSignature (Some st1) <> makeFileSignature (Some st2) ->
        miss p st3 -> size st3 <= MAX_CONTEXT_FILE_BYTES ->
        makeFileSignature (Some st3) <> makeFileSignature (Some st4) ->
        exec (read p)
          [Ev (FsStat CONTEXT_FILE) (Ok st1); Ev (FsReadFile CONTEXT_FILE) (Ok raw1);
           Ev (FsStat CONTEXT_FILE) (Ok st2);
           Ev (FsStat CONTEXT_FILE) (Ok st3); Ev (FsReadFile CONTEXT_FILE) (Ok raw2);
           Ev (FsStat CONTEXT_FILE) (Ok st4)]
          (Ok (fresh_result JSON_parse raw2 None), with_contextCache emptyContextCache p))
  /\ (forall st1 raw1 st2 st3 raw2 st4,
        miss p st1 -> size st1 <= MAX_CONTEXT_FILE_BYTES ->
        makeFileSignature (Some st1) <> makeFileSignature (Some st2) ->
        miss p st3 -> size st3 <= MAX_CONTEXT_FILE_BYTES ->
        makeFileSignature (Some st3) = makeFileSignature (Some st4) ->
        exec (read p)
          [Ev (FsStat CONTEXT_FILE) (Ok st1); Ev (FsReadFile CONTEXT_FILE) (Ok raw1);
           Ev (FsStat CONTEXT_FILE) (Ok st2);
           Ev (FsStat CONTEXT_FILE) (Ok st3); Ev (FsReadFile CONTEXT_FILE) (Ok raw2);
           Ev (FsStat CONTEXT_FILE) (Ok st4)]
          (Ok (fresh_result JSON_parse raw2 (makeFileSignature (Some st4))),
           with_contextCache (filled_cache JSON_parse raw2 (makeFileSignature (Some st4))) p))
  /\ (forall st1 raw1 st2,
        miss p st1 -> size st1 <= MAX_CONTEXT_FILE_BYTES ->
        makeFileSignature (Some st1) = makeFileSignature (Some st2) ->
        exec (read p)
          [Ev (FsStat CONTEXT_FILE) (Ok st1); Ev (FsReadFile CONTEXT_FILE) (Ok raw1);
           Ev (FsStat CONTEXT_FILE) (Ok st2)]
          (Ok (fresh_result JSON_parse raw1 (makeFileSignature (Some st2))),
           with_contextCache (filled_cache JSON_parse raw1 (makeFileSignature (Some st2))) p)).
Proof.
  intros read ran. subst read ran. split; [|split; [|split]].
  - intros r p' Hout. unfold outcome_of, trace_of in *.
    destruct (run h _ s) as [[o s'] tr] eqn:Hrun. cbn in Hout. subst o.
    exact (proj2 (sat_run any_answer h _ (any_answers h) _ s (r, p') s' tr
                    (readEntries_sat p) Hrun)).
  - intros st1 raw1 st2 st3 raw2 st4 Hm1%sig_eqb_neq Hs1%Z.ltb_ge Ht1%sig_eqb_neq
      Hm3%sig_eqb_neq Hs3%Z.ltb_ge Ht3%sig_eqb_neq.
    unfold fresh_result, with_contextCache.
    destruct (parseEntries JSON_parse raw2) as [es errs] eqn:Hparse.
    repeat exec_step. reflexivity.
  - intros st1 raw1 st2 st3 raw2 st4 Hm1%sig_eqb_neq Hs1%Z.ltb_ge Ht1%sig_eqb_neq
      Hm3%sig_eqb_neq Hs3%Z.ltb_ge Ht3.
    unfold fresh_result, filled_cache, with_contextCache.
    destruct (parseEntries JSON_parse raw2) as [es errs] eqn:Hparse.
    pose proof (proj2 (sig_eqb_eq _ _) Ht3) as Ht3'.
    repeat exec_step. reflexivity.
  - intros st1 raw1 st2 Hm1%sig_eqb_neq Hs1%Z.ltb_ge Ht1.
    unfold fresh_result, filled_cache, with_contextCache.
    destruct (parseEntries JSON_parse raw1) as [es errs] eqn:Hparse.
    pose proof (proj2 (sig_eqb_eq _ _) Ht1) as Ht1'.
    repeat exec_step. reflexivity.
Qed.
End ReadFacts.

(** C2 on a log that another process appends to during the read: the
    first attempt is torn, the second is not, and the cache ends up with
    the content and the signature of the second attempt; when the second
    attempt is torn too, nothing is cached. *)
Lemma readEntries_cache_sound_witness :
  exec (readEntries "ctx.jsonl" 1000 demo_JSON_parse proc0)
    [Ev (FsStat "ctx.jsonl") (Ok stat_before); Ev (FsReadFile "ctx.jsonl") (Ok raw_after);
     Ev (FsStat "ctx.jsonl") (Ok stat_after);
     Ev (FsStat "ctx.jsonl") (Ok stat_after); Ev (FsReadFile "ctx.jsonl") (Ok raw_after);
     Ev (FsStat "ctx.jsonl") (Ok stat_after)]
    (Ok (fresh_result demo_JSON_parse raw_after (Some "6:1002")),
     with_contextCache (filled_cache demo_JSON_parse raw_after (Some "6:1002")) proc0)
  /\ exec (readEntries "ctx.jsonl" 1000 demo_JSON_parse proc0)
    [Ev (FsStat "ctx.jsonl") (Ok stat_before); Ev (FsReadFile "ctx.jsonl") (Ok raw_after);
     Ev (FsStat "ctx.jsonl") (Ok stat_after);
     Ev (FsStat "ctx.jsonl") (Ok stat_after); Ev (FsReadFile "ctx.jsonl") (Ok raw_after);
     Ev (FsStat "ctx.jsonl") (Ok stat_later)]
    (Ok (fresh_result demo_JSON_parse raw_after None), with_contextCache emptyContextCache proc0)
  /\ cache_effect "ctx.jsonl" demo_JSON_parse
       (trace_of (run demo_fs_env (readEntries "ctx.jsonl" 1000 demo_JSON_parse proc0)
                    ([Ok stat_before; Ok stat_after; Ok stat_after; Ok stat_after],
                     [Ok raw_after; Ok raw_after])))
       emptyContextCache (filled_cache demo_JSON_parse raw_after (Some "6:1002")).
Proof.
  split; [|split].
  - apply (proj1 (proj2 (proj2 (readEntries_cache_sound "ctx.jsonl" 1000 demo_JSON_parse
             demo_fs_env ([], []) proc0))) stat_before raw_after stat_after stat_after
             raw_after stat_after); try discriminate; try reflexivity; cbn; lia.
  - apply (proj1 (proj2 (readEntries_cache_sound "ctx.jsonl" 1000 demo_JSON_parse
             demo_fs_env ([], []) proc0)) stat_before raw_after stat_after stat_after
             raw_after stat_later); try discriminate; cbn; lia.
  - apply (proj1 (readEntries_cache_sound "ctx.jsonl" 1000 demo_JSON_parse demo_fs_env
             ([Ok stat_before; Ok stat_after; Ok stat_after; Ok stat_after],
              [Ok raw_after; Ok raw_after]) proc0)
             (Ok (fresh_result demo_JSON_parse raw_after (Some "6:1002")))
             (with_contextCache (filled_cache demo_JSON_parse raw_after (Some "6:1002")) proc0)).
    reflexivity.
Defined.

(** ** Session listing: which path answers *)

Section ListingFacts.
Variable CONTEXT_FILE CONTEXT_DIR DEFAULT_PROJECT : string.
Variable MAX_CONTEXT_FILE_BYTES : Z.
Variable JSON_parse : string -> jsval + string.
Variable Date_parse : jsval -> option Z.
Variable toISOString : Z -> string.
Variable sanitizeDisplayText : string -> string.
Variable localeCompare : string -> string -> Z.
Variable encodeSessionIndex : sessionIndex -> string.
Variable decodeSessionIndex : string -> option sessionIndex.

Local Abbreviation listSessions :=
  (buildSessionListResult CONTEXT_FILE CONTEXT_DIR DEFAULT_PROJECT MAX_CONTEXT_FILE_BYTES
     JSON_parse
     Date_parse toISOString sanitizeDisplayText localeCompare encodeSessionIndex
     decodeSessionIndex).
Local Abbreviation scan :=
  (fullScan CONTEXT_FILE MAX_CONTEXT_FILE_BYTES JSON_parse Date_parse toISOString
     sanitizeDisplayText localeCompare).

Lemma nonempty_present (f : option string) :
  nonempty f = false <-> forall s, ~ present f s.
Proof.
  unfold nonempty, present. destruct f as [s|].
  - destruct (String.eqb_spec s "") as [->|Hne]; cbn.
    + split; [|reflexivity]. intros _ s' [[= <-] H]. congruence.
    + split; [discriminate|]. intros H. exfalso. apply (H s). split; [reflexivity|assumption].
  - split; [|reflexivity]. intros _ s' [? _]. discriminate.
Qed.

Lemma fullScan_sat (options : listOptions) (p : proc) :
  sat any_answer (scan options p)
    (fun tr rp =>
       Forall (log_access CONTEXT_FILE) tr
       /\ sessionIndexCache rp.2 = sessionIndexCache p).
Proof.
  unfold fullScan, mbind, M_bind. apply sat_bind.
  eapply sat_weaken; [|apply readEntries_sat].
  intros tr [r p'] (Hlog & Hidx & _). cbn [fst snd] in *.
  destruct r; cbn; rewrite app_nil_r; split; assumption.
Qed.

End ListingFacts.


(** ** Lock manager *)

Lemma always_run {S R} (Asm : event -> Prop) (h : handler S) (t : io R) (P : event -> Prop) :
  answers Asm h -> always Asm t P -> forall s, Forall P (trace_of (run h t s)).
Proof.
  intros Hh. unfold trace_of. induction t as [r0| |X q k IH]; intros Hal s; cbn.
  - constructor.
  - constructor.
  - pose proof (Hh X q s) as Hx. destruct (h X q s) as [x s1]. cbn in Hx.
    destruct (Hal x Hx) as [HP Hk]. specialize (IH x Hk s1).
    destruct (run h (k x) s1) as [[r1 s2] tr1]. cbn in *. constructor; assumption.
Qed.

Lemma always_bind {A B} (Asm : event -> Prop) (t : io A) (f : A -> io B) (P : event -> Prop) :
  always Asm t P -> sat Asm t (fun _ a => always Asm (f a) P) -> always Asm (io_bind t f) P.
Proof.
  induction t as [r0| |X q k IH]; cbn.
  - intros _ H. exact H.
  - trivial.
  - intros Hal Hs x Hx. destruct (Hal x Hx) as [HP Hk]. split; [exact HP|].
    apply IH; [exact Hk|]. eapply sat_weaken; [|apply Hs, Hx]. cbn. trivial.
Qed.

Lemma isStale_Stale now st : isStale now st = true <-> Stale now st.
Proof.
  unfold isStale, Stale. rewrite negb_true_iff.
  destruct (Qle_bool (inject_Z now - mtimeMs st) (inject_Z STALE_LOCK_MS)) eqn:E.
  - apply Qle_bool_iff in E. split; [discriminate|]. intros H.
    exfalso. apply (Qlt_not_le _ _ H E).
  - split; [intros _|reflexivity]. apply Qnot_le_lt. intros H.
    apply Qle_bool_iff in H. congruence.
Qed.

Lemma backoff_bounds random : (0 <= random)%Q -> (random < 1)%Q -> 40 <= backoff random <= 99.
Proof.
  intros H0 H1. unfold backoff, Math_floor.
  assert (0 <= Qfloor (random * inject_Z 60)).
  { change 0 with (Qfloor 0). apply Qfloor_resp_le.
    apply Qmult_le_0_compat; [exact H0|discriminate]. }
  assert (Qfloor (random * inject_Z 60) < 60).
  { rewrite Zlt_Qlt. eapply Qle_lt_trans; [apply Qfloor_le|].
    eapply Qlt_le_trans; [apply Qmult_lt_compat_r; [reflexivity|exact H1]|].
    unfold Qle. cbn. lia. }
  lia.
Qed.

Lemma backoff_lower random : (0 <= random)%Q -> 40 <= backoff random.
Proof.
  intros H0. unfold backoff, Math_floor.
  assert (0 <= Qfloor (random * inject_Z 60)).
  { change 0 with (Qfloor 0). apply Qfloor_resp_le.
    apply Qmult_le_0_compat; [exact H0|discriminate]. }
  lia.
Qed.

(** Unfolding of the lock manager. *)
Ltac lock_simpl :=
  unfold withWriteLock, lock_turn, lock_catch, maybeBreakStaleLock, sleep, ensureContextDirectory,
    statContextFile, invalidateContextCache, set_contextCache, get_proc, try_catch,
    try_finally, await, await_ignore, perform, throw, lift, spin, mbind, M_bind, mret, M_ret
    in *;
  cbn [sat always exec io_bind fst snd withWriteLock_loop app].

Ltac exec_lock_step :=
  first
    [ progress lock_simpl
    | match goal with
      | |- exists x tr', _ :: _ = _ :: tr' /\ _ => eexists _, _; split; [reflexivity|]
      | |- [] = [] /\ _ => split; [reflexivity|]
      | H : ?b = _ |- context [?b] => rewrite H
      | |- context [negb true] => change (negb true) with false
      | |- context [negb false] => change (negb false) with true
      | |- context [if ?b then _ else _] =>
          let v := eval vm_compute in b in
          lazymatch v with
          | true => idtac
          | false => idtac
          end;
          let E := fresh in
          assert (E : b = v) by (vm_compute; reflexivity); rewrite E; clear E
      end ].

Section LockFacts.
Variable CONTEXT_FILE : string.
Variable toISOString : Z -> string.
Variable lockMetadata : Z -> string -> string -> string.

Local Abbreviation lock := (LOCK_FILE CONTEXT_FILE).
Local Abbreviation loop := (withWriteLock_loop CONTEXT_FILE toISOString lockMetadata).

(** C5, as the code has it. One turn of the acquisition loop in which
    the exclusive creation of the marker fails because the marker
    exists ([EEXIST]), with [now] the time read right after:
    - if more than [MAX_LOCK_WAIT_MS] have passed since the start, the
      acquisition fails with the lock-timeout error, without looking at
      the marker;
    - otherwise, if the marker is older than [STALE_LOCK_MS], it is
      deleted (the outcome [u] of the deletion is ignored), and then the
      process sleeps the randomized backoff before the next attempt;
    - otherwise, if the marker is not that old or has vanished, the
      process sleeps the randomized backoff before the next attempt;
    - the backoff is between 40 and 99 milliseconds. *)
Theorem lock_retry_after_backoff {A : Type} (fuel : nat) (start : Z) (fn : M A) (p : proc)
    (err : exn) (now : Z) :
  has_code err "EEXIST" = true ->
  (MAX_LOCK_WAIT_MS < now - start ->
     exec (loop (S fuel) start fn p)
       [Ev (FsOpenWx lock) (Throw err); Ev DateNow now]
       (Throw (Error (LockTimeout_message CONTEXT_FILE)), p))
  /\ (now - start <= MAX_LOCK_WAIT_MS ->
        forall st now2 u random tr r,
          Stale now2 st ->
          exec (loop fuel start fn p) tr r ->
          exec (loop (S fuel) start fn p)
            ([Ev (FsOpenWx lock) (Throw err); Ev DateNow now;
              Ev (FsStat lock) (Ok st); Ev DateNow now2; Ev (FsUnlink lock) u;
              Ev MathRandom random; Ev (Sleep (backoff random)) ()] ++ tr) r)
  /\ (now - start <= MAX_LOCK_WAIT_MS ->
        forall st now2 random tr r,
          ~ Stale now2 st ->
          exec (loop fuel start fn p) tr r ->
          exec (loop (S fuel) start fn p)
            ([Ev (FsOpenWx lock) (Throw err); Ev DateNow now;
              Ev (FsStat lock) (Ok st); Ev DateNow now2;
              Ev MathRandom random; Ev (Sleep (backoff random)) ()] ++ tr) r)
  /\ (now - start <= MAX_LOCK_WAIT_MS ->
        forall gone random tr r,
          has_code gone "ENOENT" = true ->
          exec (loop fuel start fn p) tr r ->
          exec (loop (S fuel) start fn p)
            ([Ev (FsOpenWx lock) (Throw err); Ev DateNow now;
              Ev (FsStat lock) (Throw gone);
              Ev MathRandom random; Ev (Sleep (backoff random)) ()] ++ tr) r)
  /\ (forall random, (0 <= random)%Q -> (random < 1)%Q -> 40 <= backoff random <= 99).
Proof.
  intros Hcode. split; [|split; [|split; [|split]]].
  - intros Hlate%Z.ltb_lt. repeat exec_lock_step. reflexivity.
  - intros Hearly%Z.ltb_ge st now2 u random tr r Hstale%isStale_Stale Hrest.
    repeat exec_lock_step. exact Hrest.
  - intros Hearly%Z.ltb_ge st now2 random tr r Hfresh Hrest.
    assert (Hf : isStale now2 st = false).
    { destruct (isStale now2 st) eqn:E; [|reflexivity]. apply isStale_Stale in E. tauto. }
    repeat exec_lock_step. exact Hrest.
  - intros Hearly%Z.ltb_ge gone random tr r Hgone Hrest.
    repeat exec_lock_step. exact Hrest.
  - exact backoff_bounds.
Qed.
End LockFacts.

Lemma acquired_exec (fuel : nat) (start now : Z) :
  exec (withWriteLock_loop "ctx.jsonl" demo_toISOString demo_lockMetadata (S fuel) start
          (mret ()) proc0)
    (acquired_trace now) (Ok (), proc0).
Proof.
  unfold acquired_trace. repeat exec_lock_step. reflexivity.
Qed.

(** C5 on a stale marker found at time 100, the acquisition having
    started at time 0: the marker is deleted, the process sleeps 70 ms,
    and only then creates the marker. *)
Lemma lock_retry_after_backoff_witness :
  exec (withWriteLock_loop "ctx.jsonl" demo_toISOString demo_lockMetadata 2 0 (mret ()) proc0)
    (stale_turn_trace ++ acquired_trace 170) (Ok (), proc0)
  /\ 40 <= backoff (1 # 2) <= 99.
Proof.
  split.
  - apply (proj1 (proj2 (lock_retry_after_backoff "ctx.jsonl" demo_toISOString
             demo_lockMetadata 1 0 (mret ()) proc0 (SystemError "EEXIST") 100 eq_refl))
             ltac:(unfold MAX_LOCK_WAIT_MS; lia) stale_marker 100 (Ok ()) (1 # 2) (acquired_trace 170)
             (Ok (), proc0)).
    + reflexivity.
    + apply acquired_exec.
  - apply (proj2 (proj2 (proj2 (proj2 (lock_retry_after_backoff "ctx.jsonl" demo_toISOString
             demo_lockMetadata 1 0 (mret ()) proc0 (SystemError "EEXIST") 100 eq_refl))))
             (1 # 2)); [discriminate|reflexivity].
Defined.

(** C5 as stated fails: in the execution above the deletion of the stale
    marker is followed by a draw of the backoff and a sleep, not by the
    next creation attempt. *)
Lemma stale_break_then_sleep :
  ~ BreakThenImmediateRetry "ctx.jsonl" demo_toISOString demo_lockMetadata.
Proof.
  intros H.
  assert (Hexec : exec (withWriteLock "ctx.jsonl" demo_toISOString demo_lockMetadata 2
                          (mret ()) proc0)
                    (Ev DateNow 0 :: stale_turn_trace ++ acquired_trace 170) (Ok (), proc0)).
  { unfold stale_turn_trace, acquired_trace. repeat exec_lock_step. reflexivity. }
  destruct (H 2%nat (mret ()) proc0 _ _ Hexec
              [Ev DateNow 0; Ev (FsOpenWx "ctx.jsonl.lock") (Throw (SystemError "EEXIST"));
               Ev DateNow 100]
              stale_marker 100 (Ok ())
              (Ev MathRandom (1 # 2) :: Ev (Sleep 70) () :: acquired_trace 170) eq_refl)
    as (opened & post' & Hpost).
  apply (f_equal (fun l => match l with e :: _ => is_create e | [] => false end)) in Hpost.
  discriminate Hpost.
Qed.

Lemma outcome_Vis {S R X} (h : handler S) (q : request X) (k : X -> io R) (s : S) :
  outcome_of (run h (Vis q k) s) = outcome_of (run h (k (h _ q s).1) (h _ q s).2).
Proof.
  unfold outcome_of. cbn [run]. destruct (h X q s) as [x s1]. cbn [fst snd].
  destruct (run h (k x) s1) as [[r s2] tr]. reflexivity.
Qed.

Lemma run_bind {S A B} (h : handler S) (t : io A) (f : A -> io B) : forall s,
  run h (io_bind t f) s =
    let '(r, s1, tr1) := run h t s in
    match r with
    | Some a => let '(r2, s2, tr2) := run h (f a) s1 in (r2, s2, (tr1 ++ tr2)%list)
    | None => (None, s1, tr1)
    end.
Proof.
  induction t as [a| |X q k IH]; intros s; cbn [io_bind run].
  - destruct (run h (f a) s) as [[r2 s2] tr2]. reflexivity.
  - reflexivity.
  - destruct (h X q s) as [x s1]. rewrite IH.
    destruct (run h (k x) s1) as [[[a|] s2] tr1]; [|reflexivity].
    destruct (run h (f a) s2) as [[r3 s3] tr3]. reflexivity.
Qed.

Lemma outcome_bind {S A B} (h : handler S) (t : io A) (f : A -> io B) (s : S) (a : A) :
  outcome_of (run h t s) = Some a ->
  exists s', outcome_of (run h (io_bind t f) s) = outcome_of (run h (f a) s').
Proof.
  unfold outcome_of. rewrite run_bind.
  destruct (run h t s) as [[r s1] tr1]. cbn [fst]. intros ->.
  exists s1. destruct (run h (f a) s1) as [[r2 s2] tr2]. reflexivity.
Qed.

Ltac always_step :=
  first
    [ progress lock_simpl
    | match goal with
      | |- forall x, lock_denied (Ev (FsOpenWx _) x) -> _ =>
          let err := fresh "err" in
          let Hcode := fresh "Hcode" in
          intros ? (err & -> & Hcode); cbn [writes_nothing]
      | |- forall x : result _, _ -> _ => intros [?|?] _; cbn [writes_nothing]
      | |- forall x, _ -> _ => intros ? _; cbn [writes_nothing]
      | |- True /\ _ => split; [exact I|]
      | H : ?b = _ |- context [?b] => rewrite H
      | |- context [if ?b then _ else _] => destruct b eqn:?
      end ].

Section TimeoutFacts.
Variable CONTEXT_FILE CONTEXT_DIR DEFAULT_PROJECT : string.
Variable JSON_stringify : jsval -> string.
Variable Date_parse : jsval -> option Z.
Variable toISOString : Z -> string.
Variable sanitizeDisplayText : string -> string.
Variable encodeSessionIndex : sessionIndex -> string.
Variable decodeSessionIndex : string -> option sessionIndex.
Variable lockMetadata : Z -> string -> string -> string.

Local Abbreviation lock := (LOCK_FILE CONTEXT_FILE).
Local Abbreviation loop := (withWriteLock_loop CONTEXT_FILE toISOString lockMetadata).
Local Abbreviation append :=
  (appendEntry CONTEXT_FILE CONTEXT_DIR DEFAULT_PROJECT JSON_stringify Date_parse toISOString
     sanitizeDisplayText encodeSessionIndex decodeSessionIndex lockMetadata).

(** While the marker cannot be created the loop makes no call that
    writes, and the critical section is never entered. *)
Lemma loop_denied_always {A} (fn : M A) (start : Z) (p : proc) : forall fuel,
  always lock_denied (loop fuel start fn p) writes_nothing.
Proof.
  induction fuel as [|fuel IH]; [exact I|].
  repeat always_step; try exact I; try exact IH.
Qed.

Lemma loop_denied_sat {A} (fn : M A) (start : Z) (p : proc) : forall fuel,
  sat lock_denied (loop fuel start fn p) (fun _ rp => exists e, rp = (Throw e, p)).
Proof.
  induction fuel as [|fuel IH]; [exact I|].
  repeat always_step; eauto.
  all: eapply sat_weaken; [|exact IH]; cbn; trivial.
Qed.

Lemma append_denied_always (fuel : nat) (entry : jsval) (p : proc) :
  always lock_denied (append fuel entry p) writes_nothing.
Proof.
  unfold appendEntry. lock_simpl.
  intros [[]|e] _; (split; [exact I|]); cbn [fst snd io_bind always]; [|exact I].
  intros start _. split; [exact I|].
  apply always_bind; [apply loop_denied_always|].
  eapply sat_weaken; [|apply loop_denied_sat].
  cbn. intros _ rp (e & ->). exact I.
Qed.

Lemma append_denied_sat (fuel : nat) (entry : jsval) (p : proc) :
  sat lock_denied (append fuel entry p) (fun _ rp => exists e, rp = (Throw e, p)).
Proof.
  unfold appendEntry. lock_simpl.
  intros [[]|e] _; cbn [fst snd io_bind sat]; [|eauto].
  intros start _. apply sat_bind.
  eapply sat_weaken; [|apply loop_denied_sat].
  cbn. intros _ rp (e & ->). cbn. eauto.
Qed.

Section Clock.
Context {S : Type} (h : handler S) (time : S -> Z).
Hypothesis Hclock : timed h time.
Hypothesis Hdenied : answers lock_denied h.
Hypothesis Hmarker : forall s e,
  (h _ (FsStat lock) s).1 = Throw e -> has_code e "ENOENT" = true.
Hypothesis Hrandom : forall s, (0 <= (h _ MathRandom s).1)%Q.

(** One call: its answer and the state after it get names, and what
    is known of them is recorded. *)
Ltac tick :=
  match goal with
  | |- context [outcome_of (run h (Vis ?q ?k) ?s)] =>
      rewrite (outcome_Vis h q k s);
      pose proof (timed_mono h time Hclock _ q s);
      lazymatch q with
      | DateNow => pose proof (timed_now h time Hclock s)
      | Sleep ?ms => pose proof (timed_sleep h time Hclock ms s)
      | MathRandom => pose proof (backoff_lower _ (Hrandom s))
      | FsOpenWx _ => pose proof (Hdenied _ q s)
      | FsStat _ => pose proof (Hmarker s)
      | _ => idtac
      end;
      destruct (h _ q s) as [? ?]; cbn [fst snd lock_denied] in *
  end.

(** One turn either times out or sleeps at least 40 ms and goes on
    with [retry], the caches untouched. *)
Lemma turn_times_out_or_retries {A} (fn retry : M A) (start : Z) (p : proc) (s : S) :
  let turn := lock_turn CONTEXT_FILE toISOString lockMetadata start fn retry in
  (outcome_of (run h (turn p) s) =
     Some (Throw (Error (LockTimeout_message CONTEXT_FILE)), p)
   /\ (exists now, time s <= now /\ MAX_LOCK_WAIT_MS < now - start))
  \/ (exists s', time s + 40 <= time s' /\ time s - start <= MAX_LOCK_WAIT_MS
        /\ outcome_of (run h (turn p) s) = outcome_of (run h (retry p) s')).
Proof.
  intros turn. subst turn. repeat (progress lock_simpl). tick.
  match goal with H : exists _, _ |- _ => destruct H as (err & -> & Hcode) end.
  repeat (progress lock_simpl). rewrite Hcode. tick. subst.
  match goal with |- context [if ?b then _ else _] => destruct b eqn:Hlate end.
  - left. split; [reflexivity|]. apply Z.ltb_lt in Hlate. eexists. split; [|exact Hlate]. lia.
  - right. tick.
    match goal with |- context [match ?x with Ok _ => _ | Throw _ => _ end] =>
      destruct x as [st|gone] end.
    + repeat (progress lock_simpl). tick. subst.
      match goal with |- context [if ?b then _ else _] => destruct b end;
        repeat (progress lock_simpl); repeat tick; eexists;
        (split; [|split; [|reflexivity]]); lia.
    + cbn [io_bind fst snd].
      match goal with H : forall e, Throw ?g = Throw e -> _ |- _ =>
        rewrite (H g eq_refl) end.
      cbn [negb io_bind fst snd]. repeat tick. eexists.
      split; [|split; [|reflexivity]]; lia.
Qed.

Lemma loop_times_out {A} (fn : M A) (start : Z) (p : proc) : forall (fuel : nat) (s : S),
  start <= time s ->
  MAX_LOCK_WAIT_MS - (time s - start) < 40 * Z.of_nat fuel ->
  outcome_of (run h (loop (Datatypes.S fuel) start fn p) s) =
    Some (Throw (Error (LockTimeout_message CONTEXT_FILE)), p).
Proof.
  induction fuel as [|fuel IH]; intros s Hstart Hrem;
    cbn [withWriteLock_loop];
    match goal with |- context [lock_turn _ _ _ _ _ ?retry] =>
      destruct (turn_times_out_or_retries fn retry start p s)
        as [[Hout _]|(s' & Hs' & Hearly & Hout)]
    end; try exact Hout.
  - lia.
  - rewrite Hout. apply IH; lia.
Qed.
End Clock.

(** C9. A write while the lock marker can never be created (every
    exclusive creation is refused with [EEXIST]), in any such
    environment:
    - for any number of turns of the acquisition loop, the write makes
      no call that appends, writes or renames a file, so the log and
      the index are untouched; and if it ends, it ends with an error and
      the caches as they were;
    - if moreover the environment has a clock that [Date.now()] reads
      and a sleep advances, the directory of the log can be made, the
      marker can be inspected, and random draws are not negative, then
      the write ends, after at most 127 turns, with the lock-timeout
      error. *)
Theorem lock_timeout_leaves_log_unmodified {S : Type} (h : handler S) (time : S -> Z)
    (entry : jsval) (p : proc) :
  answers lock_denied h ->
  (forall fuel s,
     Forall writes_nothing (trace_of (run h (append fuel entry p) s))
     /\ forall r p', outcome_of (run h (append fuel entry p) s) = Some (r, p') ->
          p' = p /\ exists e, r = Throw e)
  /\ (timed h time ->
       (forall s, (h _ (FsMkdir CONTEXT_DIR) s).1 = Ok ()) ->
       (forall s e, (h _ (FsStat lock) s).1 = Throw e -> has_code e "ENOENT" = true) ->
       (forall s, (0 <= (h _ MathRandom s).1)%Q) ->
       forall fuel s, (127 <= fuel)%nat ->
         outcome_of (run h (append fuel entry p) s) =
           Some (Throw (Error (LockTimeout_message CONTEXT_FILE)), p)).
Proof.
  intros Hdenied. split.
  - intros fuel s. split.
    + apply (always_run lock_denied h _ _ Hdenied (append_denied_always fuel entry p)).
    + intros r p' Hout. unfold outcome_of in Hout.
      destruct (run h _ s) as [[o s'] tr] eqn:Hrun. cbn in Hout. subst o.
      destruct (sat_run lock_denied h _ Hdenied _ s (r, p') s' tr
                  (append_denied_sat fuel entry p) Hrun) as (e & [= -> ->]).
      split; [reflexivity|eauto].
  - intros Hclock Hmkdir Hmarker Hrandom fuel s Hfuel.
    destruct fuel as [|fuel]; [lia|].
    unfold appendEntry, ensureContextDirectory, withWriteLock, await, perform, mbind, M_bind.
    cbn [io_bind fst snd].
    rewrite outcome_Vis, Hmkdir. cbn [io_bind fst snd].
    rewrite outcome_Vis, (timed_now h time Hclock). cbn [io_bind fst snd].
    match goal with |- context [run h (io_bind (?t ?p0) ?k) ?s0] =>
      destruct (outcome_bind h (t p0) k s0 (Throw (Error (LockTimeout_message CONTEXT_FILE)), p))
        as (s' & ->)
    end.
    + apply (loop_times_out h time Hclock Hdenied Hmarker Hrandom).
      * apply (timed_mono h time Hclock).
      * pose proof (timed_mono h time Hclock _ DateNow
                      (h _ (FsMkdir CONTEXT_DIR) s).2).
        unfold MAX_LOCK_WAIT_MS. lia.
    + reflexivity.
Qed.
End TimeoutFacts.

Lemma demo_busy_env_denied : answers lock_denied demo_busy_env.
Proof.
  intros X q s. destruct q; cbn; try exact I. eexists. split; reflexivity.
Qed.

Lemma demo_busy_env_timed : timed demo_busy_env (fun t => t).
Proof.
  split.
  - reflexivity.
  - intros X q s. destruct q; cbn; lia.
  - intros ms s. cbn. lia.
Qed.

(** C9 in an environment where another process holds a fresh lock for
    good: the write gives up with the lock-timeout error and has written
    nothing. *)
Lemma lock_timeout_leaves_log_unmodified_witness :
  outcome_of (run demo_busy_env
    (appendEntry "ctx.jsonl" "." "shared" demo_JSON_stringify demo_Date_parse demo_toISOString
       demo_sanitize demo_encode demo_decode demo_lockMetadata 127
       (demo_entry "2024-01-01T10:00:00.000Z") proc0) 0)
  = Some (Throw (Error "Timed out waiting for context lock (ctx.jsonl.lock)"), proc0)
  /\ Forall writes_nothing (trace_of (run demo_busy_env
    (appendEntry "ctx.jsonl" "." "shared" demo_JSON_stringify demo_Date_parse demo_toISOString
       demo_sanitize demo_encode demo_decode demo_lockMetadata 127
       (demo_entry "2024-01-01T10:00:00.000Z") proc0) 0)).
Proof.
  split.
  - apply (proj2 (lock_timeout_leaves_log_unmodified "ctx.jsonl" "." "shared"
             demo_JSON_stringify demo_Date_parse demo_toISOString demo_sanitize demo_encode
             demo_decode demo_lockMetadata demo_busy_env (fun t => t)
             (demo_entry "2024-01-01T10:00:00.000Z") proc0 demo_busy_env_denied)
             demo_busy_env_timed).
    + reflexivity.
    + discriminate.
    + discriminate.
    + lia.
  - apply (proj1 (lock_timeout_leaves_log_unmodified "ctx.jsonl" "." "shared"
             demo_JSON_stringify demo_Date_parse demo_toISOString demo_sanitize demo_encode
             demo_decode demo_lockMetadata demo_busy_env (fun t => t)
             (demo_entry "2024-01-01T10:00:00.000Z") proc0 demo_busy_env_denied) 127%nat 0).
Defined.

(** ** Session index: rebuild and incremental maintenance *)

Section IndexFacts.
Variable DEFAULT_PROJECT : string.
Variable Date_parse : jsval -> option Z.
Variable toISOString : Z -> string.
Variable sanitizeDisplayText : string -> string.

Local Abbreviation apply :=
  (applyEntryToSessionIndex DEFAULT_PROJECT Date_parse toISOString sanitizeDisplayText).
Local Abbreviation fold_from :=
  (buildIndex_from DEFAULT_PROJECT Date_parse toISOString sanitizeDisplayText).
Local Abbreviation build :=
  (buildSessionIndexFromEntries DEFAULT_PROJECT Date_parse toISOString sanitizeDisplayText).

(** Folding an entry does not look at the signature of the index. *)
Lemma apply_signature sg index entry fileIndex :
  apply (set_context_signature sg index) entry fileIndex =
    (set_context_signature sg (apply index entry fileIndex).1,
     (apply index entry fileIndex).2).
Proof.
  unfold applyEntryToSessionIndex.
  destruct (0 <=? fileIndex); destruct (normalizeSessionId _) as [[sid|]|e]; reflexivity.
Qed.

Lemma apply_context_signature index entry fileIndex :
  context_signature (apply index entry fileIndex).1 = context_signature index.
Proof.
  unfold applyEntryToSessionIndex.
  destruct (0 <=? fileIndex); destruct (normalizeSessionId _) as [[sid|]|e]; reflexivity.
Qed.

Lemma apply_next_file_index index entry fileIndex :
  0 <= fileIndex ->
  next_file_index (apply index entry fileIndex).1 =
    Z.max (next_file_index index) (fileIndex + 1).
Proof.
  intros H. unfold applyEntryToSessionIndex.
  destruct (Z.leb_spec 0 fileIndex); [|lia].
  destruct (normalizeSessionId _) as [[sid|]|e]; reflexivity.
Qed.

Lemma fold_from_signature sg entries : forall fileIndex index,
  fold_from entries fileIndex (set_context_signature sg index) =
    match fold_from entries fileIndex index with
    | Ok i => Ok (set_context_signature sg i)
    | Throw e => Throw e
    end.
Proof.
  induction entries as [|entry rest IH]; intros fileIndex index; cbn [buildIndex_from].
  - reflexivity.
  - rewrite apply_signature.
    destruct (apply index entry fileIndex) as [i [[]|e]]; cbn [fst snd]; [apply IH|reflexivity].
Qed.

Lemma fold_from_app l1 : forall l2 fileIndex index,
  fold_from (l1 ++ l2) fileIndex index =
    match fold_from l1 fileIndex index with
    | Ok i => fold_from l2 (fileIndex + Z.of_nat (length l1)) i
    | Throw e => Throw e
    end.
Proof.
  induction l1 as [|entry rest IH]; intros l2 fileIndex index; cbn [buildIndex_from app length].
  - rewrite Z.add_0_r. reflexivity.
  - destruct (apply index entry fileIndex) as [i [[]|e]]; [|reflexivity].
    rewrite IH. replace (fileIndex + 1 + Z.of_nat (length rest))
      with (fileIndex + Z.of_nat (S (length rest))) by lia. reflexivity.
Qed.

Lemma fold_from_next_file_index entries : forall fileIndex index i,
  0 <= fileIndex -> 0 <= next_file_index index ->
  fold_from entries fileIndex index = Ok i ->
  next_file_index i =
    Z.max (next_file_index index)
      (if decide (entries = []) then 0 else fileIndex + Z.of_nat (length entries)).
Proof.
  induction entries as [|entry rest IH]; intros fileIndex index i Hk Hn0;
    cbn [buildIndex_from].
  - intros [= <-]. destruct (decide (@nil jsval = [])) as [_|?]; [lia|congruence].
  - pose proof (apply_next_file_index index entry fileIndex Hk) as Hn.
    destruct (apply index entry fileIndex) as [i1 [[]|e]]; [|discriminate].
    cbn [fst] in Hn. intros Hrest.
    assert (Hk' : 0 <= fileIndex + 1) by lia.
    assert (Hn1 : 0 <= next_file_index i1) by lia.
    rewrite (IH _ _ _ Hk' Hn1 Hrest), Hn.
    destruct (decide (entry :: rest = [])) as [?|_]; [discriminate|].
    destruct (decide (rest = [])) as [->|_]; cbn [length]; lia.
Qed.

Lemma fold_from_context_signature entries : forall fileIndex index i,
  fold_from entries fileIndex index = Ok i -> context_signature i = context_signature index.
Proof.
  induction entries as [|entry rest IH]; intros fileIndex index i; cbn [buildIndex_from].
  - intros [= <-]. reflexivity.
  - pose proof (apply_context_signature index entry fileIndex) as Hc.
    destruct (apply index entry fileIndex) as [i1 [[]|e]]; [|discriminate].
    cbn [fst] in Hc. intros Hrest. rewrite (IH _ _ _ Hrest). exact Hc.
Qed.

(** A rebuild is the fold from the empty skeleton: the final correction
    of [next_file_index] changes nothing. *)
Lemma build_fold entries sg index :
  build entries sg = Ok index <->
  fold_from entries 0 (makeSessionIndexSkeleton sg) = Ok index.
Proof.
  unfold buildSessionIndexFromEntries, mbind, result_bind.
  destruct (fold_from entries 0 (makeSessionIndexSkeleton sg)) as [i|e] eqn:Hf;
    [|split; discriminate].
  pose proof (fold_from_next_file_index entries 0 (makeSessionIndexSkeleton sg) _ (Z.le_refl 0) (Z.le_refl 0) Hf) as Hn. cbn in Hn.
  destruct (Z.ltb_spec (next_file_index i) (Z.of_nat (length entries))) as [Hlt|_];
    [|tauto].
  exfalso. destruct (decide (entries = [])) as [->|_]; cbn [length] in *; lia.
Qed.

Lemma build_next_file_index entries sg index :
  build entries sg = Ok index -> next_file_index index = Z.of_nat (length entries).
Proof.
  intros Hf%build_fold.
  rewrite (fold_from_next_file_index entries 0 (makeSessionIndexSkeleton sg) _ (Z.le_refl 0) (Z.le_refl 0) Hf). cbn.
  destruct (decide (entries = [])) as [->|_]; cbn [length]; lia.
Qed.

Lemma build_context_signature entries sg index :
  build entries sg = Ok index -> context_signature index = sg.
Proof.
  intros Hf%build_fold. exact (fold_from_context_signature _ _ _ _ Hf).
Qed.

(** Appending one entry to the log: the rebuild of the longer log is the
    rebuild of the shorter one with the new entry folded in at the next
    file index, under the new signature. *)
Lemma build_snoc prefix entry rest sg0 sg1 sgN idx0 idxN :
  build prefix sg0 = Ok idx0 ->
  build (prefix ++ entry :: rest) sgN = Ok idxN ->
  exists idx1,
    apply (set_context_signature sg1 idx0) entry (next_file_index idx0) = (idx1, Ok ())
    /\ build (prefix ++ [entry]) sg1 = Ok idx1.
Proof.
  intros H0 HN.
  pose proof (build_next_file_index _ _ _ H0) as Hn.
  apply build_fold in H0. apply build_fold in HN.
  change (makeSessionIndexSkeleton sgN)
    with (set_context_signature sgN (makeSessionIndexSkeleton sg0)) in HN.
  rewrite fold_from_signature, fold_from_app, H0 in HN.
  cbn [buildIndex_from] in HN. rewrite Z.add_0_l in HN.
  rewrite Hn, apply_signature.
  destruct (apply idx0 entry (Z.of_nat (length prefix))) as [i1 [[]|e]] eqn:Happ;
    [|discriminate].
  cbn [fst snd]. eexists. split; [reflexivity|].
  apply build_fold.
  change (makeSessionIndexSkeleton sg1)
    with (set_context_signature sg1 (makeSessionIndexSkeleton sg0)).
  rewrite fold_from_signature, fold_from_app, H0.
  cbn [buildIndex_from]. rewrite Z.add_0_l, Happ. reflexivity.
Qed.
End IndexFacts.

Lemma last_cons_default {A} (l : list A) : forall x d, List.last (x :: l) d = List.last l x.
Proof.
  induction l as [|y l IH]; intros x d; [reflexivity|].
  change (List.last (x :: y :: l) d) with (List.last (y :: l) d).
  rewrite !IH. reflexivity.
Qed.

(** Unfolding of the index maintenance. *)
Ltac index_simpl :=
  unfold tryUpdateSessionIndexOnAppend, loadSessionIndex, persistSessionIndex,
    writeSessionIndexFile, write_through, ensureContextDirectory,
    invalidateSessionIndexCache, set_sessionIndexCache, get_proc, readSessionIndexFile,
    try_catch, await, await_ignore, perform, lift, throw, mbind, M_bind, mret, M_ret in *;
  cbn [io_bind fst snd negb andb index contextSignature sessionIndexCache contextCache
       next_file_index context_signature set_context_signature set_next_file_index].

Section MaintainFacts.
Variable CONTEXT_FILE CONTEXT_DIR DEFAULT_PROJECT : string.
Variable Date_parse : jsval -> option Z.
Variable toISOString : Z -> string.
Variable sanitizeDisplayText : string -> string.
Variable encodeSessionIndex : sessionIndex -> string.
Variable decodeSessionIndex : string -> option sessionIndex.

Local Abbreviation apply :=
  (applyEntryToSessionIndex DEFAULT_PROJECT Date_parse toISOString sanitizeDisplayText).
Local Abbreviation build :=
  (buildSessionIndexFromEntries DEFAULT_PROJECT Date_parse toISOString sanitizeDisplayText).
Local Abbreviation update :=
  (tryUpdateSessionIndexOnAppend CONTEXT_FILE CONTEXT_DIR DEFAULT_PROJECT Date_parse
     toISOString sanitizeDisplayText encodeSessionIndex decodeSessionIndex).
Local Abbreviation maintain_ :=
  (maintain CONTEXT_FILE CONTEXT_DIR DEFAULT_PROJECT Date_parse toISOString
     sanitizeDisplayText encodeSessionIndex decodeSessionIndex).

Context {S : Type} (h : handler S).
Hypothesis Hpersists : index_persists h.

(** One append, the cache holding the index of the log before it. *)
Lemma update_step (s : S) (p : proc) (st0 st1 : stat) (idx0 idx1 : sessionIndex)
    (entry : jsval) :
  sessionIndexCache p =
    {| contextSignature := makeFileSignature (Some st0); index := Some idx0 |} ->
  context_signature idx0 = makeFileSignature (Some st0) ->
  0 <= next_file_index idx0 ->
  apply (set_context_signature (makeFileSignature (Some st1)) idx0) entry
    (next_file_index idx0) = (idx1, Ok ()) ->
  outcome_of (run h (update entry (makeFileSignature (Some st0))
                       (makeFileSignature (Some st1)) p) s) =
    Some (Ok (),
          with_sessionIndexCache
            {| contextSignature := makeFileSignature (Some st1); index := Some idx1 |} p).
Proof.
  intros Hcache Hsig Hn Happ.
  destruct Hpersists as (Hmkdir & Hwrite & Hrename).
  pose proof (apply_next_file_index DEFAULT_PROJECT Date_parse toISOString sanitizeDisplayText
                (set_context_signature (makeFileSignature (Some st1)) idx0) entry _ Hn) as Hnext.
  pose proof (apply_context_signature DEFAULT_PROJECT Date_parse toISOString
                sanitizeDisplayText
                (set_context_signature (makeFileSignature (Some st1)) idx0) entry
                (next_file_index idx0)) as Hctx.
  rewrite Happ in Hnext, Hctx. cbn [fst next_file_index context_signature
                                    set_context_signature] in Hnext, Hctx.
  repeat (progress index_simpl).
  rewrite !makeFileSignature_nonempty. repeat (progress index_simpl).
  rewrite Hcache. repeat (progress index_simpl).
  rewrite Hsig, (proj2 (sig_eqb_eq _ _) eq_refl). repeat (progress index_simpl).
  destruct (Z.leb_spec 0 (next_file_index idx0)) as [_|?]; [|lia].
  rewrite Happ. repeat (progress index_simpl).
  destruct (Z.ltb_spec (next_file_index idx1) (next_file_index idx0 + 1)) as [?|_]; [lia|].
  rewrite outcome_Vis, Hmkdir. repeat (progress index_simpl).
  rewrite outcome_Vis. repeat (progress index_simpl).
  rewrite outcome_Vis. repeat (progress index_simpl).
  rewrite outcome_Vis, Hwrite. repeat (progress index_simpl).
  rewrite outcome_Vis, Hrename. repeat (progress index_simpl).
  rewrite Hctx. reflexivity.
Qed.

End MaintainFacts.

Lemma demo_fs_env_persists : index_persists demo_fs_env.
Proof. repeat split. Qed.


Example demo_rebuilt_summary :
  (fun s => (entry_count s, latest_file_index s, agents s, latest_ts_ms s))
    <$> summary_in (demo_build (demo_prefix ++ map fst demo_steps) None) "shared" "s1"
  = Some (2, 1, ["claude"; "codex"], Some 36300000).
Proof. vm_compute. reflexivity. Qed.

(* ===================================================================== *)
(** * Further properties of the code *)
(* ===================================================================== *)

(** ** Argument validation *)

Lemma JStr_fmap_inj (a b : list string) : JStr <$> a = JStr <$> b -> a = b.
Proof.
  revert b. induction a as [|x a IH]; intros [|y b]; cbn; intros [=]; [reflexivity|].
  f_equal; [assumption|]. apply IH. assumption.
Qed.

Lemma asStringArray_from_Ok (items : list jsval) (name : string) : forall (index : Z) out,
  asStringArray_from items name index = Ok out <->
  exists ss, items = JStr <$> ss /\ out = trim <$> ss /\ Forall (fun s => trim s <> "") ss.
Proof.
  induction items as [|item items IH]; intros index out; cbn [asStringArray_from].
  - split.
    + intros [= <-]. exists []. repeat split. constructor.
    + intros (ss & Hss & -> & _). destruct ss; [reflexivity|discriminate].
  - destruct item as [| |b|n|s|l|ps];
      try (split; [discriminate|intros ([|? ?] & [=] & _)]).
    destruct (String.eqb_spec (trim s) "") as [Hblank|Hfull].
    + split; [discriminate|].
      intros ([|s' ss] & [=] & _ & Hall). subst s'.
      inversion Hall; subst. contradiction.
    + destruct (asStringArray_from items name (index + 1)) as [out'|e] eqn:Hrest; cbn.
      * apply IH in Hrest as (ss & -> & -> & Hall). split.
        -- intros [= <-]. exists (s :: ss). repeat split. constructor; assumption.
        -- intros ([|s' ss'] & [=] & -> & _). subst s'.
           apply JStr_fmap_inj in H1 as ->. reflexivity.
      * split; [discriminate|].
        intros ([|s' ss'] & [= Hs Hitems] & -> & Hall).
        inversion Hall as [|? ? _ Hall']; subst s'.
        assert (asStringArray_from items name (index + 1) = Ok (trim <$> ss')) as Hok
          by (apply IH; exists ss'; auto).
        congruence.
Qed.

(** X1. [asStringArray] accepts exactly the arrays whose items are all
    strings that are not blank, and answers them trimmed, in order; an
    absent value is passed through as absent. *)
Theorem asStringArray_accepts (value : jsval) (name : string) (out : list string) :
  asStringArray value name = Ok (Some out) <->
  exists ss, value = JArr (JStr <$> ss) /\ out = trim <$> ss
             /\ Forall (fun s => trim s <> "") ss.
Proof.
  destruct value as [| |b|n|s|items|ps]; cbn [asStringArray];
    try (split; [discriminate|intros (? & [=] & _)]).
  destruct (asStringArray_from items name 0) as [out'|e] eqn:H; cbn.
  - apply asStringArray_from_Ok in H as (ss & -> & -> & Hall). split.
    + intros [= <-]. eauto.
    + intros (ss' & [= Hss] & -> & _). apply JStr_fmap_inj in Hss as ->. reflexivity.
  - split; [discriminate|].
    intros (ss & [= Hitems] & -> & Hall).
    assert (asStringArray_from items name 0 = Ok (trim <$> ss)) as Hok
      by (apply asStringArray_from_Ok; exists ss; auto).
    congruence.
Qed.

Lemma asStringArray_accepts_witness :
  asStringArray (JArr [JStr " a "; JStr "b"]) "tags" = Ok (Some ["a"; "b"]).
Proof.
  apply (proj2 (asStringArray_accepts (JArr [JStr " a "; JStr "b"]) "tags" ["a"; "b"])).
  exists [" a "; "b"]. repeat split. repeat constructor; discriminate.
Defined.

Lemma asStringArray_from_bad (good : list string) (bad : jsval) (rest : list jsval)
    (name : string) : forall index,
  Forall (fun s => trim s <> "") good ->
  (forall s, bad = JStr s -> trim s = "") ->
  asStringArray_from ((JStr <$> good) ++ bad :: rest)%list name index =
    Throw (Error ((if isString bad then "Empty string not allowed at "
                   else "Expected string at ")
                  ++ name ++ "[" ++ pretty (index + Z.of_nat (length good)) ++ "]")).
Proof.
  induction good as [|g good IH]; intros index Hgood Hbad.
  - cbn [fmap list_fmap app length]. change (Z.of_nat 0) with 0. rewrite Z.add_0_r.
    destruct bad as [| |b|n|s|l|ps]; cbn; try reflexivity.
    rewrite (Hbad s eq_refl). reflexivity.
  - inversion Hgood as [|? ? Hg Hgood']; subst.
    cbn [fmap list_fmap app asStringArray_from].
    destruct (String.eqb_spec (trim g) ""); [contradiction|].
    change (list_fmap string jsval JStr good) with (JStr <$> good).
    rewrite (IH (index + 1) Hgood' Hbad). cbn [mbind result_bind length].
    replace (index + Z.of_nat (S (length good))) with (index + 1 + Z.of_nat (length good))
      by lia.
    reflexivity.
Qed.

(** X2. When the array holds an item that is not a string, or a blank
    one, [asStringArray] fails with an error that names the position of
    the first such item, counted from zero. *)
Theorem asStringArray_first_bad (good : list string) (bad : jsval) (rest : list jsval)
    (name : string) :
  Forall (fun s => trim s <> "") good ->
  (forall s, bad = JStr s -> trim s = "") ->
  asStringArray (JArr ((JStr <$> good) ++ bad :: rest)%list) name =
    Throw (Error ((if isString bad then "Empty string not allowed at "
                   else "Expected string at ")
                  ++ name ++ "[" ++ pretty (Z.of_nat (length good)) ++ "]")).
Proof.
  intros Hgood Hbad. cbn [asStringArray].
  rewrite (asStringArray_from_bad good bad rest name 0 Hgood Hbad). reflexivity.
Qed.

Lemma asStringArray_first_bad_witness :
  asStringArray (JArr [JStr "a"; JStr "b"; JNum 3; JStr ""]) "files" =
    Throw (Error "Expected string at files[2]").
Proof.
  apply (asStringArray_first_bad ["a"; "b"] (JNum 3) [JStr ""] "files").
  - repeat constructor; discriminate.
  - discriminate.
Defined.

Lemma enforceItems_from_Ok (values : list string) (name : string) (maxItemChars : Z) :
  forall index,
  enforceItems_from values name maxItemChars index = Ok () <->
  Forall (fun s => strlen s <= maxItemChars) values.
Proof.
  induction values as [|v values IH]; intros index; cbn [enforceItems_from].
  - split; [constructor|reflexivity].
  - destruct (Z.ltb_spec maxItemChars (strlen v)).
    + split; [discriminate|]. intros H'. inversion H'; subst. lia.
    + rewrite IH. split.
      * intros H'. constructor; [lia|assumption].
      * intros H'. inversion H'; assumption.
Qed.

(** X3. [enforceStringArrayLimits] never shortens or alters its argument:
    it returns the list it was given, and does so exactly when the list has
    at most [maxItems] items, none longer than [maxItemChars]. *)
Theorem enforceStringArrayLimits_accepts (values : list string) (name : string)
    (maxItems maxItemChars : Z) (out : option (list string)) :
  enforceStringArrayLimits (Some values) name maxItems maxItemChars = Ok out <->
  out = Some values /\ Z.of_nat (length values) <= maxItems
  /\ Forall (fun s => strlen s <= maxItemChars) values.
Proof.
  cbn [enforceStringArrayLimits].
  destruct (Z.ltb_spec maxItems (Z.of_nat (length values))).
  - split; [discriminate|]. intros (_ & ? & _). lia.
  - destruct (enforceItems_from values name maxItemChars 0) as [[]|e] eqn:Hitems; cbn.
    + apply enforceItems_from_Ok in Hitems. split.
      * intros [= <-]. repeat split; assumption.
      * intros (-> & _). reflexivity.
    + split; [discriminate|]. intros (_ & _ & Hall).
      apply (enforceItems_from_Ok values name maxItemChars 0) in Hall. congruence.
Qed.

Lemma enforceStringArrayLimits_accepts_witness :
  enforceStringArrayLimits (Some ["ab"; "c"]) "tags" 2 2 = Ok (Some ["ab"; "c"]).
Proof.
  apply (proj2 (enforceStringArrayLimits_accepts ["ab"; "c"] "tags" 2 2 (Some ["ab"; "c"]))).
  split; [reflexivity|]. split; [vm_compute; discriminate|].
  constructor; [vm_compute; discriminate|].
  constructor; [vm_compute; discriminate|]. constructor.
Defined.

(** X4. The text of a note is [args.text] when that is a string that is
    not empty, and otherwise [args.content]; it is taken as given, without
    trimming, and is never empty. A [text] or [content] of another type is
    an error even when the other one would do. *)
Theorem resolveNoteTextInput_precedence (args : jsval) (t : string) :
  resolveNoteTextInput args = Ok t <->
  t <> ""
  /\ ((args.["text"] = JStr t /\ absent_or_string args.["content"])
      \/ (absent_or_empty args.["text"] /\ args.["content"] = JStr t)).
Proof.
  unfold resolveNoteTextInput, absent_or_string, absent_or_empty.
  destruct args.["text"] as [| |b|n|s|l|ps]; destruct args.["content"] as [| |b'|n'|s'|l'|ps'];
    cbn;
    repeat match goal with
           | |- context [String.eqb ?x ""] => destruct (String.eqb_spec x "") as [->|?]; cbn
           end;
    (split;
     [intros H; first [discriminate H | injection H as Ht; subst t];
      (split; [assumption|]);
      first [left; split; [reflexivity|eauto 6] | right; split; [eauto 6|reflexivity]]
     |intros H; decompose [and or ex] H; congruence]).
Qed.

Lemma resolveNoteTextInput_precedence_witness :
  resolveNoteTextInput (JObj [("content", JStr " kept as is ")]) = Ok " kept as is ".
Proof.
  apply (proj2 (resolveNoteTextInput_precedence
                  (JObj [("content", JStr " kept as is ")]) " kept as is ")).
  split; [discriminate|]. right. split; [left|]; reflexivity.
Defined.

(** ** Suggested session ids *)

Lemma append_cons c a b : (String c a ++ b = String c (a ++ b))%string.
Proof. reflexivity. Qed.

Lemma append_nil b : ("" ++ b = b)%string.
Proof. reflexivity. Qed.

Lemma all_chars_app class a b :
  all_chars class (a ++ b) = all_chars class a && all_chars class b.
Proof.
  induction a as [|c a IH]; [reflexivity|].
  rewrite append_cons. cbn. rewrite IH. apply andb_assoc.
Qed.

Lemma replaceRuns_all_chars (class keep : ascii -> bool) (rep : string) :
  (forall c, class c = false -> keep c = true) ->
  all_chars keep rep = true ->
  forall s inRun, all_chars keep (replaceRuns class rep inRun s) = true.
Proof.
  intros Hkeep Hrep. induction s as [|c s IH]; intros inRun; [reflexivity|].
  cbn [replaceRuns]. destruct (class c) eqn:Hc.
  - destruct inRun; [apply IH|]. rewrite all_chars_app, Hrep, IH. reflexivity.
  - cbn. rewrite (Hkeep c Hc), IH. reflexivity.
Qed.

Lemma replaceRuns_preserves (class keep : ascii -> bool) (rep : string) :
  all_chars keep rep = true ->
  forall s inRun, all_chars keep s = true ->
    all_chars keep (replaceRuns class rep inRun s) = true.
Proof.
  intros Hrep. induction s as [|c s IH]; intros inRun; [reflexivity|].
  cbn [all_chars replaceRuns]. intros [Hc Hs]%andb_prop.
  destruct (class c).
  - destruct inRun; [apply IH; assumption|].
    rewrite all_chars_app, Hrep, IH by assumption. reflexivity.
  - cbn. rewrite Hc, IH by assumption. reflexivity.
Qed.

(** Collapsing runs of dashes leaves no two dashes in a row; inside a run
    nothing is produced until the run is over. *)
Lemma collapse_no_pair : forall s inRun,
  has_pair isDash (replaceRuns isDash "-" inRun s) = false
  /\ (inRun = true -> char_in isDash (first_char (replaceRuns isDash "-" inRun s)) = false).
Proof.
  induction s as [|c s IH]; intros inRun; [split; reflexivity|].
  cbn [replaceRuns]. destruct (isDash c) eqn:Hc.
  - destruct inRun.
    + apply IH.
    + destruct (IH true) as [Hpair Hfirst]. split; [|discriminate].
      rewrite append_cons, append_nil.
      cbn. rewrite (Hfirst eq_refl), Hpair. reflexivity.
  - destruct (IH false) as [Hpair _]. split.
    + cbn. rewrite Hc, Hpair. reflexivity.
    + intros _. cbn. exact Hc.
Qed.

Lemma stripStart_all_chars class keep s :
  all_chars keep s = true -> all_chars keep (stripStart class s) = true.
Proof.
  induction s as [|c s IH]; [reflexivity|].
  cbn [stripStart]. destruct (class c); [|trivial].
  cbn. intros [_ Hs]%andb_prop. apply IH. assumption.
Qed.

Lemma stripStart_no_pair class s :
  has_pair class s = false -> has_pair class (stripStart class s) = false.
Proof.
  induction s as [|c s IH]; [reflexivity|].
  cbn [stripStart]. destruct (class c); [|trivial].
  cbn. intros [_ Hs]%orb_false_elim. apply IH. assumption.
Qed.

Lemma stripStart_first class s : char_in class (first_char (stripStart class s)) = false.
Proof.
  induction s as [|c s IH]; [reflexivity|].
  cbn [stripStart]. destruct (class c) eqn:Hc; [exact IH|exact Hc].
Qed.

Lemma stripEnd_cons class c s :
  stripEnd class (String c s) =
    if String.eqb (stripEnd class s) "" then (if class c then "" else String c "")
    else String c (stripEnd class s).
Proof. cbn [stripEnd]. destruct (stripEnd class s); reflexivity. Qed.

Lemma stripEnd_all_chars class keep s :
  all_chars keep s = true -> all_chars keep (stripEnd class s) = true.
Proof.
  induction s as [|c s IH]; [reflexivity|].
  rewrite stripEnd_cons. cbn [all_chars]. intros [Hc Hs]%andb_prop.
  destruct (String.eqb (stripEnd class s) "").
  - destruct (class c); [reflexivity|]. cbn. rewrite Hc. reflexivity.
  - cbn. rewrite Hc, IH by assumption. reflexivity.
Qed.

Lemma stripEnd_first class s :
  char_in class (first_char s) = false ->
  stripEnd class s = "" \/ first_char (stripEnd class s) = first_char s.
Proof.
  destruct s as [|c s]; [left; reflexivity|].
  rewrite stripEnd_cons. cbn. intros Hc. rewrite Hc.
  right. destruct (String.eqb (stripEnd class s) ""); reflexivity.
Qed.

Lemma stripEnd_no_pair class s :
  has_pair class s = false -> has_pair class (stripEnd class s) = false.
Proof.
  induction s as [|c s IH]; [reflexivity|].
  rewrite stripEnd_cons. cbn [has_pair]. intros [Hc Hs]%orb_false_elim.
  destruct (String.eqb_spec (stripEnd class s) "") as [E|E].
  - destruct (class c); [reflexivity|]. cbn. rewrite andb_false_r. reflexivity.
  - cbn [has_pair]. rewrite (IH Hs), orb_false_r.
    destruct (class c) eqn:Hcc; [|reflexivity]. cbn in Hc |- *.
    destruct s as [|c' s']; [contradiction E; reflexivity|].
    cbn in Hc. rewrite stripEnd_cons in E |- *.
    destruct (String.eqb (stripEnd class s') "").
    + rewrite Hc in E |- *. exact Hc.
    + exact Hc.
Qed.

Lemma stripEnd_last class s : char_in class (last_char (stripEnd class s)) = false.
Proof.
  induction s as [|c s IH]; [reflexivity|].
  rewrite stripEnd_cons.
  destruct (String.eqb_spec (stripEnd class s) "") as [E|E].
  - destruct (class c) eqn:Hc; [reflexivity|exact Hc].
  - destruct (stripEnd class s) as [|c' t]; [contradiction|]. exact IH.
Qed.

(** X5. Whatever it is given, [sanitizeSessionId] answers nothing or an
    id that is not empty, is made only of letters, digits and [_ . / -],
    has no dash at either end and no two dashes in a row. *)
Theorem sanitizeSessionId_clean (value : jsval) (id : string) :
  sanitizeSessionId value = Some id -> clean_session_id id.
Proof.
  destruct value as [| |b|n|s|l|ps]; try discriminate.
  cbn [sanitizeSessionId]. destruct (String.eqb (trim s) ""); [discriminate|].
  set (r1 := replaceRuns (fun c => negb (isSessionIdChar c)) "-" false (trim s)).
  set (r2 := replaceRuns isDash "-" false r1).
  destruct (String.eqb_spec (stripEnd isDash (stripStart isDash r2)) "") as [|Hne];
    [discriminate|].
  intros [= <-].
  assert (all_chars isSessionIdChar r1 = true) as H1.
  { apply replaceRuns_all_chars; [|reflexivity].
    intros c Hc. apply negb_false_iff. exact Hc. }
  assert (all_chars isSessionIdChar r2 = true) as H2
    by (apply replaceRuns_preserves; [reflexivity|exact H1]).
  destruct (collapse_no_pair r1 false) as [Hpair _]. fold r2 in Hpair.
  repeat split.
  - exact Hne.
  - apply stripEnd_all_chars, stripStart_all_chars, H2.
  - destruct (stripEnd_first isDash (stripStart isDash r2) (stripStart_first isDash r2))
      as [E|E]; [contradiction|].
    rewrite E. apply stripStart_first.
  - apply stripEnd_last.
  - apply stripEnd_no_pair, stripStart_no_pair, Hpair.
Qed.

Lemma sanitizeSessionId_clean_witness : clean_session_id "feature/add-login".
Proof.
  apply (sanitizeSessionId_clean (JStr "  feature/add  login!! ") "feature/add-login").
  vm_compute. reflexivity.
Defined.

Lemma replaceRuns_fixed (class keep : ascii -> bool) rep :
  (forall c, keep c = true -> class c = false) ->
  forall s, all_chars keep s = true -> replaceRuns class rep false s = s.
Proof.
  intros Hkeep. induction s as [|c s IH]; [reflexivity|].
  cbn. intros [Hc Hs]%andb_prop. rewrite (Hkeep c Hc), (IH Hs). reflexivity.
Qed.

Lemma collapse_fixed : forall s inRun,
  has_pair isDash s = false ->
  (inRun = true -> char_in isDash (first_char s) = false) ->
  replaceRuns isDash "-" inRun s = s.
Proof.
  induction s as [|c s IH]; intros inRun Hpair Hfirst; [reflexivity|].
  cbn [has_pair] in Hpair. apply orb_false_elim in Hpair as [Hc Hs].
  cbn [replaceRuns]. destruct (isDash c) eqn:Hd.
  - destruct inRun; [cbn in Hfirst; rewrite Hd in Hfirst; discriminate (Hfirst eq_refl)|].
    rewrite (IH true Hs); [|intros _; exact Hc].
    unfold isDash in Hd. apply Ascii.eqb_eq in Hd as ->. reflexivity.
  - rewrite (IH false Hs); [reflexivity|discriminate].
Qed.

Lemma stripStart_fixed class s :
  char_in class (first_char s) = false -> stripStart class s = s.
Proof. destruct s as [|c s]; [reflexivity|]. cbn. intros ->. reflexivity. Qed.

Lemma stripEnd_fixed class : forall s,
  char_in class (last_char s) = false -> stripEnd class s = s.
Proof.
  induction s as [|c s IH]; [reflexivity|].
  rewrite stripEnd_cons. destruct s as [|c' s'].
  - cbn. intros ->. reflexivity.
  - intros Hlast. change (last_char (String c (String c' s'))) with (last_char (String c' s'))
      in Hlast.
    rewrite (IH Hlast). reflexivity.
Qed.

Lemma trimStart_fixed s :
  char_in isWhiteSpace (first_char s) = false -> trimStart s = s.
Proof. destruct s as [|c s]; [reflexivity|]. cbn. intros ->. reflexivity. Qed.

Lemma trimEnd_stripEnd s : trimEnd s = stripEnd isWhiteSpace s.
Proof. induction s as [|c s IH]; [reflexivity|]. cbn. rewrite IH. reflexivity. Qed.

(** A string that neither starts nor ends with white space is its own
    trimming. *)
Lemma trim_fixed s :
  char_in isWhiteSpace (first_char s) = false ->
  char_in isWhiteSpace (last_char s) = false ->
  trim s = s.
Proof.
  intros Hfirst Hlast. unfold trim.
  rewrite (trimStart_fixed s Hfirst), trimEnd_stripEnd. apply stripEnd_fixed, Hlast.
Qed.

Lemma isSessionIdChar_not_space c : isSessionIdChar c = true -> isWhiteSpace c = false.
Proof.
  destruct c as [[] [] [] [] [] [] [] []]; vm_compute; congruence.
Qed.

Lemma all_chars_first class s :
  s <> "" -> all_chars class s = true -> char_in class (first_char s) = true.
Proof.
  destruct s as [|c s]; [congruence|]. cbn. intros _ [Hc _]%andb_prop. exact Hc.
Qed.

Lemma all_chars_last class : forall s,
  s <> "" -> all_chars class s = true -> char_in class (last_char s) = true.
Proof.
  induction s as [|c s IH]; [congruence|].
  intros _. cbn [all_chars]. intros [Hc Hs]%andb_prop.
  destruct s as [|c' s']; [exact Hc|].
  apply IH; [discriminate|exact Hs].
Qed.

Lemma char_in_not_space class c :
  (forall x, class x = true -> isWhiteSpace x = false) ->
  char_in class c = true -> char_in isWhiteSpace c = false.
Proof. intros H. destruct c as [c|]; [apply H|reflexivity]. Qed.

Lemma clean_session_id_trim id : clean_session_id id -> trim id = id.
Proof.
  intros (Hne & Hall & _).
  apply trim_fixed; apply (char_in_not_space isSessionIdChar);
    auto using isSessionIdChar_not_space, all_chars_first, all_chars_last.
Qed.

Lemma clean_session_id_fixed id :
  clean_session_id id -> sanitizeSessionId (JStr id) = Some id.
Proof.
  intros Hclean. pose proof (clean_session_id_trim id Hclean) as Htrim.
  destruct Hclean as (Hne & Hall & Hfirst & Hlast & Hpair).
  cbn [sanitizeSessionId]. rewrite Htrim.
  destruct (String.eqb_spec id ""); [contradiction|].
  assert (forall c, isSessionIdChar c = true -> negb (isSessionIdChar c) = false) as Hkeep
    by (intros c Hc; rewrite Hc; reflexivity).
  rewrite (replaceRuns_fixed _ isSessionIdChar "-" Hkeep id Hall).
  rewrite collapse_fixed by (assumption || discriminate).
  rewrite stripStart_fixed, stripEnd_fixed by assumption.
  destruct (String.eqb_spec id ""); [contradiction|reflexivity].
Qed.

(** X6. [sanitizeSessionId] is idempotent, and what it answers is a
    session id that [normalizeSessionId] accepts as it is. *)
Theorem sanitizeSessionId_idempotent (value : jsval) (id : string) :
  sanitizeSessionId value = Some id ->
  sanitizeSessionId (JStr id) = Some id /\ normalizeSessionId (JStr id) = Ok (Some id).
Proof.
  intros H. apply sanitizeSessionId_clean in H. split.
  - apply clean_session_id_fixed, H.
  - cbn [normalizeSessionId]. rewrite (clean_session_id_trim id H).
    destruct H as (Hne & _). destruct (String.eqb_spec id ""); [contradiction|reflexivity].
Qed.

Lemma sanitizeSessionId_idempotent_witness :
  sanitizeSessionId (JStr "fix--bug #12") = Some "fix-bug-12"
  /\ sanitizeSessionId (JStr "fix-bug-12") = Some "fix-bug-12"
  /\ normalizeSessionId (JStr "fix-bug-12") = Ok (Some "fix-bug-12").
Proof.
  split; [vm_compute; reflexivity|].
  apply (sanitizeSessionId_idempotent (JStr "fix--bug #12") "fix-bug-12").
  vm_compute. reflexivity.
Defined.

(** ** Display text *)

Lemma removeAll_all_chars class s :
  all_chars (fun c => negb (class c)) (removeAll class s) = true.
Proof.
  induction s as [|c s IH]; [reflexivity|].
  cbn [removeAll]. destruct (class c) eqn:Hc; [exact IH|].
  cbn. rewrite Hc, IH. reflexivity.
Qed.

Lemma removeAll_fixed class s :
  all_chars (fun c => negb (class c)) s = true -> removeAll class s = s.
Proof.
  induction s as [|c s IH]; [reflexivity|].
  cbn. intros [Hc Hs]%andb_prop. apply negb_true_iff in Hc. rewrite Hc, (IH Hs). reflexivity.
Qed.

Lemma all_chars_impl (p q : ascii -> bool) s :
  (forall c, p c = true -> q c = true) -> all_chars p s = true -> all_chars q s = true.
Proof.
  intros Hpq. induction s as [|c s IH]; [reflexivity|].
  cbn. intros [Hc Hs]%andb_prop. rewrite (Hpq c Hc), (IH Hs). reflexivity.
Qed.

Lemma trimStart_stripStart s : trimStart s = stripStart isWhiteSpace s.
Proof. induction s as [|c s IH]; [reflexivity|]. cbn. rewrite IH. reflexivity. Qed.

Lemma trim_all_chars keep s : all_chars keep s = true -> all_chars keep (trim s) = true.
Proof.
  intros H. unfold trim. rewrite trimEnd_stripEnd, trimStart_stripStart.
  apply stripEnd_all_chars, stripStart_all_chars, H.
Qed.

Lemma trim_first s : char_in isWhiteSpace (first_char (trim s)) = false.
Proof.
  unfold trim. rewrite trimEnd_stripEnd, trimStart_stripStart.
  destruct (stripEnd_first isWhiteSpace (stripStart isWhiteSpace s)
              (stripStart_first isWhiteSpace s)) as [E|E].
  - rewrite E. reflexivity.
  - rewrite E. apply stripStart_first.
Qed.

Lemma trim_last s : char_in isWhiteSpace (last_char (trim s)) = false.
Proof. unfold trim. rewrite trimEnd_stripEnd. apply stripEnd_last. Qed.

Lemma trim_idempotent s : trim (trim s) = trim s.
Proof. apply trim_fixed; [apply trim_first|apply trim_last]. Qed.

Lemma isControl_ESC c : Ascii.eqb c ESC = true -> isControl c = true.
Proof. intros ->%Ascii.eqb_eq. reflexivity. Qed.

Lemma isLineBreakOrTab_display c : isLineBreakOrTab c = true -> isDisplayChar c = true.
Proof.
  unfold isLineBreakOrTab. intros H.
  apply orb_prop in H as [H|H]; [apply orb_prop in H as [H|H]|];
    apply Ascii.eqb_eq in H as ->; reflexivity.
Qed.

(** X7. The text that [sanitizeDisplayText] returns holds no ESC and no
    other control character apart from TAB, LF and CR; in single-line mode
    it holds none of these three either and has no white space at its
    ends. *)
Theorem sanitizeDisplayText_no_control (singleLine : bool) (value : string) :
  let out := sanitizeDisplayText singleLine value in
  all_chars isDisplayChar out = true
  /\ all_chars (fun c => negb (Ascii.eqb c ESC)) out = true
  /\ (singleLine = true ->
      all_chars (fun c => negb (isLineBreakOrTab c)) out = true /\ trim out = out).
Proof.
  cbn zeta. unfold sanitizeDisplayText.
  set (clean := removeAll isControl _).
  assert (all_chars isDisplayChar clean = true) as Hclean by apply removeAll_all_chars.
  assert (forall s, all_chars isDisplayChar s = true ->
                    all_chars (fun c => negb (Ascii.eqb c ESC)) s = true) as Hesc.
  { intros s. apply all_chars_impl. intros c Hc.
    destruct (Ascii.eqb c ESC) eqn:E; [|reflexivity].
    unfold isDisplayChar in Hc. rewrite (isControl_ESC c E) in Hc. discriminate. }
  destruct singleLine.
  - assert (all_chars isDisplayChar (trim (replaceRuns isLineBreakOrTab " " false clean)) = true)
      as Hout by (apply trim_all_chars, replaceRuns_preserves; [reflexivity|exact Hclean]).
    split; [exact Hout|]. split; [apply Hesc, Hout|].
    intros _. split; [|apply trim_idempotent].
    apply trim_all_chars, replaceRuns_all_chars; [|reflexivity].
    intros c Hc. rewrite Hc. reflexivity.
  - split; [exact Hclean|]. split; [apply Hesc, Hclean|discriminate].
Qed.

Lemma removeMatches_none (matchAt : string -> option nat) (keep : ascii -> bool) :
  (forall c s, keep c = true -> matchAt (String c s) = None) ->
  forall s, all_chars keep s = true -> removeMatches matchAt O s = s.
Proof.
  intros Hnone. induction s as [|c s IH]; [reflexivity|].
  cbn [all_chars removeMatches]. intros [Hc Hs]%andb_prop.
  rewrite (Hnone c s Hc), (IH Hs). reflexivity.
Qed.

Lemma matchOSC_needs_ESC c s : Ascii.eqb c ESC = false -> matchOSC (String c s) = None.
Proof. intros H. cbn. destruct s; [reflexivity|]. rewrite H. reflexivity. Qed.

Lemma matchCSI_needs_ESC c s : Ascii.eqb c ESC = false -> matchCSI (String c s) = None.
Proof. intros H. cbn. destruct s; [reflexivity|]. rewrite H. reflexivity. Qed.

Lemma display_not_ESC c : isDisplayChar c = true -> Ascii.eqb c ESC = false.
Proof.
  intros Hc. destruct (Ascii.eqb c ESC) eqn:E; [|reflexivity].
  unfold isDisplayChar in Hc. rewrite (isControl_ESC c E) in Hc. discriminate.
Qed.

Lemma sanitize_fixed s :
  all_chars isDisplayChar s = true -> sanitizeDisplayText false s = s.
Proof.
  intros H. unfold sanitizeDisplayText.
  rewrite (removeMatches_none matchOSC isDisplayChar)
    by (assumption || (intros; apply matchOSC_needs_ESC, display_not_ESC; assumption)).
  rewrite (removeMatches_none matchCSI isDisplayChar)
    by (assumption || (intros; apply matchCSI_needs_ESC, display_not_ESC; assumption)).
  assert (all_chars (fun c => negb (Ascii.eqb c ESC)) s = true) as Hesc.
  { revert H. apply all_chars_impl. intros c Hc. rewrite (display_not_ESC c Hc). reflexivity. }
  rewrite (removeAll_fixed (fun c => Ascii.eqb c ESC) s Hesc).
  apply removeAll_fixed. exact H.
Qed.

(** X8. [sanitizeDisplayText] leaves alone a text without control
    characters (TAB, LF and CR apart), and applying it twice, in either
    mode, gives what applying it once gives. *)
Theorem sanitizeDisplayText_idempotent (singleLine : bool) (value : string) :
  (all_chars isDisplayChar value = true -> sanitizeDisplayText false value = value)
  /\ sanitizeDisplayText singleLine (sanitizeDisplayText singleLine value)
     = sanitizeDisplayText singleLine value.
Proof.
  split; [apply sanitize_fixed|].
  destruct (sanitizeDisplayText_no_control singleLine value) as (Hdisp & _ & Hline).
  cbn zeta in Hdisp, Hline.
  destruct singleLine; [|apply sanitize_fixed, Hdisp].
  destruct (Hline eq_refl) as [Hbreak Htrim].
  set (out := sanitizeDisplayText true value) in *.
  change (sanitizeDisplayText true out)
    with (trim (replaceRuns isLineBreakOrTab " " false (sanitizeDisplayText false out))).
  rewrite (sanitize_fixed out Hdisp).
  rewrite (replaceRuns_fixed isLineBreakOrTab (fun c => negb (isLineBreakOrTab c))).
  - exact Htrim.
  - intros c Hc. apply negb_true_iff. exact Hc.
  - exact Hbreak.
Qed.

Lemma append_assoc a b c : ((a ++ b) ++ c = a ++ (b ++ c))%string.
Proof. induction a as [|x a IH]; [reflexivity|]. rewrite !append_cons, IH. reflexivity. Qed.

Lemma length_append a b : String.length (a ++ b) = (String.length a + String.length b)%nat.
Proof. induction a as [|x a IH]; [reflexivity|]. rewrite append_cons. cbn. rewrite IH. reflexivity. Qed.

Lemma removeMatches_prefix (matchAt : string -> option nat) (keep : ascii -> bool) :
  (forall c s, keep c = true -> matchAt (String c s) = None) ->
  forall a b, all_chars keep a = true ->
    removeMatches matchAt O (a ++ b) = (a ++ removeMatches matchAt O b)%string.
Proof.
  intros Hnone. induction a as [|c a IH]; intros b; [reflexivity|].
  cbn [all_chars]. intros [Hc Ha]%andb_prop.
  rewrite !append_cons. cbn [removeMatches].
  rewrite (Hnone c _ Hc), (IH b Ha). reflexivity.
Qed.

Lemma removeMatches_skip (matchAt : string -> option nat) : forall a b,
  removeMatches matchAt (String.length a) (a ++ b) = removeMatches matchAt O b.
Proof.
  induction a as [|c a IH]; intros b.
  - rewrite append_nil. destruct b; reflexivity.
  - rewrite append_cons. cbn [String.length removeMatches]. apply IH.
Qed.

Lemma spanLength_app class : forall a b,
  all_chars class a = true -> char_in class (first_char b) = false ->
  spanLength class (a ++ b) = String.length a.
Proof.
  induction a as [|c a IH]; intros b.
  - intros _ Hb. rewrite append_nil. destruct b as [|x b]; [reflexivity|].
    cbn in Hb |- *. rewrite Hb. reflexivity.
  - cbn [all_chars]. intros [Hc Ha]%andb_prop Hb.
    rewrite append_cons. cbn [spanLength String.length]. rewrite Hc, (IH b Ha Hb). reflexivity.
Qed.

Lemma drop_str_app : forall a b, drop_str (String.length a) (a ++ b) = b.
Proof.
  induction a as [|c a IH]; intros b.
  - rewrite append_nil. destruct b; reflexivity.
  - rewrite append_cons. cbn. apply IH.
Qed.

Lemma inter_not_param c : between 32 47 c = true -> between 48 63 c = false.
Proof. destruct c as [[] [] [] [] [] [] [] []]; vm_compute; congruence. Qed.

Lemma final_not_param c : between 64 126 c = true -> between 48 63 c = false.
Proof. destruct c as [[] [] [] [] [] [] [] []]; vm_compute; congruence. Qed.

Lemma final_not_inter c : between 64 126 c = true -> between 32 47 c = false.
Proof. destruct c as [[] [] [] [] [] [] [] []]; vm_compute; congruence. Qed.

Lemma printable_not_ESC c :
  between 32 47 c || between 48 63 c || between 64 126 c = true ->
  negb (Ascii.eqb c ESC) = true.
Proof. destruct c as [[] [] [] [] [] [] [] []]; vm_compute; congruence. Qed.

Lemma matchCSI_CSI params inter final rest :
  isCSI params inter final ->
  matchCSI (CSI params inter final ++ rest)
  = Some (2 + String.length params + String.length inter + 1)%nat.
Proof.
  intros (Hp & Hi & Hf). unfold CSI.
  rewrite !append_cons, !append_assoc, append_cons, append_nil.
  cbn [matchCSI]. replace (Ascii.eqb ESC ESC && Ascii.eqb "[" "[")%char with true by reflexivity.
  assert (char_in (between 32 47) (first_char (String final rest)) = false) as Hfi
    by (cbn; apply final_not_inter, Hf).
  assert (char_in (between 48 63) (first_char (inter ++ String final rest)) = false) as Hip.
  { destruct inter as [|x inter].
    - cbn. apply final_not_param, Hf.
    - cbn in Hi |- *. apply andb_prop in Hi as [Hx _]. apply inter_not_param, Hx. }
  rewrite (spanLength_app _ params _ Hp Hip), drop_str_app.
  rewrite (spanLength_app _ inter _ Hi Hfi), drop_str_app.
  rewrite Hf. reflexivity.
Qed.

Lemma removeMatches_CSI params inter final rest :
  isCSI params inter final ->
  removeMatches matchCSI O (CSI params inter final ++ rest) = removeMatches matchCSI O rest.
Proof.
  intros H. pose proof (matchCSI_CSI params inter final rest H) as Hm.
  unfold CSI in *. rewrite append_cons in *.
  cbn [removeMatches]. rewrite Hm.
  replace (2 + String.length params + String.length inter + 1)%nat
    with (S (String.length (String "[" (params ++ inter ++ String final ""))))
    by (cbn [String.length]; rewrite !length_append; cbn [String.length]; lia).
  cbv iota. apply removeMatches_skip.
Qed.

Lemma removeMatches_OSC_CSI params inter final rest :
  isCSI params inter final ->
  removeMatches matchOSC O (CSI params inter final ++ rest)
  = (CSI params inter final ++ removeMatches matchOSC O rest)%string.
Proof.
  intros (Hp & Hi & Hf). unfold CSI. rewrite !append_cons.
  cbn [removeMatches matchOSC].
  replace (Ascii.eqb ESC ESC && Ascii.eqb "[" "]")%char with false by reflexivity.
  f_equal.
  apply (removeMatches_prefix matchOSC (fun c => negb (Ascii.eqb c ESC))
           (fun c s Hc => matchOSC_needs_ESC c s (proj1 (negb_true_iff _) Hc))
           (String "[" (params ++ inter ++ String final ""))).
  cbn [all_chars]. rewrite !all_chars_app. cbn [all_chars].
  rewrite (all_chars_impl (between 48 63) (fun c => negb (Ascii.eqb c ESC)) params) by
    (assumption || (intros c Hc; apply printable_not_ESC; rewrite Hc, !orb_true_r; reflexivity)).
  rewrite (all_chars_impl (between 32 47) (fun c => negb (Ascii.eqb c ESC)) inter) by
    (assumption || (intros c Hc; apply printable_not_ESC; rewrite Hc; reflexivity)).
  rewrite (printable_not_ESC final) by (rewrite Hf, !orb_true_r; reflexivity).
  reflexivity.
Qed.

(** X9. A CSI escape sequence (a colour code, a cursor movement) that
    comes after text free of ESC is removed whole, its parameter and final
    bytes included: the result is that of the text with the sequence cut
    out. *)
Theorem sanitizeDisplayText_removes_CSI (singleLine : bool) (before after : string)
    (params inter : string) (final : ascii) :
  all_chars (fun c => negb (Ascii.eqb c ESC)) before = true ->
  isCSI params inter final ->
  sanitizeDisplayText singleLine (before ++ CSI params inter final ++ after)
  = sanitizeDisplayText singleLine (before ++ after).
Proof.
  intros Hbefore Hcsi.
  assert (forall c s, negb (Ascii.eqb c ESC) = true -> matchOSC (String c s) = None) as Hosc
    by (intros c s Hc; apply matchOSC_needs_ESC, negb_true_iff, Hc).
  assert (forall c s, negb (Ascii.eqb c ESC) = true -> matchCSI (String c s) = None) as Hcsi'
    by (intros c s Hc; apply matchCSI_needs_ESC, negb_true_iff, Hc).
  unfold sanitizeDisplayText.
  rewrite !(removeMatches_prefix matchOSC _ Hosc before _ Hbefore).
  rewrite (removeMatches_OSC_CSI params inter final after Hcsi).
  rewrite !(removeMatches_prefix matchCSI _ Hcsi' before _ Hbefore).
  rewrite (removeMatches_CSI params inter final _ Hcsi).
  reflexivity.
Qed.

Lemma sanitizeDisplayText_removes_CSI_witness :
  sanitizeDisplayText false ("ok " ++ CSI "1;31" "" "m" ++ "red")
  = sanitizeDisplayText false ("ok " ++ "red").
Proof.
  apply (sanitizeDisplayText_removes_CSI false "ok " "red" "1;31" "" "m"%char).
  - reflexivity.
  - repeat split.
Defined.

(** ** Session summaries *)

Lemma take_str_length : forall n s, (String.length (take_str n s) <= n)%nat.
Proof.
  induction n as [|n IH]; intros [|c s]; cbn; try lia.
  specialize (IH s). lia.
Qed.

(** X10. Whatever the sanitizer, the text that [truncateText] returns is
    not empty and has at most [maxLength] characters, or three when
    [maxLength] is less than three (the ellipsis is never cut); a text
    that fits is returned whole. *)
Theorem truncateText_bound (sanitize : string -> string) (value : jsval) (maxLength : Z)
    (t : string) :
  truncateText sanitize value maxLength = Some t ->
  t <> "" /\ strlen t <= Z.max maxLength 3
  /\ exists s, value = JStr s
       /\ (strlen (trim (sanitize s)) <= maxLength -> t = trim (sanitize s)).
Proof.
  destruct value as [| |b|n|s|l|ps]; try discriminate.
  cbn [truncateText]. destruct (String.eqb_spec (trim (sanitize s)) "") as [|Hne];
    [discriminate|].
  destruct (Z.leb_spec (strlen (trim (sanitize s))) maxLength) as [Hfit|Hlong].
  - intros [= <-]. split; [exact Hne|]. split; [lia|]. eauto.
  - intros [= <-]. split.
    + destruct (take_str _ _); discriminate.
    + split; [|exists s; split; [reflexivity|lia]].
      unfold strlen. rewrite length_append.
      pose proof (take_str_length (Z.to_nat (Z.max 0 (maxLength - 3))) (trim (sanitize s))).
      cbn [String.length]. lia.
Qed.

Lemma truncateText_bound_witness :
  "a long ..." <> "" /\ strlen "a long ..." <= Z.max 10 3
  /\ exists s, JStr "  a long handoff summary  " = JStr s
       /\ (strlen (trim (sanitizeDisplayText true s)) <= 10 ->
           "a long ..." = trim (sanitizeDisplayText true s)).
Proof.
  apply (truncateText_bound (sanitizeDisplayText true) (JStr "  a long handoff summary  ") 10).
  vm_compute. reflexivity.
Defined.

Lemma map_get_set k k' v m :
  map_get k (map_set k' v m) = if String.eqb k k' then Some v else map_get k m.
Proof.
  induction m as [|[k0 v0] m IH]; cbn.
  - destruct (String.eqb k k'); reflexivity.
  - destruct (String.eqb_spec k' k0) as [->|Hne]; cbn.
    + destruct (String.eqb k k0); reflexivity.
    + destruct (String.eqb_spec k k0) as [->|Hne'].
      * destruct (String.eqb_spec k0 k'); [congruence|reflexivity].
      * exact IH.
Qed.

Lemma map_get_None k m : map_get k m = None <-> ~ In k (map fst m).
Proof.
  induction m as [|[k0 v0] m IH]; cbn.
  - tauto.
  - destruct (String.eqb_spec k k0) as [->|Hne].
    + split; [discriminate|]. intros H. exfalso. apply H. left. reflexivity.
    + rewrite IH. split; [intros H [E|E]; [congruence|contradiction]|tauto].
Qed.

Lemma map_set_keys k v m :
  map fst (map_set k v m) =
    match map_get k m with Some _ => map fst m | None => (map fst m ++ [k])%list end.
Proof.
  induction m as [|[k0 v0] m IH]; [reflexivity|].
  cbn. destruct (String.eqb_spec k k0) as [->|Hne]; cbn; [reflexivity|].
  rewrite IH. destruct (map_get k m); reflexivity.
Qed.

Lemma map_set_NoDup k v m : List.NoDup (map fst m) -> List.NoDup (map fst (map_set k v m)).
Proof.
  intros H. rewrite map_set_keys.
  destruct (map_get k m) eqn:E; [exact H|].
  apply map_get_None in E.
  apply List.NoDup_app; [exact H|repeat constructor; intros []|].
  intros x Hx [->|[]]. contradiction.
Qed.

Lemma map_get_In k v m : map_get k m = Some v -> In (k, v) m.
Proof.
  induction m as [|[k0 v0] m IH]; [discriminate|].
  cbn. destruct (String.eqb_spec k k0) as [->|Hne].
  - intros [= ->]. left. reflexivity.
  - intros H. right. apply IH, H.
Qed.

Lemma In_map_get k v m : List.NoDup (map fst m) -> In (k, v) m -> map_get k m = Some v.
Proof.
  induction m as [|[k0 v0] m IH]; [intros _ []|].
  cbn. rewrite List.NoDup_cons_iff. intros [Hnotin Hnd] [[= -> ->]|Hin].
  - rewrite String.eqb_refl. reflexivity.
  - destruct (String.eqb_spec k k0) as [->|Hne].
    + exfalso. apply Hnotin. apply in_map_iff. exists (k0, v). split; [reflexivity|exact Hin].
    + apply IH; assumption.
Qed.

Lemma In_omap {A B} (pick : A -> option B) (xs : list A) (b : B) :
  In b (omap pick xs) <-> exists a, In a xs /\ pick a = Some b.
Proof.
  rewrite <- list_elem_of_In, list_elem_of_omap.
  split; intros (a & Ha & Hpick); exists a; (split; [apply list_elem_of_In, Ha|exact Hpick]).
Qed.

Lemma Permutation_In_iff {A} (l l' : list A) (x : A) :
  Permutation l l' -> (In x l <-> In x l').
Proof.
  intros H. split; [apply Permutation_in, H|apply Permutation_in, Permutation_sym, H].
Qed.

Section SummaryFacts.
Variable Date_parse : jsval -> option Z.
Variable toISOString : Z -> string.
Variable sanitizeDisplayText : string -> string.
Variable localeCompare : string -> string -> Z.

Local Abbreviation apply_entry :=
  (applyEntryToSessionSummary Date_parse toISOString sanitizeDisplayText).
Local Abbreviation step := (summaries_step Date_parse toISOString sanitizeDisplayText).
Local Abbreviation from := (summaries_from Date_parse toISOString sanitizeDisplayText).
Local Abbreviation summaryOf := (summary_of Date_parse toISOString sanitizeDisplayText).
Local Abbreviation build :=
  (buildSessionSummaries Date_parse toISOString sanitizeDisplayText localeCompare).

(** The loop body files the entry under [bucket_of]. *)
Lemma step_bucket inc sessions entry fileIndex :
  step inc sessions entry fileIndex =
    match bucket_of inc entry with
    | None => sessions
    | Some id =>
        map_set id
          (apply_entry (default (makeSessionSummary id entry.["project"]) (map_get id sessions))
             entry fileIndex)
          sessions
    end.
Proof.
  unfold summaries_step, bucket_of.
  destruct entry.["session_id"] as [| |b|n|s|l|ps]; cbn;
    try (destruct inc; cbn; [destruct (map_get NO_SESSION_BUCKET sessions)|]; reflexivity).
  destruct (String.eqb_spec (trim s) "") as [E|E]; cbn.
  - destruct inc; cbn; [destruct (map_get NO_SESSION_BUCKET sessions)|]; reflexivity.
  - destruct (String.eqb_spec (trim s) ""); [contradiction|].
    destruct (map_get (trim s) sessions); reflexivity.
Qed.

Lemma step_get inc id sessions entry fileIndex :
  map_get id (step inc sessions entry fileIndex) =
    if in_bucket inc id entry
    then Some (apply_entry (default (makeSessionSummary id entry.["project"])
                              (map_get id sessions)) entry fileIndex)
    else map_get id sessions.
Proof.
  rewrite step_bucket. unfold in_bucket.
  destruct (bucket_of inc entry) as [id'|].
  - rewrite map_get_set. destruct (String.eqb_spec id id') as [->|Hne].
    + rewrite bool_decide_eq_true_2 by reflexivity. reflexivity.
    + rewrite bool_decide_eq_false_2 by congruence. reflexivity.
  - rewrite bool_decide_eq_false_2 by discriminate. reflexivity.
Qed.

Lemma from_get inc id : forall es fileIndex sessions,
  map_get id (from inc es fileIndex sessions) =
    summaryOf inc id es fileIndex (map_get id sessions).
Proof.
  induction es as [|entry rest IH]; intros fileIndex sessions; [reflexivity|].
  cbn [summaries_from summary_of]. rewrite IH, step_get. reflexivity.
Qed.

Lemma step_NoDup inc sessions entry fileIndex :
  List.NoDup (map fst sessions) -> List.NoDup (map fst (step inc sessions entry fileIndex)).
Proof.
  intros H. rewrite step_bucket. destruct (bucket_of inc entry); [|exact H].
  apply map_set_NoDup, H.
Qed.

Lemma from_NoDup inc : forall es fileIndex sessions,
  List.NoDup (map fst sessions) ->
  List.NoDup (map fst (from inc es fileIndex sessions)).
Proof.
  induction es as [|entry rest IH]; intros fileIndex sessions H; [exact H|].
  cbn [summaries_from]. apply IH, step_NoDup, H.
Qed.

(** A session without entries keeps the summary it has, or none. *)
Lemma summaryOf_untouched inc id : forall es fileIndex cur,
  session_entries inc id es = [] -> summaryOf inc id es fileIndex cur = cur.
Proof.
  induction es as [|entry rest IH]; intros fileIndex cur; [reflexivity|].
  cbn [summary_of session_entries List.filter].
  destruct (in_bucket inc id entry); [discriminate|]. apply IH.
Qed.

(** What a session's summary adds up to, whatever it started from. *)
Lemma summaryOf_counts inc id : forall es fileIndex cur,
  match summaryOf inc id es fileIndex cur with
  | Some s =>
      session_id s = from_option session_id id cur
      /\ entry_count s = from_option entry_count 0 cur
           + Z.of_nat (length (session_entries inc id es))
      /\ note_count s = from_option note_count 0 cur
           + count_kind "note" (session_entries inc id es)
      /\ handoff_count s = from_option handoff_count 0 cur
           + count_kind "handoff" (session_entries inc id es)
  | None => cur = None /\ session_entries inc id es = []
  end.
Proof.
  induction es as [|entry rest IH]; intros fileIndex cur.
  - unfold count_kind, session_entries. cbn. destruct cur; cbn; repeat split; (reflexivity || lia).
  - cbn [summary_of session_entries List.filter].
    fold (session_entries inc id rest).
    destruct (in_bucket inc id entry) eqn:Hin; [|apply IH].
    specialize (IH (fileIndex + 1)
      (Some (apply_entry (default (makeSessionSummary id entry.["project"]) cur)
               entry fileIndex))).
    destruct (summaryOf inc id rest _ _) as [s|]; [|destruct IH; discriminate].
    destruct IH as (Hid & Hec & Hnc & Hhc).
    unfold count_kind in *. cbn [List.filter length from_option] in *.
    rewrite Hid, Hec, Hnc, Hhc.
    destruct cur as [c|]; cbn -[Z.of_nat Z.add];
      destruct (is_str entry.["kind"] "note"), (is_str entry.["kind"] "handoff");
      cbn -[Z.of_nat Z.add]; repeat split; (reflexivity || lia).
Qed.

Lemma session_entries_nonempty inc id es :
  session_entries inc id es <> [] <->
  exists e, In e es /\ bucket_of inc e = Some id.
Proof.
  unfold session_entries. split.
  - intros H. destruct (List.filter _ es) as [|e l] eqn:E; [contradiction|].
    assert (In e (List.filter (in_bucket inc id) es)) as Hin by (rewrite E; left; reflexivity).
    apply filter_In in Hin as [Hin Hb]. exists e. split; [exact Hin|].
    unfold in_bucket in Hb. apply bool_decide_eq_true_1 in Hb. exact Hb.
  - intros (e & Hin & Hb) E.
    assert (In e (List.filter (in_bucket inc id) es)) as Hin'.
    { apply filter_In. split; [exact Hin|]. unfold in_bucket.
      apply bool_decide_eq_true_2, Hb. }
    rewrite E in Hin'. contradiction.
Qed.

(** The map that the loop of [buildSessionSummaries] ends with, read
    session by session. *)
Lemma from_lookup inc es id s :
  In (id, s) (from inc es 0 []) <-> summaryOf inc id es 0 None = Some s.
Proof.
  change (summaryOf inc id es 0 None) with (summaryOf inc id es 0 (map_get id [])).
  rewrite <- from_get. split.
  - apply In_map_get, from_NoDup. constructor.
  - apply map_get_In.
Qed.

Lemma summaryOf_session_id inc es id s :
  summaryOf inc id es 0 None = Some s -> session_id s = id.
Proof.
  intros Hs. pose proof (summaryOf_counts inc id es 0 None) as H.
  rewrite Hs in H. apply H.
Qed.

Lemma build_In inc es s :
  In s (build es inc) <->
  exists v, summaryOf inc (session_id v) es 0 None = Some v /\ s = with_sorted_agents v.
Proof.
  unfold buildSessionSummaries, sortSessionSummaries.
  rewrite (Permutation_In_iff _ _ s
             (array_sort_Permutation (compareSummaries Date_parse localeCompare) _)).
  rewrite in_map_iff. split.
  - intros ([k v] & <- & Hkv). exists v. split; [|reflexivity].
    apply from_lookup in Hkv. rewrite (summaryOf_session_id _ _ _ _ Hkv). exact Hkv.
  - intros (v & Hv & ->). exists (session_id v, v). split; [reflexivity|].
    apply from_lookup, Hv.
Qed.

Lemma build_ids inc es :
  Permutation (map session_id (build es inc)) (map fst (from inc es 0 [])).
Proof.
  unfold buildSessionSummaries, sortSessionSummaries.
  rewrite (array_sort_Permutation (compareSummaries Date_parse localeCompare)).
  rewrite map_map. erewrite map_ext_in; [reflexivity|].
  intros [k v] Hkv. apply from_lookup in Hkv. cbn.
  apply (summaryOf_session_id _ _ _ _ Hkv).
Qed.

(** X11. [buildSessionSummaries] returns one summary for each session
    that has an entry and none for any other; the [entry_count],
    [note_count] and [handoff_count] of a summary are the numbers of
    entries, notes and handoffs of its session, so every entry with a
    session is counted exactly once. *)
Theorem buildSessionSummaries_counts (es : list jsval) (includeUnsessioned : bool) :
  let result := build es includeUnsessioned in
  List.NoDup (map session_id result)
  /\ (forall id, In id (map session_id result) <->
                 exists e, In e es /\ bucket_of includeUnsessioned e = Some id)
  /\ (forall s, In s result ->
        let mine := session_entries includeUnsessioned (session_id s) es in
        entry_count s = Z.of_nat (length mine)
        /\ note_count s = count_kind "note" mine
        /\ handoff_count s = count_kind "handoff" mine).
Proof.
  cbn zeta. split; [|split].
  - eapply Permutation_NoDup; [symmetry; apply build_ids|].
    apply from_NoDup. constructor.
  - intros id. rewrite (Permutation_In_iff _ _ id (build_ids includeUnsessioned es)).
    rewrite <- session_entries_nonempty. split.
    + intros Hin E. apply in_map_iff in Hin as ([k v] & <- & Hkv).
      apply from_lookup in Hkv. cbn in E.
      rewrite (summaryOf_untouched _ _ _ _ _ E) in Hkv. discriminate.
    + intros Hne.
      pose proof (summaryOf_counts includeUnsessioned id es 0 None) as H.
      destruct (summaryOf includeUnsessioned id es 0 None) as [v|] eqn:Hv;
        [|destruct H; contradiction].
      apply in_map_iff. exists (id, v). split; [reflexivity|]. apply from_lookup, Hv.
  - intros s (v & Hv & ->)%build_In.
    pose proof (summaryOf_counts includeUnsessioned (session_id v) es 0 None) as H.
    rewrite Hv in H. cbn in H. destruct H as (_ & Hec & Hnc & Hhc).
    cbn [with_sorted_agents session_id entry_count note_count handoff_count].
    rewrite Hec, Hnc, Hhc. repeat split; (reflexivity || lia).
Qed.

Lemma latest_time_spec : forall times start,
  match latest_time start times with
  | Some m =>
      (start = Some m \/ In m times)
      /\ Forall (fun t => t <= m) times
      /\ (forall a, start = Some a -> a <= m)
  | None => start = None /\ times = []
  end.
Proof.
  induction times as [|t times IH]; intros start.
  - cbn. destruct start; [split; [left; reflexivity|split; [constructor|intros a [= ->]; lia]]
                         |split; reflexivity].
  - cbn [latest_time fold_left].
    specialize (IH (Some (match start with Some a => Z.max a t | None => t end))).
    unfold latest_time in IH.
    destruct (fold_left _ times _) as [m|]; [|destruct IH; discriminate].
    destruct IH as (Hin & Hall & Hstart).
    specialize (Hstart _ eq_refl).
    split; [|split].
    + destruct Hin as [[= Hm]|Hin]; [|right; right; exact Hin].
      destruct start as [a|]; [|right; left; exact Hm].
      destruct (Z.max_spec a t) as [[_ E]|[_ E]]; rewrite E in Hm;
        [right; left; exact Hm|left; f_equal; exact Hm].
    + constructor; [destruct start; lia|exact Hall].
    + intros a ->. lia.
Qed.

(** The time that [applyEntryToSessionSummary] reads off an entry. *)
Lemma apply_entry_time summary entry fileIndex :
  latest_ts_ms (apply_entry summary entry fileIndex) =
    match entry_time Date_parse entry with
    | Some ms => Some (match latest_ts_ms summary with Some old => Z.max old ms | None => ms end)
    | None => latest_ts_ms summary
    end.
Proof.
  unfold entry_time. cbn [applyEntryToSessionSummary latest_ts_ms].
  destruct entry.["ts"] as [| |b|n|s|l|ps]; cbn; try reflexivity.
  destruct (String.eqb s ""); cbn; [reflexivity|].
  destruct (Date_parse (JStr s)) as [ms|]; [|reflexivity].
  destruct (latest_ts_ms summary) as [old|]; [|reflexivity].
  destruct (Z.leb_spec old ms); f_equal; lia.
Qed.

Hypothesis toISOString_nonempty : forall ms, toISOString ms <> "".

Lemma apply_entry_rendered summary entry fileIndex :
  ts_rendered toISOString summary ->
  ts_rendered toISOString (apply_entry summary entry fileIndex).
Proof.
  unfold ts_rendered. intros H ms.
  unfold applyEntryToSessionSummary. cbn [latest_ts_ms latest_ts].
  destruct (if nonempty _ then Date_parse _ else None) as [t|].
  - destruct (latest_ts_ms summary) as [old|] eqn:Hold.
    + destruct (Z.leb_spec old t); [intros [= <-]; reflexivity|].
      intros [= <-]. apply H. reflexivity.
    + intros [= <-]. reflexivity.
  - intros Hms. rewrite (H ms Hms). cbn [nonempty].
    destruct (String.eqb_spec (toISOString ms) "") as [E|_]; [|reflexivity].
    contradiction (toISOString_nonempty ms E).
Qed.

Lemma omap_filter_cons inc id entry rest :
  in_bucket inc id entry = true ->
  omap (entry_time Date_parse) (session_entries inc id (entry :: rest)) =
    match entry_time Date_parse entry with
    | Some t => t :: omap (entry_time Date_parse) (session_entries inc id rest)
    | None => omap (entry_time Date_parse) (session_entries inc id rest)
    end.
Proof.
  intros Hin. unfold session_entries. cbn [List.filter]. rewrite Hin. reflexivity.
Qed.

Lemma summaryOf_latest inc id : forall es fileIndex cur,
  (forall c, cur = Some c -> ts_rendered toISOString c) ->
  match summaryOf inc id es fileIndex cur with
  | Some s =>
      ts_rendered toISOString s
      /\ latest_ts_ms s =
           latest_time (cur ≫= latest_ts_ms)
             (omap (entry_time Date_parse) (session_entries inc id es))
  | None => True
  end.
Proof.
  induction es as [|entry rest IH]; intros fileIndex cur Hcur.
  - cbn. destruct cur as [c|]; [|exact I]. split; [apply Hcur; reflexivity|reflexivity].
  - cbn [summary_of]. destruct (in_bucket inc id entry) eqn:Hin.
    + rewrite (omap_filter_cons _ _ _ _ Hin).
      set (c' := apply_entry (default (makeSessionSummary id entry.["project"]) cur)
                   entry fileIndex).
      specialize (IH (fileIndex + 1) (Some c')).
      destruct (summaryOf inc id rest (fileIndex + 1) (Some c')) as [s|]; [|exact I].
      destruct IH as [Hr Hms].
      { intros c [= <-]. apply apply_entry_rendered.
        destruct cur as [c|]; [apply Hcur; reflexivity|]. intros ms. discriminate. }
      split; [exact Hr|]. rewrite Hms. cbn [mbind option_bind].
      unfold c'. rewrite apply_entry_time.
      destruct (entry_time Date_parse entry) as [t|]; cbn [latest_time fold_left];
        destruct cur as [c|]; reflexivity.
    + unfold session_entries. cbn [List.filter]. rewrite Hin. apply IH, Hcur.
Qed.

Lemma summaryOf_position inc id : forall es fileIndex cur,
  match summaryOf inc id es fileIndex cur with
  | Some s =>
      (session_entries inc id es = [] /\ cur = Some s)
      \/ exists pre entry post,
           es = (pre ++ entry :: post)%list
           /\ bucket_of inc entry = Some id
           /\ session_entries inc id post = []
           /\ latest_file_index s = fileIndex + Z.of_nat (length pre)
  | None => True
  end.
Proof.
  induction es as [|entry rest IH]; intros fileIndex cur.
  - cbn. destruct cur; [left; split; reflexivity|exact I].
  - cbn [summary_of]. destruct (in_bucket inc id entry) eqn:Hin.
    + set (c' := apply_entry (default (makeSessionSummary id entry.["project"]) cur)
                   entry fileIndex).
      specialize (IH (fileIndex + 1) (Some c')).
      destruct (summaryOf inc id rest (fileIndex + 1) (Some c')) as [s|]; [|exact I].
      right. destruct IH as [[Hnone [= <-]]|(pre & e & post & -> & Hb & Hpost & Hidx)].
      * exists [], entry, rest. repeat split; [|exact Hnone|cbn; lia].
        unfold in_bucket in Hin. apply bool_decide_eq_true_1 in Hin. exact Hin.
      * exists (entry :: pre), e, post. repeat split; [exact Hb|exact Hpost|].
        rewrite Hidx. cbn [length]. lia.
    + specialize (IH (fileIndex + 1) cur).
      destruct (summaryOf inc id rest (fileIndex + 1) cur) as [s|]; [|exact I].
      destruct IH as [[Hnone ->]|(pre & e & post & -> & Hb & Hpost & Hidx)].
      * left. split; [|reflexivity]. unfold session_entries. cbn [List.filter].
        rewrite Hin. exact Hnone.
      * right. exists (entry :: pre), e, post. repeat split; [exact Hb|exact Hpost|].
        rewrite Hidx. cbn [length]. lia.
Qed.

(** X12. In a summary that [buildSessionSummaries] returns,
    [latest_ts_ms] is the largest of the timestamps of the session's
    entries that parse (and [null] when none does), [latest_ts] is then
    its ISO rendering, and [latest_file_index] is the position in the
    list of the last entry of the session. *)
Theorem buildSessionSummaries_latest (es : list jsval) (includeUnsessioned : bool)
    (s : sessionSummary) :
  In s (build es includeUnsessioned) ->
  let mine := session_entries includeUnsessioned (session_id s) es in
  let times := omap (entry_time Date_parse) mine in
  match latest_ts_ms s with
  | Some m => In m times /\ Forall (fun t => t <= m) times
              /\ latest_ts s = Some (toISOString m)
  | None => times = []
  end
  /\ exists pre entry post,
       es = (pre ++ entry :: post)%list
       /\ bucket_of includeUnsessioned entry = Some (session_id s)
       /\ session_entries includeUnsessioned (session_id s) post = []
       /\ latest_file_index s = Z.of_nat (length pre).
Proof.
  intros (v & Hv & ->)%build_In. cbn zeta.
  cbn [with_sorted_agents session_id latest_ts_ms latest_ts latest_file_index].
  split.
  - pose proof (summaryOf_latest includeUnsessioned (session_id v) es 0 None) as H.
    rewrite Hv in H. destruct H as [Hr Hms]; [discriminate|].
    cbn [mbind option_bind] in Hms.
    pose proof (latest_time_spec
                  (omap (entry_time Date_parse)
                     (session_entries includeUnsessioned (session_id v) es)) None) as Hspec.
    rewrite <- Hms in Hspec.
    destruct (latest_ts_ms v) as [m|] eqn:Hm.
    + destruct Hspec as ([[=]|Hin] & Hall & _). repeat split; [exact Hin|exact Hall|].
      apply Hr, Hm.
    + apply Hspec.
  - pose proof (summaryOf_position includeUnsessioned (session_id v) es 0 None) as H.
    rewrite Hv in H. destruct H as [[_ [=]]|(pre & e & post & H)].
    exists pre, e, post. exact H.
Qed.

Lemma pushUniqueString_agent target entry :
  pushUniqueString target entry.["agent"] =
    match entry_agent entry with
    | Some a => if existsb (String.eqb a) target then target else (target ++ [a])%list
    | None => target
    end.
Proof.
  unfold pushUniqueString, entry_agent.
  destruct entry.["agent"] as [| |b|n|x|l|ps]; try reflexivity.
  destruct (String.eqb (trim x) ""); reflexivity.
Qed.

Lemma existsb_eqb_In a (l : list string) : existsb (String.eqb a) l = true <-> In a l.
Proof.
  rewrite existsb_exists. split.
  - intros (x & Hx & ->%String.eqb_eq). exact Hx.
  - intros H. exists a. split; [exact H|apply String.eqb_refl].
Qed.

Lemma pushUniqueString_NoDup target entry :
  List.NoDup target -> List.NoDup (pushUniqueString target entry.["agent"]).
Proof.
  intros H. rewrite pushUniqueString_agent.
  destruct (entry_agent entry) as [a|]; [|exact H].
  destruct (existsb (String.eqb a) target) eqn:E; [exact H|].
  apply List.NoDup_app; [exact H|repeat constructor; intros []|].
  intros x Hx [->|[]]. apply existsb_eqb_In in Hx. congruence.
Qed.

Lemma pushUniqueString_In target entry a :
  In a (pushUniqueString target entry.["agent"]) <-> In a target \/ entry_agent entry = Some a.
Proof.
  rewrite pushUniqueString_agent.
  destruct (entry_agent entry) as [a'|]; [|split; [tauto|intros [H|[=]]; exact H]].
  destruct (existsb (String.eqb a') target) eqn:E.
  - apply existsb_eqb_In in E. split; [tauto|]. intros [H|[= ->]]; assumption.
  - rewrite in_app_iff. cbn. split.
    + intros [H|[->|[]]]; [left; exact H|right; reflexivity].
    + intros [H|[= ->]]; [left; exact H|right; left; reflexivity].
Qed.

Lemma summaryOf_agents inc id : forall es fileIndex cur,
  (forall c, cur = Some c -> List.NoDup (agents c)) ->
  match summaryOf inc id es fileIndex cur with
  | Some s =>
      List.NoDup (agents s)
      /\ forall a, In a (agents s) <->
           In a (from_option agents [] cur)
           \/ In a (omap entry_agent (session_entries inc id es))
  | None => True
  end.
Proof.
  induction es as [|entry rest IH]; intros fileIndex cur Hcur.
  - cbn. destruct cur as [c|]; [|exact I]. split; [apply Hcur; reflexivity|].
    intros a. cbn. tauto.
  - cbn [summary_of]. unfold session_entries. cbn [List.filter].
    fold (session_entries inc id rest).
    destruct (in_bucket inc id entry) eqn:Hin; [|apply IH, Hcur].
    set (c' := apply_entry (default (makeSessionSummary id entry.["project"]) cur)
                 entry fileIndex).
    specialize (IH (fileIndex + 1) (Some c')).
    destruct (summaryOf inc id rest (fileIndex + 1) (Some c')) as [s|]; [|exact I].
    destruct IH as [Hnd Hmem].
    { intros c [= <-]. unfold c'. cbn [applyEntryToSessionSummary agents].
      apply pushUniqueString_NoDup.
      destruct cur as [c|]; [apply Hcur; reflexivity|constructor]. }
    split; [exact Hnd|]. intros a. rewrite Hmem.
    cbn [from_option]. unfold c' at 1. cbn [applyEntryToSessionSummary agents].
    rewrite pushUniqueString_In. cbn [omap list_omap].
    replace (agents (default (makeSessionSummary id entry.["project"]) cur))
      with (from_option agents [] cur) by (destruct cur; reflexivity).
    destruct (entry_agent entry) as [a'|]; cbn [In]; [|intuition congruence].
    split; [intros [[H|[= ->]]|H]; auto|intros [H|[->|H]]; auto].
Qed.

(** X13. In a summary that [buildSessionSummaries] returns, [agents] lists
    each agent named by an entry of the session once, trimmed, sorted by
    code units, and nobody else. *)
Theorem buildSessionSummaries_agents (es : list jsval) (includeUnsessioned : bool)
    (s : sessionSummary) :
  In s (build es includeUnsessioned) ->
  let mine := session_entries includeUnsessioned (session_id s) es in
  List.NoDup (agents s)
  /\ StronglySorted (fun a b => compareStrings a b <= 0) (agents s)
  /\ forall a, In a (agents s) <->
       exists entry x, In entry mine /\ entry.["agent"] = JStr x /\ trim x = a /\ a <> "".
Proof.
  intros (v & Hv & ->)%build_In. cbn zeta.
  cbn [with_sorted_agents session_id agents]. unfold sort_strings.
  pose proof (array_sort_Permutation compareStrings (agents v)) as Hperm.
  pose proof (summaryOf_agents includeUnsessioned (session_id v) es 0 None) as H.
  rewrite Hv in H. destruct H as [Hnd Hmem]; [discriminate|].
  split; [|split].
  - eapply Permutation_NoDup; [symmetry; exact Hperm|exact Hnd].
  - apply array_sort_sorted.
    + exact demo_localeCompare_total.
    + exact demo_localeCompare_trans.
  - intros a. rewrite (Permutation_In_iff _ _ a Hperm), Hmem. cbn [from_option In].
    rewrite In_omap. split.
    + intros [[]|(entry & Hin & Ha)]. unfold entry_agent in Ha.
      destruct entry.["agent"] as [| |b|n|x|l|ps] eqn:Hx; try discriminate.
      destruct (String.eqb_spec (trim x) "") as [|Hne]; [discriminate|].
      injection Ha as <-. exists entry, x. repeat split; assumption.
    + intros (entry & x & Hin & Hx & <- & Hne). right. exists entry. split; [exact Hin|].
      unfold entry_agent. rewrite Hx.
      destruct (String.eqb_spec (trim x) ""); [contradiction|reflexivity].
Qed.
End SummaryFacts.

Example buildSessionSummaries_demo :
  map (fun s => (session_id s, entry_count s, latest_file_index s, agents s)) demo_summaries
  = [("s2", 1, 2, ["codex"]); ("s1", 2, 1, ["claude"; "codex"])].
Proof. vm_compute. reflexivity. Qed.

Lemma demo_iso_nonempty ms : demo_iso ms <> "".
Proof. discriminate. Qed.

Lemma demo_s1_In : In demo_s1 demo_summaries.
Proof. vm_compute. right. left. reflexivity. Qed.

Lemma buildSessionSummaries_latest_witness :
  let mine := session_entries false (session_id demo_s1) demo_log in
  let times := omap (entry_time demo_Date_parse) mine in
  match latest_ts_ms demo_s1 with
  | Some m => In m times /\ Forall (fun t => t <= m) times
              /\ latest_ts demo_s1 = Some (demo_iso m)
  | None => times = []
  end
  /\ exists pre entry post,
       demo_log = (pre ++ entry :: post)%list
       /\ bucket_of false entry = Some (session_id demo_s1)
       /\ session_entries false (session_id demo_s1) post = []
       /\ latest_file_index demo_s1 = Z.of_nat (length pre).
Proof.
  apply (buildSessionSummaries_latest demo_Date_parse demo_iso demo_sanitize
           demo_localeCompare demo_iso_nonempty demo_log false demo_s1).
  exact demo_s1_In.
Defined.

Lemma buildSessionSummaries_agents_witness :
  let mine := session_entries false (session_id demo_s1) demo_log in
  List.NoDup (agents demo_s1)
  /\ StronglySorted (fun a b => compareStrings a b <= 0) (agents demo_s1)
  /\ forall a, In a (agents demo_s1) <->
       exists entry x, In entry mine /\ entry.["agent"] = JStr x /\ trim x = a /\ a <> "".
Proof.
  apply (buildSessionSummaries_agents demo_Date_parse demo_iso demo_sanitize
           demo_localeCompare demo_log false demo_s1).
  exact demo_s1_In.
Defined.

(** ** Resuming a session *)

Lemma filter_all {A} (f : A -> bool) (l : list A) :
  Forall (fun x => f x = true) l -> List.filter f l = l.
Proof.
  induction 1 as [|x l Hx _ IH]; [reflexivity|]. cbn. rewrite Hx, IH. reflexivity.
Qed.

(** The last element of a filtered list, located in the list itself. *)
Lemma filter_last {A} (f : A -> bool) : forall (l : list A),
  match last (List.filter f l) with
  | Some x => f x = true /\ exists before after,
                l = (before ++ x :: after)%list /\ List.filter f after = []
  | None => List.filter f l = []
  end.
Proof.
  induction l as [|y l IH]; [reflexivity|].
  cbn [List.filter]. destruct (f y) eqn:Hy.
  - destruct (List.filter f l) as [|z zs] eqn:Hl.
    + cbn. split; [exact Hy|]. exists [], l. split; [reflexivity|exact Hl].
    + change (last (y :: z :: zs)) with (last (z :: zs)).
      destruct (last (z :: zs)) as [x|]; [|discriminate].
      destruct IH as (Hx & before & after & -> & Hafter).
      split; [exact Hx|]. exists (y :: before), after. split; [reflexivity|exact Hafter].
  - destruct (last (List.filter f l)) as [x|]; [|exact IH].
    destruct IH as (Hx & before & after & -> & Hafter).
    split; [exact Hx|]. exists (y :: before), after. split; [reflexivity|exact Hafter].
Qed.

(** [selectRecent] keeps the end of the list: as many entries as the
    limit allows, none when the limit is not positive. *)
Lemma selectRecent_suffix {A} (l : list A) (limit : Z) :
  exists older, l = (older ++ selectRecent l limit)%list
    /\ Z.of_nat (length (selectRecent l limit)) = Z.min (Z.of_nat (length l)) (Z.max 0 limit).
Proof.
  unfold selectRecent. destruct (Z.leb_spec (Z.of_nat (length l)) limit).
  - exists []. split; [reflexivity|lia].
  - exists (take (Z.to_nat (Z.of_nat (length l) - limit)) l). split.
    + symmetry. apply take_drop.
    + rewrite length_drop. lia.
Qed.

Section ResumeFacts.
Variable Date_parse : jsval -> option Z.
Variable toISOString : Z -> string.
Variable sanitizeDisplayText : string -> string.
Variable localeCompare : string -> string -> Z.

Local Abbreviation summaryOf := (summary_of Date_parse toISOString sanitizeDisplayText).
Local Abbreviation build :=
  (buildSessionSummaries Date_parse toISOString sanitizeDisplayText localeCompare).
Local Abbreviation sessionEntries := (getSessionEntries Date_parse).
Local Abbreviation resume :=
  (buildResumeSessionData Date_parse toISOString sanitizeDisplayText localeCompare).

(** Entries that all belong to one session make one summary, which counts
    them all. *)
Lemma build_single inc (mine : list jsval) (id : string) :
  mine <> [] ->
  Forall (fun e => bucket_of inc e = Some id) mine ->
  exists s, build mine inc = [s] /\ session_id s = id
            /\ entry_count s = Z.of_nat (length mine).
Proof.
  intros Hne Hall.
  assert (session_entries inc id mine = mine) as Hmine.
  { apply filter_all. eapply List.Forall_impl; [|exact Hall]. intros e He.
    unfold in_bucket. apply bool_decide_eq_true_2, He. }
  assert (forall x, In x (map session_id (build mine inc)) -> x = id) as Hsame.
  { intros x Hx.
    apply (Permutation_In_iff _ _ x
             (build_ids Date_parse toISOString sanitizeDisplayText localeCompare inc mine))
      in Hx.
    apply in_map_iff in Hx as ([k v] & <- & Hkv). cbn.
    apply from_lookup in Hkv.
    destruct (session_entries inc k mine) as [|e rest] eqn:Hk.
    - rewrite (summaryOf_untouched _ _ _ _ _ _ _ _ Hk) in Hkv. discriminate.
    - assert (In e (session_entries inc k mine)) as He by (rewrite Hk; left; reflexivity).
      apply filter_In in He as [He Hb]. unfold in_bucket in Hb.
      apply bool_decide_eq_true_1 in Hb.
      rewrite List.Forall_forall in Hall. rewrite (Hall e He) in Hb. congruence. }
  assert (List.NoDup (map session_id (build mine inc))) as Hnd.
  { eapply Permutation_NoDup; [symmetry; apply build_ids|]. apply from_NoDup. constructor. }
  pose proof (summaryOf_counts Date_parse toISOString sanitizeDisplayText inc id mine 0 None)
    as Hcount.
  destruct (summaryOf inc id mine 0 None) as [v|] eqn:Hv.
  2:{ destruct Hcount as [_ E]. rewrite Hmine in E. contradiction. }
  assert (In (with_sorted_agents v) (build mine inc)) as Hin.
  { apply build_In. exists v. split; [|reflexivity].
    rewrite (summaryOf_session_id _ _ _ _ _ _ _ Hv). exact Hv. }
  destruct Hcount as (Hid & Hec & _). cbn in Hid, Hec. rewrite Hmine in Hec.
  destruct (build mine inc) as [|s [|s' rest]] eqn:Hb.
  - destruct Hin.
  - destruct Hin as [Hs|[]]. exists s. subst s. repeat split; assumption.
  - exfalso. cbn [map] in Hsame, Hnd.
    rewrite (Hsame (session_id s)), (Hsame (session_id s')) in Hnd
      by (cbn; auto).
    apply List.NoDup_cons_iff in Hnd as [Hnotin _]. apply Hnotin. left. reflexivity.
Qed.

Lemma hasSessionId_bucket entry :
  hasSessionId entry = false -> bucket_of true entry = Some NO_SESSION_BUCKET.
Proof.
  unfold hasSessionId, bucket_of.
  destruct entry.["session_id"] as [| |b|n|s|l|ps]; try reflexivity.
  destruct (String.eqb_spec (trim s) "") as [|Hne]; [reflexivity|].
  intros H. exfalso. apply Z.ltb_ge in H. unfold strlen in H.
  destruct (trim s); [contradiction|cbn in H; lia].
Qed.

Lemma sessionEntries_In es project id entry :
  id <> "" ->
  In entry (sessionEntries es project id) <-> In entry es /\ resume_matches project id entry.
Proof.
  intros Hid. unfold getSessionEntries, resume_matches.
  destruct (String.eqb id NO_SESSION_BUCKET).
  - rewrite filter_In.
    destruct (String.eqb_spec project "") as [->|Hp]; cbn [negb].
    + cbn [andb]. rewrite negb_true_iff. intuition congruence.
    + rewrite andb_true_iff, negb_true_iff, is_str_eq. intuition congruence.
  - unfold filterEntries. rewrite filter_In.
    unfold entryMatches, field_ok, sinceMs_of. cbn [f_project f_agent f_session_id f_kind f_since].
    destruct (String.eqb_spec id ""); [contradiction|]. cbn [negb].
    destruct (String.eqb_spec project "") as [->|Hp]; cbn [negb].
    + destruct (is_str entry.["session_id"] id) eqn:E; cbn.
      * apply is_str_eq in E. intuition congruence.
      * split; [intros [_ [=]]|]. intros (_ & _ & E'). apply is_str_eq in E'. congruence.
    + destruct (is_str entry.["project"] project) eqn:E1; cbn.
      * apply is_str_eq in E1.
        destruct (is_str entry.["session_id"] id) eqn:E; cbn.
        -- apply is_str_eq in E. intuition congruence.
        -- split; [intros [_ [=]]|]. intros (_ & _ & E'). apply is_str_eq in E'. congruence.
      * split; [intros [_ [=]]|]. intros (_ & E' & _). specialize (E' Hp).
        apply is_str_eq in E'. congruence.
Qed.

(** X14. For a normalized session id, [buildResumeSessionData] looks at
    the entries of the project with exactly that session id (for the
    bucket of entries without session: those that have none). It answers
    [null] exactly when there is none. Otherwise [entries] is the end of
    that list, cut to [limit]; [latest_handoff] is the last handoff in it,
    or [null] when it has none; and [summary] is the summary of the
    session, whose [entry_count] counts the whole list, not only the part
    shown. *)
Theorem buildResumeSessionData_session (es : list jsval) (parseErrors : list parseError)
    (project id : string) (limit : Z) :
  normalized_id id ->
  let mine := sessionEntries es project id in
  (forall entry, In entry mine <-> In entry es /\ resume_matches project id entry)
  /\ match resume es parseErrors project id limit with
     | None => mine = []
     | Some data =>
         mine <> []
         /\ (exists older, mine = (older ++ rd_entries data)%list
               /\ Z.of_nat (length (rd_entries data))
                  = Z.min (Z.of_nat (length mine)) (Z.max 0 limit))
         /\ match rd_latest_handoff data with
            | Some h => is_str h.["kind"] "handoff" = true
                        /\ exists before after, mine = (before ++ h :: after)%list
                             /\ Forall (fun e => is_str e.["kind"] "handoff" = false) after
            | None => Forall (fun e => is_str e.["kind"] "handoff" = false) mine
            end
         /\ exists s, rd_summary data = Some s /\ session_id s = id
                      /\ entry_count s = Z.of_nat (length mine)
     end.
Proof.
  intros [Hid Htrim]. cbn zeta.
  split; [intros entry; apply sessionEntries_In, Hid|].
  unfold buildResumeSessionData.
  set (mine := sessionEntries es project id).
  assert (forall l : list jsval,
            List.filter (fun e => is_str e.["kind"] "handoff") l = [] ->
            Forall (fun e => is_str e.["kind"] "handoff" = false) l) as Hnone.
  { intros l Hl. apply List.Forall_forall. intros e He.
    destruct (is_str e.["kind"] "handoff") eqn:E; [|reflexivity].
    assert (In e (List.filter (fun e => is_str e.["kind"] "handoff") l)) as Hin
      by (apply filter_In; split; assumption).
    rewrite Hl in Hin. destruct Hin. }
  destruct (Nat.eqb_spec (length mine) 0) as [Hlen|Hlen];
    [destruct mine; [reflexivity|discriminate Hlen]|].
  assert (mine <> []) as Hmine by (intros E; rewrite E in Hlen; contradiction).
  cbn [rd_entries rd_latest_handoff rd_summary].
  split; [exact Hmine|].
  split; [apply selectRecent_suffix|]. split.
  - pose proof (filter_last (fun e => is_str e.["kind"] "handoff") mine) as Hlast.
    destruct (last _) as [h|].
    + destruct Hlast as (Hh & before & after & Hsplit & Hafter).
      split; [exact Hh|]. exists before, after. split; [exact Hsplit|apply Hnone, Hafter].
    + apply Hnone, Hlast.
  - destruct (build_single (String.eqb id NO_SESSION_BUCKET) mine id) as (s & Hs & Hsid & Hec).
    + exact Hmine.
    + apply List.Forall_forall. intros e He.
      apply sessionEntries_In in He as [_ [_ Hm]]; [|exact Hid].
      destruct (String.eqb_spec id NO_SESSION_BUCKET) as [->|Hne].
      * apply hasSessionId_bucket, Hm.
      * unfold bucket_of. rewrite Hm, Htrim.
        destruct (String.eqb_spec id ""); [contradiction|reflexivity].
    + exists s. rewrite Hs. repeat split; assumption.
Qed.
End ResumeFacts.

Lemma buildResumeSessionData_session_witness :
  let mine := getSessionEntries demo_Date_parse demo_log "shared" "s1" in
  (forall entry, In entry mine <-> In entry demo_log /\ resume_matches "shared" "s1" entry)
  /\ match buildResumeSessionData demo_Date_parse demo_iso demo_sanitize demo_localeCompare
             demo_log [] "shared" "s1" 1 with
     | None => mine = []
     | Some data =>
         mine <> []
         /\ (exists older, mine = (older ++ rd_entries data)%list
               /\ Z.of_nat (length (rd_entries data))
                  = Z.min (Z.of_nat (length mine)) (Z.max 0 1))
         /\ match rd_latest_handoff data with
            | Some h => is_str h.["kind"] "handoff" = true
                        /\ exists before after, mine = (before ++ h :: after)%list
                             /\ Forall (fun e => is_str e.["kind"] "handoff" = false) after
            | None => Forall (fun e => is_str e.["kind"] "handoff" = false) mine
            end
         /\ exists s, rd_summary data = Some s /\ session_id s = "s1"
                      /\ entry_count s = Z.of_nat (length mine)
     end.
Proof.
  apply (buildResumeSessionData_session demo_Date_parse demo_iso demo_sanitize
           demo_localeCompare demo_log [] "shared" "s1" 1).
  split; [discriminate|reflexivity].
Defined.

Example buildResumeSessionData_demo :
  (fun data => (length (rd_entries data), entry_count <$> rd_summary data))
    <$> buildResumeSessionData demo_Date_parse demo_iso demo_sanitize demo_localeCompare
          demo_log [] "shared" "s1" 1
  = Some (1%nat, Some 2).
Proof. vm_compute. reflexivity. Qed.

(** ** Lock discipline *)

Lemma watched_weaken {St R} (next : St -> event -> St) (allowed : St -> event -> Prop)
    (t : io R) : forall (s : St) (Post Post' : St -> R -> Prop),
  (forall s' r, Post s' r -> Post' s' r) ->
  watched next allowed s t Post -> watched next allowed s t Post'.
Proof.
  induction t as [r| |X q k IH]; intros s Post Post' Himp; cbn.
  - apply Himp.
  - trivial.
  - intros H x. destruct (H x) as [Ha Hk]. split; [exact Ha|]. eapply IH; eassumption.
Qed.

Lemma watched_bind {St A B} (next : St -> event -> St) (allowed : St -> event -> Prop)
    (t : io A) (f : A -> io B) : forall (s : St) (Post : St -> B -> Prop),
  watched next allowed s t (fun s' a => watched next allowed s' (f a) Post) ->
  watched next allowed s (io_bind t f) Post.
Proof.
  induction t as [r| |X q k IH]; intros s Post; cbn; [trivial..|].
  intros H x. destruct (H x) as [Ha Hk]. split; [exact Ha|]. apply IH, Hk.
Qed.

(** When the watch lets everything pass, only the state it ends in
    matters, and of that state what every call preserves. *)
Lemma watched_anything {St A B} (next : St -> event -> St) (Inv : St -> Prop)
    (t : io A) (f : A -> io B) :
  (forall s e, Inv s -> Inv (next s e)) ->
  forall (s : St) (Post : St -> B -> Prop),
  Inv s ->
  (forall s' a, Inv s' -> watched next anything s' (f a) Post) ->
  watched next anything s (io_bind t f) Post.
Proof.
  intros Hnext. induction t as [r| |X q k IH]; intros s Post Hs Hf; cbn;
    [apply Hf, Hs|trivial|].
  intros x. split; [exact I|]. apply IH; [apply Hnext, Hs|exact Hf].
Qed.

(** Once taken, the lock is held or released. *)
Lemma lock_next_taken LOCK phase e : phase <> NotTaken -> lock_next LOCK phase e <> NotTaken.
Proof.
  intros H. destruct e as [X q x]. destruct q; cbn; try exact H.
  - destruct (String.eqb path LOCK); [|exact H]. destruct phase; congruence.
  - destruct (String.eqb path LOCK); [|exact H]. destruct x; [discriminate|exact H].
Qed.

Ltac watch_simpl :=
  unfold appendEntry, appendEntry_locked, withWriteLock, lock_turn, lock_catch,
    maybeBreakStaleLock, sleep, ensureContextDirectory, statContextFile,
    tryUpdateSessionIndexOnAppend, loadSessionIndex, persistSessionIndex,
    writeSessionIndexFile, write_through, readSessionIndexFile,
    invalidateSessionIndexCache, set_sessionIndexCache, invalidateContextCache,
    set_contextCache, get_proc, try_catch, try_finally, await, await_ignore, perform,
    throw, lift, spin, mbind, M_bind, mret, M_ret in *;
  cbn [watched io_bind fst snd withWriteLock_loop lock_next append_under_lock anything].

Ltac watch_step :=
  first
    [ progress watch_simpl
    | match goal with
      | |- watched _ _ _ (match ?x with _ => _ end) _ => destruct x eqn:?
      | |- watched _ _ _ (if ?b then _ else _) _ => destruct b eqn:?
      | |- watched _ _ _ (let '(_, _) := ?x in _) _ => destruct x eqn:?
      | |- forall x : result _, _ => intros [?|?]
      | |- forall x, _ => intros ?
      | |- True /\ _ => split; [exact I|]
      | |- anything _ _ /\ _ => split; [exact I|]
      | |- (_ = _ /\ _ = _ /\ _ = _) /\ _ => split; [repeat split|]
      | |- context [String.eqb ?a ?a] => rewrite (String.eqb_refl a)
      | |- context [if ?b then _ else _] => destruct b eqn:?
      | |- context [match ?x with Some _ => _ | None => _ end] => destruct x eqn:?
      | |- context [match ?x with Ok _ => _ | Throw _ => _ end] => destruct x eqn:?
      | |- context [let '(_, _) := ?x in _] => destruct x eqn:?
      end ].

Ltac watch_done :=
  try first
    [ exact I
    | reflexivity
    | solve [auto]
    | match goal with
      | H : exists _, Throw _ = Ok _ |- _ => destruct H as [? H]; discriminate H
      end
    | intros [? [=]]
    | intros _; reflexivity ].

Section LockDiscipline.
Variable CONTEXT_FILE CONTEXT_DIR DEFAULT_PROJECT : string.
Variable JSON_stringify : jsval -> string.
Variable Date_parse : jsval -> option Z.
Variable toISOString : Z -> string.
Variable sanitizeDisplayText : string -> string.
Variable encodeSessionIndex : sessionIndex -> string.
Variable decodeSessionIndex : string -> option sessionIndex.
Variable lockMetadata : Z -> string -> string -> string.

Local Abbreviation lock := (LOCK_FILE CONTEXT_FILE).
Local Abbreviation loop := (withWriteLock_loop CONTEXT_FILE toISOString lockMetadata).
Local Abbreviation locked :=
  (appendEntry_locked CONTEXT_FILE CONTEXT_DIR DEFAULT_PROJECT Date_parse toISOString
     sanitizeDisplayText encodeSessionIndex decodeSessionIndex).
Local Abbreviation append :=
  (appendEntry CONTEXT_FILE CONTEXT_DIR DEFAULT_PROJECT JSON_stringify Date_parse toISOString
     sanitizeDisplayText encodeSessionIndex decodeSessionIndex lockMetadata).

(** The critical section of [appendEntry], entered with the lock held,
    appends the line and touches neither the lock nor the log again. *)
Lemma locked_watched (entry : jsval) (line : string) (p : proc) :
  watched (lock_next lock) (append_under_lock CONTEXT_FILE line) Held
    (locked entry line p) (fun phase _ => phase = Held).
Proof.
  repeat watch_step; auto.
Qed.

(** The loop of [withWriteLock] around a critical section that keeps the
    lock: whatever state the lock is in when a turn starts, the critical
    section is entered with the lock held, and left with the lock
    released. *)
Lemma loop_watched {A} (fn : M A) (line : string) (start : Z) :
  (forall p, watched (lock_next lock) (append_under_lock CONTEXT_FILE line) Held (fn p)
               (fun phase _ => phase = Held)) ->
  forall (fuel : nat) (phase : lockPhase) (p : proc),
  watched (lock_next lock) (append_under_lock CONTEXT_FILE line) phase
    (loop fuel start fn p) (fun phase' rp => (exists a, rp.1 = Ok a) -> phase' = Released).
Proof.
  intros Hfn. induction fuel as [|fuel IH]; intros phase p; [exact I|].
  cbn [withWriteLock_loop]. unfold lock_turn, perform, mbind, M_bind. cbn [watched io_bind].
  intros [h|err]; (split; [exact I|]); cbn [lock_next fst snd]; rewrite String.eqb_refl.
  - unfold try_catch. apply watched_bind.
    unfold await, mbind, M_bind. cbn [watched io_bind].
    intros pid. split; [exact I|]. intros host. split; [exact I|].
    intros created. split; [exact I|]. intros [[]|werr]; (split; [exact I|]);
      cbn [lock_next fst snd io_bind watched].
    + unfold try_finally. apply watched_bind.
      eapply watched_weaken; [|apply Hfn]. cbn beta. intros phase' rp ->.
      repeat watch_step; watch_done.
    + repeat watch_step; watch_done.
  - repeat watch_step; watch_done.
Qed.

Lemma append_watched (fuel : nat) (entry : jsval) (p : proc) (phase : lockPhase) :
  watched (lock_next lock) (append_under_lock CONTEXT_FILE (JSON_stringify entry ++ NL))
    phase (append fuel entry p)
    (fun phase' rp => (exists a, rp.1 = Ok a) ->
                      phase' = Released /\ contextCache rp.2 = emptyContextCache).
Proof.
  unfold appendEntry, ensureContextDirectory, withWriteLock, await, perform, mbind, M_bind.
  cbn [watched io_bind].
  intros [[]|err]; (split; [exact I|]); cbn [lock_next fst snd io_bind watched];
    [|intros [? [=]]].
  intros start. split; [exact I|]. cbn [lock_next].
  apply watched_bind. eapply watched_weaken; [|apply loop_watched, locked_watched].
  cbn beta. intros phase' [[[]|e] p'] Hphase; cbn [fst snd watched io_bind].
  - unfold invalidateContextCache, set_contextCache. cbn. intros _.
    split; [apply Hphase; eauto|reflexivity].
  - intros [? [=]].
Qed.


Lemma loop_releases {A} (fn : M A) (start : Z) :
  forall (fuel : nat) (phase : lockPhase) (p : proc),
  watched (lock_next lock) anything phase (loop fuel start fn p)
    (fun phase' rp => (exists a, rp.1 = Ok a) -> phase' = Released).
Proof.
  induction fuel as [|fuel IH]; intros phase p; [exact I|].
  cbn [withWriteLock_loop]. unfold lock_turn, perform, mbind, M_bind. cbn [watched io_bind].
  intros [h|err]; (split; [exact I|]); cbn [lock_next fst snd]; rewrite String.eqb_refl.
  - unfold try_catch. apply watched_bind.
    unfold await, mbind, M_bind. cbn [watched io_bind].
    intros pid. split; [exact I|]. intros host. split; [exact I|].
    intros created. split; [exact I|]. intros [[]|werr]; (split; [exact I|]);
      cbn [lock_next fst snd io_bind watched].
    + unfold try_finally.
      apply (watched_anything _ (fun s => s <> NotTaken));
        [intros s e; apply lock_next_taken|discriminate|].
      intros phase' rp Hphase.
      repeat watch_step; watch_done; destruct phase'; watch_done; contradiction.
    + repeat watch_step; watch_done.
  - repeat watch_step; watch_done.
Qed.


(** X17. When the marker has been created but writing its content fails
    with an error other than EEXIST, [withWriteLock] closes the handle
    and throws that error: the critical section is not run and the marker
    is not deleted, so it stays behind. *)
Theorem withWriteLock_leaves_marker {A} (fuel : nat) (fn : M A) (p : proc)
    (start created pid : Z) (host : string) (h : handle) (e : exn) (closed : result unit) :
  has_code e "EEXIST" = false ->
  exec (withWriteLock CONTEXT_FILE toISOString lockMetadata (S fuel) fn p)
    [Ev DateNow start; Ev (FsOpenWx lock) (Ok h); Ev ProcessPid pid; Ev OsHostname host;
     Ev DateNow created;
     Ev (HandleWriteFile h (lockMetadata pid host (toISOString created))) (Throw e);
     Ev (HandleClose h) closed]
    (Throw e, p).
Proof.
  intros Hcode. repeat exec_lock_step. split; reflexivity.
Qed.
End LockDiscipline.

Lemma withWriteLock_leaves_marker_witness :
  exec (withWriteLock "ctx.jsonl" demo_toISOString demo_lockMetadata 1 (mret ()) proc0)
    [Ev DateNow 0; Ev (FsOpenWx "ctx.jsonl.lock") (Ok 3); Ev ProcessPid 1;
     Ev OsHostname "host"; Ev DateNow 0;
     Ev (HandleWriteFile 3 "host") (Throw (SystemError "ENOSPC"));
     Ev (HandleClose 3) (Ok ())]
    (Throw (SystemError "ENOSPC"), proc0).
Proof.
  apply (withWriteLock_leaves_marker "ctx.jsonl" demo_toISOString demo_lockMetadata 0
           (mret ()) proc0 0 0 1 "host" 3 (SystemError "ENOSPC") (Ok ())).
  reflexivity.
Defined.

(** ** The active-session pointer *)

Lemma stripEnd_snoc class c : forall s,
  class c = true -> stripEnd class (s ++ String c "") = stripEnd class s.
Proof.
  intros s Hc. induction s as [|x s IH].
  - rewrite append_nil. cbn. rewrite Hc. reflexivity.
  - rewrite append_cons, !stripEnd_cons, IH. reflexivity.
Qed.

(** A trimmed text followed by a line feed trims back to itself. *)
Lemma trim_line s : trim s <> "" -> trim (trim s ++ NL) = trim s.
Proof.
  intros Hne. unfold trim at 1.
  assert (trimStart (trim s ++ NL) = trim s ++ NL)%string as ->.
  { apply trimStart_fixed. pose proof (trim_first s) as H.
    destruct (trim s); [contradiction|exact H]. }
  rewrite trimEnd_stripEnd. unfold NL. rewrite stripEnd_snoc by reflexivity.
  apply stripEnd_fixed, trim_last.
Qed.

Section PointerFacts.
Variable ACTIVE_SESSION_FILE ACTIVE_SESSION_DIR : string.

Local Abbreviation writeActive := (writeActiveSessionId ACTIVE_SESSION_FILE ACTIVE_SESSION_DIR).
Local Abbreviation readActive := (readActiveSessionId ACTIVE_SESSION_FILE).

(** X18. What [writeActiveSessionId] writes, [readActiveSessionId] reads
    back. A call of [writeActiveSessionId] that returns normally was given
    an id that is not blank, has made the directory and has written one
    file, the pointer; and when the environment variable gives nothing,
    [readActiveSessionId] answers, from a pointer file with that content,
    the trimmed id. *)
Theorem active_session_round_trip (sessionId : string) (p p' : proc) (tr : list event) :
  exec (writeActive sessionId p) tr (Ok (), p') ->
  trim sessionId <> ""
  /\ exists data,
       tr = [Ev (FsMkdir ACTIVE_SESSION_DIR) (Ok ());
             Ev (FsWriteFile ACTIVE_SESSION_FILE data) (Ok ())]
       /\ forall (env : option string) (q : proc),
            gives_nothing (of_opt env) ->
            exec (readActive q)
              [Ev (GetEnv ENV_ACTIVE_SESSION) env; Ev (FsReadFile ACTIVE_SESSION_FILE) (Ok data)]
              (Ok (Some (trim sessionId)), q).
Proof.
  unfold writeActiveSessionId, lift, await, throw, mbind, M_bind.
  cbn [normalizeSessionId io_bind fst snd].
  destruct (String.eqb_spec (trim sessionId) "") as [|Hne]; cbn [exec io_bind fst snd];
    [intros [_ [=]]|].
  intros (made & tr1 & -> & H). destruct made as [[]|e]; cbn [exec io_bind fst snd] in H;
    [|destruct H as [_ [=]]].
  destruct H as (written & tr2 & -> & H).
  destruct written as [[]|e]; cbn [exec] in H; destruct H as [-> [=]].
  split; [exact Hne|]. eexists. split; [reflexivity|].
  intros env q Henv.
  unfold readActiveSessionId, ENV_ACTIVE_SESSION, perform, lift, try_catch, await, mbind, M_bind.
  cbn [exec io_bind]. eexists _, _. split; [reflexivity|]. cbn [fst snd].
  assert (normalizeSessionId (of_opt env) = Ok None) as ->.
  { destruct Henv as [E|[E|(s & E & Hs)]]; destruct env as [v|]; cbn in E |- *;
      try discriminate; try reflexivity.
    injection E as ->. rewrite Hs. reflexivity. }
  unfold mret, M_ret, throw.
  cbn [fst snd nonempty io_bind exec]. eexists _, _. split; [reflexivity|].
  cbn [fst snd io_bind exec normalizeSessionId]. rewrite (trim_line _ Hne).
  destruct (String.eqb_spec (trim sessionId) ""); [contradiction|].
  split; reflexivity.
Qed.
End PointerFacts.

Lemma active_session_round_trip_witness :
  trim " s1 " <> ""
  /\ exists data,
       [Ev (FsMkdir "dir") (Ok ()); Ev (FsWriteFile "active-session.txt" ("s1" ++ NL)) (Ok ())]
       = [Ev (FsMkdir "dir") (Ok ()); Ev (FsWriteFile "active-session.txt" data) (Ok ())]
       /\ forall (env : option string) (q : proc),
            gives_nothing (of_opt env) ->
            exec (readActiveSessionId "active-session.txt" q)
              [Ev (GetEnv ENV_ACTIVE_SESSION) env;
               Ev (FsReadFile "active-session.txt") (Ok data)]
              (Ok (Some (trim " s1 ")), q).
Proof.
  apply (active_session_round_trip "active-session.txt" "dir" " s1 " proc0 proc0).
  cbn. eexists _, _. split; [reflexivity|]. cbn. eexists _, _. split; [reflexivity|].
  cbn. split; reflexivity.
Defined.

(** ** Tools *)

Lemma watched_allowed {St R} (next : St -> event -> St) (allowed allowed' : St -> event -> Prop)
    (t : io R) : forall (s : St) (Post : St -> R -> Prop),
  (forall s' e, allowed s' e -> allowed' s' e) ->
  watched next allowed s t Post -> watched next allowed' s t Post.
Proof.
  induction t as [r| |X q k IH]; intros s Post Himp; cbn; [trivial..|].
  intros H x. destruct (H x) as [Ha Hk]. split; [apply Himp, Ha|]. apply IH; assumption.
Qed.

Lemma normalizeSessionId_resolved v r : normalizeSessionId v = Ok r -> resolved_id r.
Proof.
  destruct v as [| |b|n|s|l|ps]; try discriminate; cbn; try (intros [= <-]; left; reflexivity).
  destruct (String.eqb_spec (trim s) "") as [|Hne]; intros [= <-]; [left; reflexivity|].
  right. eexists. split; [reflexivity|]. split; [exact Hne|apply trim_idempotent].
Qed.


Lemma with_prop_same o k v : (with_prop o k v).[k] = v.
Proof.
  destruct o; cbn; rewrite String.eqb_refl; reflexivity.
Qed.

Lemma with_prop_other o k v k' : k' <> k -> (with_prop o k v).[k'] = o.[k'].
Proof.
  intros H. destruct o; cbn; destruct (String.eqb_spec k' k); try contradiction; reflexivity.
Qed.

Lemma strlen_0 s : (strlen s =? 0) = String.eqb s "".
Proof.
  destruct s; reflexivity.
Qed.

(** A required, trimmed string argument. *)
Lemma asString_required v name out :
  asString v name true true = Ok out ->
  exists s, v = JStr s /\ trim s <> "" /\ out = Some (trim s).
Proof.
  destruct v as [| |b|n|s|l|ps]; try discriminate. cbn. rewrite strlen_0.
  destruct (String.eqb_spec (trim s) ""); [discriminate|]. intros [= <-]. eauto.
Qed.

(** The [session_id] of an entry made with a resolved id. *)
Lemma asString_resolved r name out :
  resolved_id r -> asString (of_opt r) name false true = Ok out ->
  out = None \/ exists id, out = Some id /\ normalized_id id.
Proof.
  intros [->|(id & -> & Hne & Htrim)]; cbn.
  - intros [= <-]. left. reflexivity.
  - rewrite Htrim. intros [= <-]. right. exists id. repeat split; assumption.
Qed.

Lemma enforceStringMaxLength_Ok v name maxChars out :
  enforceStringMaxLength (Some v) name maxChars = Ok out ->
  out = Some v /\ strlen v <= maxChars.
Proof.
  cbn. destruct (Z.ltb_spec maxChars (strlen v)); [discriminate|].
  intros [= <-]. split; [reflexivity|lia].
Qed.

(** A required string argument taken as given. *)
Lemma asString_required_raw v name out :
  asString v name true false = Ok out -> exists s, v = JStr s /\ s <> "" /\ out = Some s.
Proof.
  destruct v as [| |b|n|s|l|ps]; try discriminate. cbn. rewrite strlen_0.
  destruct (String.eqb_spec s ""); [discriminate|]. intros [= <-]. eauto.
Qed.

Ltac tool_simpl :=
  unfold callTool_append_shared_note, callTool_write_shared_handoff,
    callTool_read_shared_context, callTool_get_latest_handoff, callTool_resume_session,
    makeEntryBase, resolveSessionIdInput, readActiveSessionId,
    readEntries, readRawContextFile, statContextFile, invalidateContextCache,
    set_contextCache, get_proc, try_catch, try_finally, await, await_ignore, perform,
    throw, lift, spin, mbind, M_bind, mret, M_ret in *;
  cbn [watched always io_bind fst snd readEntries_loop lock_next appends_only
       reads_only In].

Ltac tool_step :=
  first
    [ progress tool_simpl
    | match goal with
      | |- forall x : result _, any_answer _ -> _ => intros [?|?] _
      | |- forall x, any_answer _ -> _ => intros ? _
      | |- forall x : result _, _ => intros [?|?]
      | |- True /\ _ => split; [exact I|]
      | |- (_ = _ \/ _) /\ _ => split; [auto|]
      | |- forall x, _ /\ _ => intros ?
      | |- context [match ?x with Ok _ => _ | Throw _ => _ end] => destruct x eqn:?
      | |- context [if ?b then _ else _] => destruct b eqn:?
      | |- context [match ?x with Some _ => _ | None => _ end] => destruct x eqn:?
      | |- context [let '(_, _) := ?x in _] => destruct x eqn:?
      end ].

Section ToolFacts.
Variable CONTEXT_FILE CONTEXT_DIR : string.
Variable ACTIVE_SESSION_FILE ACTIVE_SESSION_DIR : string.
Variable DEFAULT_PROJECT : string.
Variable MAX_CONTEXT_FILE_BYTES : Z.
Variable MAX_NOTE_TEXT_CHARS MAX_HANDOFF_SUMMARY_CHARS : Z.
Variable MAX_ARRAY_ITEMS MAX_ARRAY_ITEM_CHARS : Z.
Variable JSON_parse : string -> jsval + string.
Variable JSON_stringify : jsval -> string.
Variable Date_parse : jsval -> option Z.
Variable toISOString : Z -> string.
Variable sanitizeDisplayText : string -> string.
Variable localeCompare : string -> string -> Z.
Variable encodeSessionIndex : sessionIndex -> string.
Variable decodeSessionIndex : string -> option sessionIndex.
Variable lockMetadata : Z -> string -> string -> string.

Local Abbreviation lock := (LOCK_FILE CONTEXT_FILE).
Local Abbreviation tool :=
  (callTool CONTEXT_FILE CONTEXT_DIR ACTIVE_SESSION_FILE ACTIVE_SESSION_DIR DEFAULT_PROJECT
     MAX_CONTEXT_FILE_BYTES MAX_NOTE_TEXT_CHARS MAX_HANDOFF_SUMMARY_CHARS MAX_ARRAY_ITEMS
     MAX_ARRAY_ITEM_CHARS JSON_parse JSON_stringify Date_parse toISOString
     sanitizeDisplayText localeCompare encodeSessionIndex decodeSessionIndex lockMetadata).

(** X19. The tools [read_shared_context], [get_latest_handoff] and
    [resume_session], and a call of a tool that does not exist, only read:
    every call they make asks for the status or the content of the log or
    of the active-session file, or for a variable of the environment.
    They take no lock and create, write, rename or delete nothing,
    whatever the arguments and whatever the environment answers. *)
Theorem read_tools_only_read (fuel : nat) (name : string) (rawArgs : jsval) (p : proc) :
  name <> "append_shared_note" -> name <> "write_shared_handoff" ->
  name <> "list_sessions" -> name <> "choose_session" ->
  always any_answer (tool fuel name rawArgs p)
    (reads_only [CONTEXT_FILE; ACTIVE_SESSION_FILE]).
Proof.
  intros H1 H2 H3 H4. unfold callTool.
  destruct (String.eqb_spec name "append_shared_note"); [contradiction|].
  destruct (String.eqb_spec name "write_shared_handoff"); [contradiction|].
  destruct (String.eqb_spec name "list_sessions"); [contradiction|].
  destruct (String.eqb_spec name "choose_session"); [contradiction|].
  destruct (String.eqb name "read_shared_context");
    [|destruct (String.eqb name "get_latest_handoff");
      [|destruct (String.eqb name "resume_session"); [|exact I]]].
  all: repeat tool_step; exact I.
Qed.

Local Abbreviation resolve := (resolveSessionIdInput ACTIVE_SESSION_FILE).
Local Abbreviation append :=
  (appendEntry CONTEXT_FILE CONTEXT_DIR DEFAULT_PROJECT JSON_stringify Date_parse toISOString
     sanitizeDisplayText encodeSessionIndex decodeSessionIndex lockMetadata).

(** Resolving the session id appends nothing, leaves the lock alone, and
    gives no id or a normalized one. *)
Lemma resolve_watched (good : string -> Prop) (value : jsval) (required : bool) (p : proc)
    (phase : lockPhase) :
  watched (lock_next lock) (appends_only CONTEXT_FILE good) phase (resolve value required p)
    (fun phase' rp => phase' = phase /\ forall r, rp.1 = Ok r -> resolved_id r).
Proof.
  repeat tool_step;
    (split; [reflexivity|]); intros r; cbn [fst]; intros [= <-];
    try (left; reflexivity);
    match goal with
    | H : normalizeSessionId _ = Ok ?o |- resolved_id ?o =>
        exact (normalizeSessionId_resolved _ _ H)
    end.
Qed.

Lemma append_line_watched (good : string -> Prop) (fuel : nat) (entry : jsval) (p : proc)
    (phase : lockPhase) :
  good (JSON_stringify entry ++ NL) ->
  watched (lock_next lock) (appends_only CONTEXT_FILE good) phase (append fuel entry p)
    (fun phase' rp => (exists a, rp.1 = Ok a) -> phase' = Released).
Proof.
  intros Hgood.
  eapply watched_weaken;
    [|eapply watched_allowed; [|apply append_watched]].
  - cbn beta. intros phase' rp H Hok. apply H, Hok.
  - intros phase' [X q x]. destruct q; cbn; try exact (fun H => H).
    intros (-> & -> & ->). auto.
Qed.


End ToolFacts.

Lemma read_tools_only_read_witness :
  always any_answer
    (callTool "ctx.jsonl" "." "active" "." "shared" 1000 100 100 10 10 demo_JSON_parse
       demo_JSON_stringify demo_Date_parse demo_toISOString demo_sanitize demo_localeCompare
       demo_encode demo_decode demo_lockMetadata 1 "resume_session"
       (JObj [("session_id", JStr "s1")]) proc0)
    (reads_only ["ctx.jsonl"; "active"]).
Proof.
  apply (read_tools_only_read "ctx.jsonl" "." "active" "." "shared" 1000 100 100 10 10
           demo_JSON_parse demo_JSON_stringify demo_Date_parse demo_toISOString
           demo_sanitize demo_localeCompare demo_encode demo_decode demo_lockMetadata 1
           "resume_session" (JObj [("session_id", JStr "s1")]) proc0); discriminate.
Defined.

Example append_shared_note_demo :
  let out :=
    run demo_session_env
      (callTool "ctx.jsonl" "." "active" "." "shared" 1000 100 100 10 10 demo_JSON_parse
         demo_JSON_stringify demo_Date_parse demo_toISOString demo_sanitize
         demo_localeCompare demo_encode demo_decode demo_lockMetadata 3 "append_shared_note"
         (JObj [("agent", JStr " codex "); ("text", JStr "hi")]) proc0)
      (None, Throw (SystemError "ENOENT")) in
  trace_of out !! 6%nat = Some (Ev (FsOpenWx "ctx.jsonl.lock") (Ok 3))
  /\ trace_of out !! 12%nat = Some (Ev (FsAppendFile "ctx.jsonl" ("{}" ++ NL)) (Ok ()))
  /\ trace_of out !! 15%nat = Some (Ev (FsUnlink "ctx.jsonl.lock") (Ok ())).
Proof. vm_compute. repeat split. Qed.

(** ** Transport *)

Lemma take_drop_str : forall n s, (take_str n s ++ drop_str n s = s)%string.
Proof.
  induction n as [|n IH]; intros [|c s]; cbn; try reflexivity.
  rewrite append_cons, IH. reflexivity.
Qed.

Lemma take_str_full : forall n s,
  (n <= String.length s)%nat -> String.length (take_str n s) = n.
Proof.
  induction n as [|n IH]; intros [|c s]; cbn; intros H; try lia.
  rewrite IH; lia.
Qed.

Lemma take_str_app : forall a b, take_str (String.length a) (a ++ b) = a.
Proof.
  induction a as [|c a IH]; intros b.
  - rewrite append_nil. destruct b; reflexivity.
  - rewrite append_cons. cbn. rewrite IH. reflexivity.
Qed.

Lemma drop_str_add : forall a b s, drop_str (a + b) s = drop_str b (drop_str a s).
Proof.
  induction a as [|a IH]; intros b s; cbn.
  - destruct b, s; reflexivity.
  - destruct s as [|c s]; [destruct b; reflexivity|]. apply IH.
Qed.

Lemma drop_str_length : forall n s,
  String.length (drop_str n s) = (String.length s - n)%nat.
Proof.
  induction n as [|n IH]; intros [|c s]; cbn; try lia. apply IH.
Qed.

Lemma slice_0 n s : slice 0 n s = take_str n s.
Proof.
  unfold slice. rewrite Nat.sub_0_r. destruct s; reflexivity.
Qed.

Lemma startsWith_split : forall pat s,
  startsWith s pat = true -> s = (pat ++ drop_str (String.length pat) s)%string.
Proof.
  induction pat as [|p pat IH]; intros s; cbn.
  - intros _. rewrite append_nil. destruct s; reflexivity.
  - destruct s as [|c s]; [discriminate|].
    intros [Hc Hs]%andb_prop. apply Ascii.eqb_eq in Hc as ->.
    rewrite append_cons. cbn. f_equal. apply IH, Hs.
Qed.

Lemma startsWith_app : forall pat s, startsWith (pat ++ s) pat = true.
Proof.
  induction pat as [|p pat IH]; intros s; [destruct s; reflexivity|].
  rewrite append_cons. cbn. rewrite Ascii.eqb_refl. apply IH.
Qed.

Lemma startsWith_length : forall pat s,
  startsWith s pat = true -> (String.length pat <= String.length s)%nat.
Proof.
  induction pat as [|p pat IH]; intros s; cbn; [lia|].
  destruct s as [|c s]; [discriminate|]. intros [_ Hs]%andb_prop.
  apply IH in Hs. cbn. lia.
Qed.

(** Where [indexOf] finds the pattern, the pattern is. *)
Lemma indexOf_split pat : forall s i,
  indexOf pat s = Some i ->
  s = (take_str i s ++ pat ++ drop_str (i + String.length pat) s)%string
  /\ (i + String.length pat <= String.length s)%nat.
Proof.
  assert (forall s, startsWith s pat = true ->
            s = (take_str 0 s ++ pat ++ drop_str (0 + String.length pat) s)%string
            /\ (0 + String.length pat <= String.length s)%nat) as Hhere.
  { intros s Hpat. split; [|apply startsWith_length, Hpat].
    replace (take_str 0 s) with EmptyString by (destruct s; reflexivity).
    rewrite append_nil. apply startsWith_split, Hpat. }
  induction s as [|c s IH]; intros i; cbn [indexOf].
  - destruct (startsWith "" pat) eqn:Hpat; [|discriminate]. intros [= <-].
    apply Hhere, Hpat.
  - destruct (startsWith (String c s) pat) eqn:Hpat.
    + intros [= <-]. apply Hhere, Hpat.
    + destruct (indexOf pat s) as [j|] eqn:Hj; [|discriminate]. cbn. intros [= <-].
      destruct (IH j eq_refl) as [Hs Hlen]. split; [|cbn; lia].
      cbn. rewrite append_cons. f_equal. exact Hs.
Qed.

Lemma findHeaderEnd_split buffer index separatorLength :
  findHeaderEnd buffer = Some (index, separatorLength) ->
  exists separator,
    (separator = CRLFCRLF \/ separator = LFLF)
    /\ String.length separator = separatorLength
    /\ buffer = (take_str index buffer ++ separator
                   ++ drop_str (index + separatorLength) buffer)%string
    /\ (index + separatorLength <= String.length buffer)%nat.
Proof.
  unfold findHeaderEnd.
  destruct (indexOf CRLFCRLF buffer) as [crlf|] eqn:Hcrlf.
  - intros [= <- <-]. apply indexOf_split in Hcrlf as [Hs Hlen].
    exists CRLFCRLF. repeat split; auto.
  - destruct (indexOf LFLF buffer) as [lf|] eqn:Hlf; [|discriminate].
    intros [= <- <-]. apply indexOf_split in Hlf as [Hs Hlen].
    exists LFLF. repeat split; auto.
Qed.


(** Before the place where [indexOf] finds a character, it is not. *)
Lemma indexOf_char_first (c : ascii) : forall s i,
  indexOf (String c "") s = Some i ->
  indexOf (String c "") (take_str i s) = None
  /\ s = (take_str i s ++ String c "" ++ drop_str (i + 1) s)%string.
Proof.
  intros s i H. split; [|apply (indexOf_split _ _ _ H)].
  revert i H. induction s as [|x s IH]; intros i; cbn [indexOf startsWith].
  - discriminate.
  - replace (startsWith s "") with true by (destruct s; reflexivity).
    rewrite andb_true_r.
    destruct (Ascii.eqb x c) eqn:Hx.
    + intros [= <-]. reflexivity.
    + destruct (indexOf (String c "") s) as [j|] eqn:Hj; [|discriminate]. intros [= <-].
      cbn [take_str indexOf startsWith]. rewrite Hx, (IH j eq_refl). reflexivity.
Qed.


Lemma indexOf_here (pat tail : string) : indexOf pat (pat ++ tail) = Some O.
Proof.
  destruct (pat ++ tail)%string eqn:E; cbn [indexOf]; rewrite <- E, startsWith_app;
    reflexivity.
Qed.

Lemma indexOf_skip (p0 : ascii) (pat : string) : forall a s,
  all_chars (fun c => negb (Ascii.eqb c p0)) a = true ->
  indexOf (String p0 pat) (a ++ s) =
    option_map (Nat.add (String.length a)) (indexOf (String p0 pat) s).
Proof.
  induction a as [|c a IH]; intros s.
  - intros _. rewrite append_nil. destruct (indexOf _ s); reflexivity.
  - cbn [all_chars]. intros [Hc Ha]%andb_prop. apply negb_true_iff in Hc.
    rewrite append_cons. cbn [indexOf startsWith]. rewrite Hc. cbn [andb].
    rewrite (IH s Ha). destruct (indexOf _ s); reflexivity.
Qed.

(** The end of a header whose only CR is followed by something else
    than LF CR LF. *)
Lemma indexOf_header (a t tail : string) :
  all_chars (fun c => negb (Ascii.eqb c CR)) a = true ->
  all_chars (fun c => negb (Ascii.eqb c CR)) t = true ->
  startsWith (String CR (t ++ CRLFCRLF ++ tail)) CRLFCRLF = false ->
  indexOf CRLFCRLF (a ++ String CR (t ++ CRLFCRLF ++ tail))
  = Some (String.length (a ++ String CR t)).
Proof.
  intros Ha Ht Hstart. unfold CRLFCRLF at 1. rewrite (indexOf_skip _ _ _ _ Ha).
  cbn [indexOf]. fold CRLFCRLF. rewrite Hstart.
  unfold CRLFCRLF at 1. rewrite (indexOf_skip _ _ _ _ Ht). fold CRLFCRLF.
  replace (indexOf CRLFCRLF (CRLFCRLF ++ tail)) with (Some O).
  - cbn. rewrite length_append. cbn. f_equal. lia.
  - destruct (CRLFCRLF ++ tail)%string eqn:E; cbn [indexOf]; rewrite <- E, startsWith_app;
      reflexivity.
Qed.

Lemma startsWithIgnoringCase_app : forall pat a b,
  startsWithIgnoringCase a pat = true -> startsWithIgnoringCase (a ++ b) pat = true.
Proof.
  induction pat as [|p pat IH]; intros a b; [destruct (a ++ b)%string; reflexivity|].
  destruct a as [|c a]; [discriminate|]. rewrite append_cons. cbn.
  intros [Hc Ha]%andb_prop. rewrite Hc. apply IH, Ha.
Qed.

Lemma pretty_N_char_digit d : isDigit (pretty_N_char d) = true.
Proof.
  destruct d as [|p]; [reflexivity|].
  do 4 (try destruct p as [p|p|]); reflexivity.
Qed.

Lemma pretty_N_char_value d :
  (d < 10)%N -> Z.of_nat (nat_of_ascii (pretty_N_char d)) - 48 = Z.of_N d.
Proof.
  intros H.
  assert (d = 0 \/ d = 1 \/ d = 2 \/ d = 3 \/ d = 4 \/ d = 5 \/ d = 6 \/ d = 7 \/ d = 8
          \/ d = 9)%N as Hd by lia.
  decompose [or] Hd; subst d; reflexivity.
Qed.

Lemma pretty_N_go_digits (x : N) : forall s,
  all_chars isDigit s = true -> all_chars isDigit (pretty_N_go x s) = true.
Proof.
  induction (N.lt_wf_0 x) as [x _ IH]. intros s Hs.
  destruct (N.eq_dec x 0%N) as [->|Hx]; [rewrite pretty_N_go_0; exact Hs|].
  rewrite pretty_N_go_step by lia. apply IH; [apply N.div_lt; lia|].
  cbn [all_chars]. rewrite pretty_N_char_digit. exact Hs.
Qed.

Lemma pretty_N_go_value (x : N) : forall s,
  digitsValue 0 (pretty_N_go x s) = digitsValue (Z.of_N x) s.
Proof.
  induction (N.lt_wf_0 x) as [x _ IH]. intros s.
  destruct (N.eq_dec x 0%N) as [->|Hx]; [rewrite pretty_N_go_0; reflexivity|].
  rewrite pretty_N_go_step by lia. rewrite IH by (apply N.div_lt; lia).
  cbn [digitsValue]. rewrite pretty_N_char_value by (apply N.mod_lt; lia).
  f_equal. rewrite (N.div_mod x 10) at 3 by lia. lia.
Qed.

Lemma pretty_N_go_length (x : N) : forall s,
  (String.length s <= String.length (pretty_N_go x s))%nat.
Proof.
  induction (N.lt_wf_0 x) as [x _ IH]. intros s.
  destruct (N.eq_dec x 0%N) as [->|Hx]; [rewrite pretty_N_go_0; lia|].
  rewrite pretty_N_go_step by lia.
  etransitivity; [|apply IH, N.div_lt; lia]. cbn. lia.
Qed.

(** A natural number is written with digits, at least one, and they
    write that number. *)
Lemma pretty_digits (n : Z) :
  0 <= n ->
  exists c t, pretty n = String c t
              /\ all_chars isDigit (pretty n) = true
              /\ digitsValue 0 (pretty n) = n.
Proof.
  intros Hn. destruct n as [|x|x]; [exists "0"%char, ""; repeat split| |lia].
  change (pretty (Z.pos x)) with (pretty_N_go (N.pos x) "").
  assert (all_chars isDigit (pretty_N_go (N.pos x) "") = true) as Hdigits
    by (apply pretty_N_go_digits; reflexivity).
  assert (digitsValue 0 (pretty_N_go (N.pos x) "") = Z.pos x) as Hvalue
    by (rewrite pretty_N_go_value; reflexivity).
  rewrite pretty_N_go_step in * by lia.
  pose proof (pretty_N_go_length (N.pos x `div` 10)
                (String (pretty_N_char (N.pos x `mod` 10)) "")) as Hlen.
  destruct (pretty_N_go _ _) as [|c t]; [cbn in Hlen; lia|].
  exists c, t. repeat split; assumption.
Qed.

Lemma isDigit_ascii c : isDigit c = true -> isAsciiByte c = true.
Proof.
  unfold isDigit, isAsciiByte, between. intros [H1 H2]%andb_prop.
  apply Nat.leb_le in H1, H2. apply andb_true_intro.
  split; apply Nat.leb_le; lia.
Qed.

Lemma isDigit_not_CR c : isDigit c = true -> negb (Ascii.eqb c CR) = true.
Proof.
  intros H. destruct (Ascii.eqb_spec c CR) as [->|]; [discriminate H|reflexivity].
Qed.

Lemma isDigit_not_space c : isDigit c = true -> isWhiteSpace c = false.
Proof.
  destruct c as [[] [] [] [] [] [] [] []]; intros H; try discriminate H; reflexivity.
Qed.

Lemma frameHeader_match (n : Z) :
  0 <= n -> matchContentLength (frameHeader n) = Some (pretty n).
Proof.
  intros Hn. destruct (pretty_digits n Hn) as (c & t & Hpretty & Hdigits & _).
  assert (isDigit c = true) as Hc
    by (rewrite Hpretty in Hdigits; apply andb_prop in Hdigits as [? _]; assumption).
  unfold frameHeader.
  set (tail := String CR (String LF "Content-Type: application/json; charset=utf-8")).
  assert (matchContentLengthAt ("Content-Length: " ++ pretty n ++ tail) = Some (pretty n))
    as Hat.
  { unfold matchContentLengthAt.
    rewrite startsWithIgnoringCase_app by reflexivity.
    change ("Content-Length: " ++ pretty n ++ tail)%string
      with ("Content-Length:" ++ (" " ++ pretty n ++ tail))%string.
    change 15%nat with (String.length "Content-Length:").
    rewrite drop_str_app.
    rewrite (spanLength_app isWhiteSpace " " (pretty n ++ tail)) by
      (try reflexivity; rewrite Hpretty, append_cons; cbn; apply isDigit_not_space, Hc).
    change (String.length " ") with 1%nat.
    change (drop_str 1 (" " ++ pretty n ++ tail)) with (pretty n ++ tail)%string.
    rewrite (spanLength_app isDigit (pretty n) tail Hdigits) by reflexivity.
    rewrite take_str_app. rewrite Hpretty. reflexivity. }
  destruct ("Content-Length: " ++ pretty n ++ tail)%string; cbn [matchContentLength];
    rewrite Hat; reflexivity.
Qed.

Lemma frameHeader_ascii (n : Z) :
  0 <= n -> all_chars isAsciiByte (frameHeader n ++ CRLFCRLF) = true.
Proof.
  intros Hn. destruct (pretty_digits n Hn) as (c & t & _ & Hdigits & _).
  unfold frameHeader. rewrite !all_chars_app.
  rewrite (all_chars_impl isDigit isAsciiByte _ isDigit_ascii Hdigits). reflexivity.
Qed.

Lemma frameHeader_end (n : Z) (tail : string) :
  0 <= n ->
  findHeaderEnd (frameHeader n ++ CRLFCRLF ++ tail)
  = Some (String.length (frameHeader n), 4%nat).
Proof.
  intros Hn. destruct (pretty_digits n Hn) as (c & t & _ & Hdigits & _).
  unfold findHeaderEnd, frameHeader.
  set (type := String LF "Content-Type: application/json; charset=utf-8").
  replace (("Content-Length: " ++ pretty n ++ String CR type) ++ CRLFCRLF ++ tail)%string
    with (("Content-Length: " ++ pretty n) ++ String CR (type ++ CRLFCRLF ++ tail))%string
    by (rewrite !append_assoc; reflexivity).
  rewrite indexOf_header; [rewrite append_assoc; reflexivity| |reflexivity|].
  - rewrite all_chars_app. apply andb_true_intro. split; [reflexivity|].
    exact (all_chars_impl isDigit _ _ isDigit_not_CR Hdigits).
  - unfold type. rewrite !append_cons. reflexivity.
Qed.

Section TransportFacts.
Variable MAX_INBOUND_FRAME_BYTES MAX_INBOUND_LINE_BYTES : Z.
Variable utf8_toString Buffer_from : string -> string.
Variable nearestDouble : Z -> option Z.
Variable Number_toString : Z -> string.
Variable JSON_stringify : jsval -> string.

Local Abbreviation decodeFrame :=
  (tryDecodeFrame MAX_INBOUND_FRAME_BYTES utf8_toString nearestDouble Number_toString).
Local Abbreviation decodeLine :=
  (tryDecodeLineDelimitedJson MAX_INBOUND_LINE_BYTES utf8_toString Number_toString).
Local Abbreviation decodeIncoming :=
  (tryDecodeIncomingMessage MAX_INBOUND_FRAME_BYTES MAX_INBOUND_LINE_BYTES utf8_toString
     nearestDouble Number_toString).
Local Abbreviation send := (sendMessage Buffer_from JSON_stringify).

(** X22. [tryDecodeFrame] takes nothing from the buffer unless it answers
    a frame: on [null] and on an error the state is left as it was. When
    it answers a frame, the buffer was a header, a separator (two CRLF or
    two LF), the bytes of the frame and what it leaves in the buffer; the
    header announces the number of those bytes, which is at most
    [MAX_INBOUND_FRAME_BYTES]; and the mode is [framed] unless it was set
    before. *)
Theorem tryDecodeFrame_consumes (st : transport) :
  let '(r, st') := decodeFrame st in
  match r with
  | Ok (Some body) =>
      exists header separator bytes digits,
        inputBuffer st = (header ++ separator ++ bytes ++ inputBuffer st')%string
        /\ (separator = CRLFCRLF \/ separator = LFLF)
        /\ matchContentLength (utf8_toString header) = Some digits
        /\ Number_digits nearestDouble digits = Some (strlen bytes)
        /\ strlen bytes <= MAX_INBOUND_FRAME_BYTES
        /\ body = utf8_toString bytes
        /\ transportMode st' = enterMode FramedMode (transportMode st)
  | _ => st' = st
  end.
Proof.
  unfold tryDecodeFrame.
  destruct (findHeaderEnd (inputBuffer st)) as [[index separatorLength]|] eqn:Hend;
    [|reflexivity].
  rewrite slice_0.
  destruct (matchContentLength _) as [digits|] eqn:Hdigits; [|reflexivity].
  destruct (Number_digits nearestDouble digits) as [contentLength|] eqn:Hnumber;
    [|reflexivity].
  destruct (Z.ltb_spec contentLength 0) as [|Hpos]; [reflexivity|].
  destruct (Z.ltb_spec MAX_INBOUND_FRAME_BYTES contentLength) as [|Hmax]; [reflexivity|].
  destruct (Z.ltb_spec (strlen (inputBuffer st))
              (Z.of_nat (index + separatorLength) + contentLength)) as [|Hlen];
    [reflexivity|].
  apply findHeaderEnd_split in Hend as (separator & Hsep & Hseplen & Hbuffer & _).
  set (rest := drop_str (index + separatorLength) (inputBuffer st)) in *.
  assert (String.length rest = (String.length (inputBuffer st) - (index + separatorLength))%nat)
    as Hrest by apply drop_str_length.
  unfold strlen in Hlen.
  assert (strlen (take_str (Z.to_nat contentLength) rest) = contentLength) as Hbytes.
  { unfold strlen. rewrite take_str_full by lia. lia. }
  exists (take_str index (inputBuffer st)), separator,
    (take_str (Z.to_nat contentLength) rest), digits.
  cbn [inputBuffer transportMode]. rewrite Hbytes.
  repeat split; auto.
  rewrite drop_str_add. fold rest. rewrite take_drop_str. exact Hbuffer.
  unfold slice. fold rest. f_equal. f_equal. lia.
Qed.

(** X23. [tryDecodeLineDelimitedJson] returns within as many turns as the
    buffer has bytes, and what it takes from the buffer is whole lines:
    blank ones, which it passes over, and then the line it answers or
    rejects. The line answered is the first that is not blank, decoded and
    trimmed; it starts with a brace or a bracket and has at most
    [MAX_INBOUND_LINE_BYTES] bytes. On [null] the buffer holds no line feed
    any more, and the bytes after the last line feed are kept. *)
Theorem tryDecodeLineDelimitedJson_consumes (fuel : nat) (st : transport) :
  (String.length (inputBuffer st) < fuel)%nat ->
  exists r st' skipped,
    decodeLine fuel st = Some (r, st')
    /\ blankLines utf8_toString skipped
    /\ match r with
       | Ok (Some line) =>
           exists raw,
             inputBuffer st = (skipped ++ raw ++ NL ++ inputBuffer st')%string
             /\ indexOf NL raw = None
             /\ strlen raw <= MAX_INBOUND_LINE_BYTES
             /\ line = trim (utf8_toString raw)
             /\ line <> ""
             /\ startsWith line "{" || startsWith line "[" = true
             /\ transportMode st' = enterMode LineMode (transportMode st)
       | Ok None =>
           inputBuffer st = (skipped ++ inputBuffer st')%string
           /\ indexOf NL (inputBuffer st') = None
           /\ transportMode st' = transportMode st
       | Throw _ =>
           exists raw,
             inputBuffer st = (skipped ++ raw ++ NL ++ inputBuffer st')%string
             /\ indexOf NL raw = None
             /\ transportMode st' = transportMode st
       end.
Proof.
  unfold tryDecodeLineDelimitedJson. revert st.
  induction fuel as [|fuel IH]; intros st Hfuel; [lia|].
  cbn [tryDecodeLineDelimitedJson_loop].
  destruct (indexOf NL (inputBuffer st)) as [newlineIndex|] eqn:Hnl.
  - apply indexOf_char_first in Hnl as [Hraw Hbuffer]. rewrite slice_0.
    set (raw := take_str newlineIndex (inputBuffer st)) in *.
    set (rest := drop_str (newlineIndex + 1) (inputBuffer st)) in *.
    destruct (Z.ltb_spec MAX_INBOUND_LINE_BYTES (strlen raw)) as [|Hmax].
    { eexists _, _, "". split; [reflexivity|]. split; [constructor|].
      exists raw. cbn [inputBuffer transportMode]. rewrite append_nil. auto. }
    destruct (String.eqb_spec (trim (utf8_toString raw)) "") as [Hblank|Hfull].
    + destruct (IH {| inputBuffer := rest; transportMode := transportMode st |})
        as (r & st' & skipped & Hloop & Hskipped & Hr).
      { cbn [inputBuffer]. rewrite Hbuffer, !length_append in Hfuel. cbn in Hfuel. lia. }
      exists r, st', (raw ++ NL ++ skipped)%string.
      split; [exact Hloop|]. split; [constructor; assumption|].
      cbn [inputBuffer transportMode] in Hr. rewrite Hbuffer.
      change (String LF "") with NL.
      destruct r as [[line|]|e].
      * destruct Hr as (raw' & Hrest & Hr). exists raw'. rewrite Hrest.
        split; [rewrite !append_assoc; reflexivity|exact Hr].
      * destruct Hr as (Hrest & Hr). rewrite Hrest at 1.
        split; [rewrite !append_assoc; reflexivity|exact Hr].
      * destruct Hr as (raw' & Hrest & Hr). exists raw'. rewrite Hrest.
        split; [rewrite !append_assoc; reflexivity|exact Hr].
    + destruct (startsWith (trim (utf8_toString raw)) "{"
                || startsWith (trim (utf8_toString raw)) "[") eqn:Hstart.
      * eexists _, _, "". split; [reflexivity|]. split; [constructor|].
        exists raw. cbn [inputBuffer transportMode]. rewrite append_nil. auto 10.
      * eexists _, _, "". split; [reflexivity|]. split; [constructor|].
        exists raw. cbn [inputBuffer transportMode]. rewrite append_nil. auto.
  - eexists _, _, "". split; [reflexivity|]. split; [constructor|].
    rewrite append_nil. auto.
Qed.

(** X24. A frame written by [sendMessage] is read back by
    [tryDecodeFrame]: when the connection is not in line mode and the
    bytes of the message are at most [MAX_INBOUND_FRAME_BYTES], decoding
    what [sendMessage] writes, followed by anything, answers the text of
    the message, leaves what followed in the buffer, and the mode is
    [framed]. *)
Theorem framed_round_trip (mode : option transportModeT) (message : jsval) (rest : string) :
  utf8_codec utf8_toString Buffer_from ->
  mode <> Some LineMode ->
  strlen (Buffer_from (JSON_stringify message)) <= MAX_INBOUND_FRAME_BYTES ->
  strlen (Buffer_from (JSON_stringify message)) < 2 ^ 53 ->
  decodeFrame {| inputBuffer := send mode message ++ rest; transportMode := mode |}
  = (Ok (Some (JSON_stringify message)),
     {| inputBuffer := rest; transportMode := Some FramedMode |}).
Proof.
  intros (Hback & Hascii & _) Hmode Hmax Hexact.
  set (payload := Buffer_from (JSON_stringify message)) in *.
  set (n := strlen payload) in *.
  assert (0 <= n) as Hn by (unfold n, strlen; lia).
  assert (send mode message = (frameHeader n ++ CRLFCRLF) ++ payload)%string as Hsend.
  { assert (sendMessage Buffer_from JSON_stringify None message
            = (frameHeader n ++ CRLFCRLF) ++ payload)%string as Hframed.
    { unfold sendMessage. fold payload. fold n. f_equal.
      rewrite <- (Hascii _ (frameHeader_ascii n Hn)). f_equal.
      unfold frameHeader. rewrite !append_assoc. reflexivity. }
    destruct mode as [[]|]; [contradiction|exact Hframed..]. }
  unfold tryDecodeFrame. cbn [inputBuffer transportMode]. rewrite Hsend, !append_assoc.
  rewrite (frameHeader_end n _ Hn), slice_0, take_str_app.
  assert (utf8_toString (frameHeader n) = frameHeader n) as ->.
  { assert (all_chars isAsciiByte (frameHeader n) = true) as Hheader.
    { pose proof (frameHeader_ascii n Hn) as H. rewrite all_chars_app in H.
      apply andb_prop in H as [H _]. exact H. }
    rewrite <- (Hascii _ Hheader) at 1. apply Hback. }
  rewrite (frameHeader_match n Hn).
  destruct (pretty_digits n Hn) as (_ & _ & _ & _ & Hvalue).
  unfold Number_digits. rewrite Hvalue.
  destruct (Z.ltb_spec n (2 ^ 53)) as [_|]; [|lia].
  destruct (Z.ltb_spec n 0) as [|_]; [lia|].
  destruct (Z.ltb_spec MAX_INBOUND_FRAME_BYTES n) as [|_]; [lia|].
  assert (Z.to_nat n = String.length payload) as Hlen by (unfold n, strlen; lia).
  assert (drop_str (String.length (frameHeader n) + 4)
            (frameHeader n ++ CRLFCRLF ++ payload ++ rest) = (payload ++ rest)%string)
    as Hbody.
  { rewrite drop_str_add, drop_str_app.
    change 4%nat with (String.length CRLFCRLF). apply drop_str_app. }
  destruct (Z.ltb_spec (strlen (frameHeader n ++ CRLFCRLF ++ payload ++ rest))
              (Z.of_nat (String.length (frameHeader n) + 4) + n)) as [Hshort|_].
  { unfold strlen in Hshort. rewrite !length_append in Hshort.
    change (String.length CRLFCRLF) with 4%nat in Hshort. lia. }
  f_equal.
  - unfold slice. rewrite Hbody.
    replace (String.length (frameHeader n) + 4 + Z.to_nat n
             - (String.length (frameHeader n) + 4))%nat
      with (String.length payload) by lia.
    rewrite take_str_app. unfold payload. rewrite Hback. reflexivity.
  - f_equal.
    + rewrite drop_str_add, Hbody, Hlen. apply drop_str_app.
    + destruct mode as [[]|]; [contradiction|reflexivity..].
Qed.

Lemma frame_keeps_mode (st : transport) (mode : transportModeT) :
  transportMode st = Some mode -> transportMode (decodeFrame st).2 = Some mode.
Proof.
  intros Hmode. unfold tryDecodeFrame.
  repeat match goal with
         | |- context [match ?x with _ => _ end] => destruct x
         end; cbn [snd transportMode]; try exact Hmode.
  rewrite Hmode. reflexivity.
Qed.

Lemma line_keeps_mode (mode : transportModeT) : forall (fuel : nat) (st st' : transport) r,
  decodeLine fuel st = Some (r, st') ->
  transportMode st = Some mode -> transportMode st' = Some mode.
Proof.
  unfold tryDecodeLineDelimitedJson.
  induction fuel as [|fuel IH]; intros st st' r; [discriminate|].
  cbn [tryDecodeLineDelimitedJson_loop]. intros H Hmode.
  repeat match type of H with
         | context [match ?x with _ => _ end] => destruct x
         end;
    try (injection H as _ <-; cbn [transportMode]; rewrite ?Hmode; reflexivity).
  apply IH in H; [exact H|exact Hmode].
Qed.

Lemma detect_none (buffer : string) :
  detectIncomingTransportMode buffer = None <-> all_chars isSkippedByte buffer = true.
Proof.
  unfold detectIncomingTransportMode.
  induction buffer as [|c buffer IH]; cbn [stripStart all_chars]; [tauto|].
  destruct (isSkippedByte c); cbn [andb]; [exact IH|].
  destruct (_ || _); split; discriminate.
Qed.

(** X25. The mode of the connection is settled by the first byte that is
    not a space, a TAB, a CR or a LF, and stays: after
    [tryDecodeIncomingMessage] the mode is the one that was set before,
    or else the one that the buffer shows, whatever comes of the decoding
    (a message, [null] or an error). It is still unset afterwards only if
    it was unset and the buffer holds nothing but such bytes. *)
Theorem transport_mode_settled (fuel : nat) (st st' : transport) r :
  decodeIncoming fuel st = Some (r, st') ->
  transportMode st' = settledMode st
  /\ (transportMode st' = None <->
      transportMode st = None /\ all_chars isSkippedByte (inputBuffer st) = true).
Proof.
  intros H.
  assert (transportMode st' = settledMode st) as Hsettled.
  { unfold tryDecodeIncomingMessage, settledMode in *.
    destruct (transportMode st) as [mode|] eqn:Hmode.
    - destruct mode.
      + apply (line_keeps_mode _ _ _ _ _ H Hmode).
      + injection H as H. rewrite <- (frame_keeps_mode st FramedMode Hmode), H. reflexivity.
    - destruct (detectIncomingTransportMode (inputBuffer st)) as [detected|];
        [|injection H as _ <-; exact Hmode].
      cbn [transportMode] in H. destruct detected.
      + apply (line_keeps_mode _ _ _ _ _ H). reflexivity.
      + injection H as H.
        rewrite <- (frame_keeps_mode {| inputBuffer := inputBuffer st;
                                        transportMode := Some FramedMode |} FramedMode eq_refl).
        rewrite H. reflexivity. }
  split; [exact Hsettled|]. rewrite Hsettled. unfold settledMode.
  destruct (transportMode st) as [mode|].
  - split; [discriminate|intros [[=] _]].
  - rewrite detect_none. tauto.
Qed.

(** X26. A line written by [sendMessage] in line mode is read back by
    [tryDecodeLineDelimitedJson]: when the text of the message starts with
    a brace or a bracket, has no white space at its ends, no line feed
    among its bytes and at most [MAX_INBOUND_LINE_BYTES] of them, decoding
    what [sendMessage] writes, followed by anything, answers that text and
    leaves what followed in the buffer. *)
Theorem line_round_trip (fuel : nat) (message : jsval) (rest : string) :
  utf8_codec utf8_toString Buffer_from ->
  let text := JSON_stringify message in
  startsWith text "{" || startsWith text "[" = true ->
  trim text = text ->
  indexOf NL (Buffer_from text) = None ->
  strlen (Buffer_from text) <= MAX_INBOUND_LINE_BYTES ->
  decodeLine (S fuel) {| inputBuffer := send (Some LineMode) message ++ rest;
                         transportMode := Some LineMode |}
  = Some (Ok (Some text), {| inputBuffer := rest; transportMode := Some LineMode |}).
Proof.
  intros (Hback & Hascii & Happ) text Hstart Htrim Hline Hmax.
  unfold tryDecodeLineDelimitedJson, sendMessage. fold text.
  rewrite Happ, (Hascii NL eq_refl), append_assoc.
  set (bytes := Buffer_from text) in *.
  cbn [tryDecodeLineDelimitedJson_loop inputBuffer transportMode].
  assert (indexOf NL (bytes ++ NL ++ rest) = Some (String.length bytes)) as ->.
  { assert (all_chars (fun c => negb (Ascii.eqb c LF)) bytes = true) as Hbytes.
    { clear - Hline. induction bytes as [|c bytes IH]; [reflexivity|].
      cbn [indexOf startsWith NL] in Hline.
      replace (startsWith bytes "") with true in Hline by (destruct bytes; reflexivity).
      rewrite andb_true_r in Hline. cbn [all_chars].
      destruct (Ascii.eqb c LF); [discriminate|].
      destruct (indexOf _ bytes); [discriminate|]. apply IH. reflexivity. }
    unfold NL at 1. rewrite (indexOf_skip _ _ _ _ Hbytes). fold NL.
    rewrite indexOf_here.
    cbn. f_equal. lia. }
  rewrite slice_0, take_str_app.
  destruct (Z.ltb_spec MAX_INBOUND_LINE_BYTES (strlen bytes)) as [|_]; [lia|].
  assert (utf8_toString bytes = text) as -> by apply Hback.
  rewrite !Htrim.
  destruct (String.eqb_spec text "") as [Hempty|_].
  { rewrite Hempty in Hstart. discriminate Hstart. }
  rewrite Hstart. do 3 f_equal.
  rewrite drop_str_add, drop_str_app. reflexivity.
Qed.
End TransportFacts.

Lemma tryDecodeLineDelimitedJson_consumes_witness :
  exists r st' skipped,
    tryDecodeLineDelimitedJson 100 (fun s => s) pretty 20
      {| inputBuffer := String " " (NL ++ "{}" ++ NL ++ "[1"); transportMode := None |}
    = Some (r, st')
    /\ blankLines (fun s => s) skipped
    /\ match r with
       | Ok (Some line) =>
           exists raw,
             String " " (NL ++ "{}" ++ NL ++ "[1")
             = (skipped ++ raw ++ NL ++ inputBuffer st')%string
             /\ indexOf NL raw = None
             /\ strlen raw <= 100
             /\ line = trim raw
             /\ line <> ""
             /\ startsWith line "{" || startsWith line "[" = true
             /\ transportMode st' = enterMode LineMode None
       | Ok None =>
           String " " (NL ++ "{}" ++ NL ++ "[1") = (skipped ++ inputBuffer st')%string
           /\ indexOf NL (inputBuffer st') = None
           /\ transportMode st' = None
       | Throw _ =>
           exists raw,
             String " " (NL ++ "{}" ++ NL ++ "[1")
             = (skipped ++ raw ++ NL ++ inputBuffer st')%string
             /\ indexOf NL raw = None
             /\ transportMode st' = None
       end.
Proof.
  apply (tryDecodeLineDelimitedJson_consumes 100 (fun s => s) pretty 20
           {| inputBuffer := String " " (NL ++ "{}" ++ NL ++ "[1"); transportMode := None |}).
  vm_compute. lia.
Defined.

Example tryDecodeLineDelimitedJson_demo :
  tryDecodeLineDelimitedJson 100 (fun s => s) pretty 20
    {| inputBuffer := String " " (NL ++ "{}" ++ NL ++ "[1"); transportMode := None |}
  = Some (Ok (Some "{}"), {| inputBuffer := "[1"; transportMode := Some LineMode |}).
Proof. reflexivity. Qed.

Lemma framed_round_trip_witness :
  tryDecodeFrame 100 (fun s => s) (fun _ => None) pretty
    {| inputBuffer :=
         sendMessage (fun s => s) demo_JSON_stringify None (JObj []) ++ "Content-";
       transportMode := None |}
  = (Ok (Some (demo_JSON_stringify (JObj []))),
     {| inputBuffer := "Content-"; transportMode := Some FramedMode |}).
Proof.
  apply (framed_round_trip 100 (fun s => s) (fun s => s) (fun _ => None) pretty
           demo_JSON_stringify None (JObj []) "Content-").
  - repeat split.
  - discriminate.
  - vm_compute. discriminate.
  - vm_compute. reflexivity.
Defined.

Lemma transport_mode_settled_witness :
  transportMode
    {| inputBuffer := String " " "Content-Length: 2"; transportMode := Some FramedMode |}
  = settledMode {| inputBuffer := String " " "Content-Length: 2"; transportMode := None |}
  /\ (transportMode
        {| inputBuffer := String " " "Content-Length: 2"; transportMode := Some FramedMode |}
      = None <->
      transportMode
        {| inputBuffer := String " " "Content-Length: 2"; transportMode := None |} = None
      /\ all_chars isSkippedByte
           (inputBuffer
              {| inputBuffer := String " " "Content-Length: 2"; transportMode := None |})
         = true).
Proof.
  apply (transport_mode_settled 100 100 (fun s => s) (fun s => s) (fun _ => None) pretty 20
           {| inputBuffer := String " " "Content-Length: 2"; transportMode := None |}
           {| inputBuffer := String " " "Content-Length: 2"; transportMode := Some FramedMode |}
           (Ok None)).
  reflexivity.
Defined.

Lemma line_round_trip_witness :
  tryDecodeLineDelimitedJson 100 (fun s => s) pretty 1
    {| inputBuffer :=
         sendMessage (fun s => s) demo_JSON_stringify (Some LineMode) (JObj []) ++ "{";
       transportMode := Some LineMode |}
  = Some (Ok (Some (demo_JSON_stringify (JObj []))),
          {| inputBuffer := "{"; transportMode := Some LineMode |}).
Proof.
  apply (line_round_trip 100 (fun s => s) (fun s => s) pretty demo_JSON_stringify 0
           (JObj []) "{").
  - repeat split.
  - reflexivity.
  - reflexivity.
  - reflexivity.
  - vm_compute. discriminate.
Defined.

(** ** Prompts *)

Lemma spanLength_all class : forall s,
  all_chars class s = true -> spanLength class s = String.length s.
Proof.
  induction s as [|c s IH]; [reflexivity|]. cbn.
  intros [Hc Hs]%andb_prop. rewrite Hc, (IH Hs). reflexivity.
Qed.

Lemma onlyDigits_pretty (n : Z) : 0 <= n -> onlyDigits (pretty n) = true.
Proof.
  intros Hn. destruct (pretty_digits n Hn) as (c & t & Hpretty & Hdigits & _).
  unfold onlyDigits. rewrite (spanLength_all _ _ Hdigits), Nat.eqb_refl, Hpretty.
  reflexivity.
Qed.

Lemma resumePrompts_from_lookup : forall sessions index (k : nat) summary,
  sessions !! k = Some summary ->
  resumePrompts_from sessions index !! k = Some (resumePrompt summary (index + Z.of_nat k)).
Proof.
  induction sessions as [|s sessions IH]; intros index k summary; [discriminate|].
  destruct k as [|k]; cbn.
  - intros [= ->]. rewrite Z.add_0_r. reflexivity.
  - intros H. etransitivity; [exact (IH (index + 1) k summary H)|]. do 2 f_equal. lia.
Qed.

Section PromptFacts.
Variable nearestDouble : Z -> option Z.

Lemma parse_ordinal (index : Z) :
  0 <= index -> index + 1 < 2 ^ 53 ->
  parsePromptResumeIndex nearestDouble (PROMPT_RESUME_PREFIX ++ pretty (index + 1))
  = Some index.
Proof.
  intros Hpos Hexact. unfold parsePromptResumeIndex.
  rewrite startsWith_app, drop_str_app, onlyDigits_pretty by lia. cbn [negb].
  destruct (pretty_digits (index + 1)) as (_ & _ & _ & _ & Hvalue); [lia|].
  unfold Number_digits. rewrite Hvalue.
  destruct (Z.ltb_spec (index + 1) (2 ^ 53)); [|lia].
  replace (index + 1 - 1) with index by lia.
  destruct (Z.ltb_spec index (2 ^ 53)); [|lia].
  destruct (Z.ltb_spec index 0); [lia|reflexivity].
Qed.

(** X27. The names under which [listPrompts] lists the sessions are read
    back by [parsePromptResumeIndex]: the prompt listed for the session at
    position [k] (after the prompt for a new session) is named [resume_]
    followed by [k + 1], and that name gives the index [k], the position
    at which [getPrompt] looks the session up. The names of the two other
    prompts give no index. *)
Theorem resume_prompt_round_trip (sessions : list sessionSummary) (suggested : string)
    (k : nat) (summary : sessionSummary) :
  sessions !! k = Some summary ->
  Z.of_nat k + 1 < 2 ^ 53 ->
  (exists p, listPrompts_of sessions suggested !! S k = Some p
             /\ prompt_name p = PROMPT_RESUME_PREFIX ++ pretty (Z.of_nat k + 1)
             /\ parsePromptResumeIndex nearestDouble (prompt_name p) = Some (Z.of_nat k))
  /\ parsePromptResumeIndex nearestDouble PROMPT_NEW_SESSION = None
  /\ parsePromptResumeIndex nearestDouble PROMPT_RESUME_BY_ID = None.
Proof.
  intros Hk Hexact. split; [|split; reflexivity].
  exists (resumePrompt summary (Z.of_nat k)). unfold listPrompts_of. cbv zeta.
  assert (forall (x : prompt) l, (x :: l) !! S k = l !! k) as -> by reflexivity.
  rewrite lookup_app_l by
    (apply lookup_lt_is_Some; rewrite (resumePrompts_from_lookup _ 0 k summary Hk); eauto).
  rewrite (resumePrompts_from_lookup _ 0 k summary Hk), Z.add_0_l.
  split; [reflexivity|]. split; [reflexivity|].
  cbn [resumePrompt prompt_name]. apply parse_ordinal; lia.
Qed.
End PromptFacts.

Lemma resume_prompt_round_trip_witness :
  (exists p, listPrompts_of demo_summaries "main" !! 2%nat = Some p
             /\ prompt_name p = PROMPT_RESUME_PREFIX ++ pretty (Z.of_nat 1 + 1)
             /\ parsePromptResumeIndex (fun _ => None) (prompt_name p) = Some (Z.of_nat 1))
  /\ parsePromptResumeIndex (fun _ => None) PROMPT_NEW_SESSION = None
  /\ parsePromptResumeIndex (fun _ => None) PROMPT_RESUME_BY_ID = None.
Proof.
  apply (resume_prompt_round_trip (fun _ => None) demo_summaries "main" 1 demo_s1).
  - reflexivity.
  - reflexivity.
Defined.

Example resumePrompt_demo :
  shortIsoForPrompt (Some "2024-01-01T10:00:00.000Z") = "2024-01-01 10:00:00"
  /\ map prompt_name (listPrompts_of demo_summaries "main")
     = ["new_session"; "resume_1"; "resume_2"; "resume_by_id"].
Proof. split; reflexivity. Qed.

(** ** Session index read from a file *)

Lemma integerAtLeast_bound (min fallback : Z) (v : jsval) :
  min <= fallback -> min <= integerAtLeast min fallback v.
Proof.
  intros H. destruct v as [| |b|n|s|l|ps]; cbn; try exact H.
  destruct (Z.leb_spec min n); [assumption|exact H].
Qed.

Lemma trimmedString_normalized (v : jsval) (t : string) :
  trimmedString v = Some t -> normalized_id t.
Proof.
  destruct v as [| |b|n|s|l|ps]; try discriminate. cbn.
  destruct (String.eqb_spec (trim s) "") as [|Hne]; [discriminate|].
  intros [= <-]. split; [exact Hne|apply trim_idempotent].
Qed.

Lemma pushUniqueString_kept (target : list string) (v : jsval) :
  List.NoDup target /\ Forall normalized_id target ->
  List.NoDup (pushUniqueString target v) /\ Forall normalized_id (pushUniqueString target v).
Proof.
  intros [Hnd Hall]. destruct v as [| |b|n|s|l|ps]; cbn; try (split; assumption).
  destruct (String.eqb_spec (trim s) "") as [|Hne]; [split; assumption|].
  destruct (existsb (String.eqb (trim s)) target) eqn:E; [split; assumption|]. split.
  - apply List.NoDup_app; [exact Hnd|repeat constructor; intros []|].
    intros x Hx [<-|[]]. apply existsb_eqb_In in Hx. congruence.
  - apply Forall_app. split; [exact Hall|]. constructor; [|constructor].
    split; [exact Hne|apply trim_idempotent].
Qed.

Lemma pushUniqueString_fold (items : list jsval) : forall target,
  List.NoDup target /\ Forall normalized_id target ->
  List.NoDup (foldl pushUniqueString target items)
  /\ Forall normalized_id (foldl pushUniqueString target items).
Proof.
  induction items as [|v items IH]; intros target H; [exact H|].
  cbn. apply IH, pushUniqueString_kept, H.
Qed.

Lemma normalizeSummary_well_formed (projectName key : string) (summaryRaw : jsval)
    (id : string) (s : sessionSummary) :
  projectName <> "" ->
  normalizeSummary projectName key summaryRaw = Some (id, s) ->
  well_formed_summary projectName id s.
Proof.
  intros Hproject. unfold normalizeSummary.
  destruct (String.eqb key "" || negb (isObject summaryRaw)); [discriminate|].
  set (sessionId := match trimmedString summaryRaw.["session_id"] with
                    | Some i => i
                    | None => trim key
                    end).
  assert (trim sessionId = sessionId) as Htrim.
  { unfold sessionId. destruct (trimmedString _) as [i|] eqn:Hi; [|apply trim_idempotent].
    apply trimmedString_normalized in Hi as [_ Hi]. exact Hi. }
  destruct (String.eqb_spec sessionId "") as [|Hne]; [discriminate|].
  intros [= <- <-]. unfold well_formed_summary.
  cbn [session_id project entry_count note_count handoff_count latest_ts latest_file_index
       last_entry_kind task latest_handoff_summary agents makeSessionSummary].
  repeat match goal with |- _ /\ _ => split end;
    try (apply integerAtLeast_bound; lia);
    try (intros t; apply trimmedString_normalized);
    try reflexivity; try assumption.
  - split; assumption.
  - unfold js_or. cbn. destruct (String.eqb_spec projectName ""); [contradiction|reflexivity].
  - destruct summaryRaw.["latest_ts"] as [| |b|n|x|l|ps]; try discriminate.
    destruct (String.eqb_spec x ""); [discriminate|congruence].
  - destruct summaryRaw.["last_entry_kind"] as [| |b|n|x|l|ps]; cbn; auto.
    destruct (String.eqb_spec x "note") as [->|]; [auto|].
    destruct (String.eqb_spec x "handoff") as [->|]; auto.
  - destruct summaryRaw.["agents"] as [| |b|n|x|items|ps]; try constructor.
    eapply Permutation_NoDup; [symmetry; apply array_sort_Permutation|].
    apply pushUniqueString_fold. split; constructor.
  - destruct summaryRaw.["agents"] as [| |b|n|x|items|ps]; try constructor.
    apply array_sort_sorted; [exact demo_localeCompare_total|exact demo_localeCompare_trans].
  - destruct summaryRaw.["agents"] as [| |b|n|x|items|ps]; try constructor.
    eapply Permutation_Forall; [symmetry; apply array_sort_Permutation|].
    apply pushUniqueString_fold. split; constructor.
Qed.

Lemma bucket_well_formed (projectName : string) (l : list (string * jsval)) :
  projectName <> "" ->
  forall bucket : gmap string sessionSummary,
  map_Forall (well_formed_summary projectName) bucket ->
  map_Forall (well_formed_summary projectName)
    (foldl (fun (bucket : gmap string sessionSummary) '(sessionIdKey, summaryRaw) =>
              match normalizeSummary projectName sessionIdKey summaryRaw with
              | Some (sessionId, summary) => <[sessionId := summary]> bucket
              | None => bucket
              end) bucket l).
Proof.
  intros Hproject. induction l as [|[key summaryRaw] l IH]; intros bucket H; [exact H|].
  cbn [foldl]. apply IH.
  destruct (normalizeSummary projectName key summaryRaw) as [[id s]|] eqn:Hs; [|exact H].
  apply map_Forall_insert_2; [|exact H].
  exact (normalizeSummary_well_formed _ _ _ _ _ Hproject Hs).
Qed.

Lemma projects_well_formed (l : list (string * jsval)) :
  forall projects : gmap string (gmap string sessionSummary),
  map_Forall (fun p bucket => p <> "" /\ map_Forall (well_formed_summary p) bucket) projects ->
  map_Forall (fun p bucket => p <> "" /\ map_Forall (well_formed_summary p) bucket)
    (foldl (fun projects '(projectName, bucketRaw) =>
              normalizeBucket projects projectName bucketRaw) projects l).
Proof.
  induction l as [|[projectName bucketRaw] l IH]; intros projects H; [exact H|].
  cbn [foldl]. apply IH. unfold normalizeBucket.
  destruct (String.eqb_spec projectName "") as [|Hproject]; [exact H|].
  cbn [orb]. destruct (negb (isObject bucketRaw)); [exact H|].
  apply map_Forall_insert_2; [|exact H]. split; [exact Hproject|].
  apply bucket_well_formed; [exact Hproject|]. apply map_Forall_empty.
Qed.

(** X28. Whatever value the index file holds, an index that
    [normalizeSessionIndex] answers is well formed: its version is the
    current one, [next_file_index] is not negative, no project has an
    empty name, and every summary is stored under its own session id,
    which is trimmed and not empty, carries the name of its project, has
    counts that are not negative, a [latest_file_index] of at least -1, a
    [last_entry_kind] that is [note], [handoff] or absent, a task and a
    handoff summary that are trimmed and not empty or absent, and agents
    that are trimmed, distinct and sorted. *)
Theorem normalizeSessionIndex_well_formed (raw : jsval) (idx : sessionIndex) :
  normalizeSessionIndex raw = Some idx ->
  version idx = SESSION_INDEX_VERSION
  /\ 0 <= next_file_index idx
  /\ forall (projectName : string) (bucket : gmap string sessionSummary),
       projects idx !! projectName = Some bucket ->
       projectName <> ""
       /\ forall (id : string) (s : sessionSummary),
            bucket !! id = Some s -> well_formed_summary projectName id s.
Proof.
  unfold normalizeSessionIndex. destruct (negb (isObject raw)); [discriminate|].
  destruct raw.["version"] as [| |b|v|x|l|ps]; try discriminate.
  destruct (negb (v =? SESSION_INDEX_VERSION)); [discriminate|].
  intros [= <-]. cbn [version next_file_index projects].
  split; [reflexivity|]. split; [apply integerAtLeast_bound; lia|].
  intros projectName bucket Hbucket.
  pose proof (projects_well_formed (Object_entries raw.["projects"]) ∅
                (map_Forall_empty _)) as Hall.
  destruct (map_Forall_lookup_1 _ _ _ _ Hall Hbucket) as [Hproject Hsummaries].
  split; [exact Hproject|]. intros id s Hs.
  exact (map_Forall_lookup_1 _ _ _ _ Hsummaries Hs).
Qed.

Lemma normalizeSessionIndex_well_formed_witness :
  exists idx,
    normalizeSessionIndex
      (JObj [("version", JNum 1); ("next_file_index", JNum (-4));
             ("projects",
              JObj [("shared",
                     JObj [(" s1 ", JObj [("entry_count", JNum (-2));
                                          ("agents", JArr [JStr " b "; JStr "a"; JStr "b"])])])])])
    = Some idx
    /\ version idx = SESSION_INDEX_VERSION
    /\ 0 <= next_file_index idx
    /\ forall (projectName : string) (bucket : gmap string sessionSummary),
         projects idx !! projectName = Some bucket ->
         projectName <> ""
         /\ forall (id : string) (s : sessionSummary),
              bucket !! id = Some s -> well_formed_summary projectName id s.
Proof.
  eexists. split; [reflexivity|].
  apply normalizeSessionIndex_well_formed with
    (raw := JObj [("version", JNum 1); ("next_file_index", JNum (-4));
                  ("projects",
                   JObj [("shared",
                          JObj [(" s1 ", JObj [("entry_count", JNum (-2));
                                               ("agents",
                                                JArr [JStr " b "; JStr "a"; JStr "b"])])])])]).
  reflexivity.
Defined.

(** ** File signature *)

Lemma pretty_N_go_no_colon (x : N) : forall s,
  all_chars (fun c => negb (Ascii.eqb c ":")) s = true ->
  all_chars (fun c => negb (Ascii.eqb c ":")) (pretty_N_go x s) = true.
Proof.
  induction (N.lt_wf_0 x) as [x _ IH]. intros s Hs.
  destruct (N.eq_dec x 0%N) as [->|Hx]; [rewrite pretty_N_go_0; exact Hs|].
  rewrite pretty_N_go_step by lia. apply IH; [apply N.div_lt; lia|].
  cbn [all_chars]. rewrite Hs, andb_true_r.
  pose proof (pretty_N_char_digit (x `mod` 10)) as Hdigit.
  destruct (Ascii.eqb_spec (pretty_N_char (x `mod` 10)) ":") as [E|]; [|reflexivity].
  rewrite E in Hdigit. discriminate Hdigit.
Qed.

Lemma pretty_no_colon (z : Z) : all_chars (fun c => negb (Ascii.eqb c ":")) (pretty z) = true.
Proof.
  destruct z as [|x|x]; [reflexivity| |].
  - apply (pretty_N_go_no_colon (N.pos x) ""). reflexivity.
  - change (pretty (Z.neg x)) with (String "-" (pretty_N_go (N.pos x) "")).
    cbn [all_chars]. apply (pretty_N_go_no_colon (N.pos x) ""). reflexivity.
Qed.

(** Two texts with a colon between them are read back from the whole
    when the first has no colon. *)
Lemma split_at_colon : forall a c b d : string,
  all_chars (fun x => negb (Ascii.eqb x ":")) a = true ->
  all_chars (fun x => negb (Ascii.eqb x ":")) c = true ->
  (a ++ ":" ++ b = c ++ ":" ++ d)%string -> a = c /\ b = d.
Proof.
  induction a as [|x a IH]; intros [|y c] b d Ha Hc H.
  - injection H as H. rewrite !append_nil in H. subst d. split; reflexivity.
  - rewrite append_cons in H. injection H as Hy _. subst y. cbn in Hc. discriminate Hc.
  - rewrite append_cons in H. injection H as Hx _. subst x. cbn in Ha. discriminate Ha.
  - rewrite !append_cons in H. injection H as Hx H. subst y. cbn in Ha, Hc.
    apply andb_prop in Ha as [_ Ha]. apply andb_prop in Hc as [_ Hc].
    destruct (IH c b d Ha Hc H) as [-> ->]. split; reflexivity.
Qed.

(** X29. The signature of a file tells its size and the whole
    milliseconds of its modification time, and nothing more: two files have
    the same signature exactly when they agree on both. A change that keeps
    the size and falls in the same millisecond is therefore not seen. *)
Theorem makeFileSignature_identifies (a b : stat) :
  makeFileSignature (Some a) = makeFileSignature (Some b) <->
  size a = size b /\ Math_trunc (mtimeMs a) = Math_trunc (mtimeMs b).
Proof.
  cbn [makeFileSignature]. split.
  - intros [= H]. apply split_at_colon in H as [Hsize Htime]; try apply pretty_no_colon.
    split; apply (inj pretty); assumption.
  - intros [-> ->]. reflexivity.
Qed.
